(** * Dianoia: the structured debug logger (debug.ts)

    A shallow embedding of the [DebugLogger] class and of the part of the
    JavaScript runtime it leans on (dynamic values, strict equality,
    truthiness, [JSON.stringify] and [JSON.parse]), followed by the
    properties of the logger proved over that embedding.

    Conventions.
    - The class mutates [this]; here every method takes the state before
      the call and returns the state after it (and the method's result
      when it has one).
    - [Date.now()], [new Date().toISOString()] and [Math.random()] are
      inputs of the call that reads them.
    - [console] is the transcript of the calls made on it, kept in the
      state next to the fields of the class.
    - The state holds the configuration as a value.  Where the identity
      of the configuration object matters ([getConfig] hands out a copy),
      the objects are kept by address next to the state ([Instance]).

    Limits of the value model.
    - Numbers are the integers together with [NaN]; [toFixed(2)] and the
      printing of numbers are those of integers.
    - Strings are sequences of 8-bit code units; [toUpperCase] acts on the
      ASCII letters.
    - Values are finite trees: no cycles and no functions; the properties
      of an object stay in insertion order (integer-like keys are not
      moved to the front).
    - A value lists its own enumerable properties.  Where the code reads
      a key that a value may lack ([getStateChanges]), what the engine
      finds elsewhere (a property that is not enumerable, a member of the
      prototype chain) is an input of the call, see [read]. *)

From Stdlib Require Import ZArith Ascii String List Lia Bool.
From stdpp Require Import base option list strings pretty gmap.

Local Open Scope Z_scope.

(** ** Dynamic values *)

(** A value of type [any].  An array or an object carries the identity of
    the allocation it lives in: strict equality compares that identity and
    nothing else reads it.  The properties of an object are listed in the
    order [Object.keys] enumerates them. *)
Unset Elimination Schemes.
Inductive jsval : Type :=
| VUndef
| VNull
| VBool (b : bool)
| VNum (z : Z)
| VNaN
| VStr (s : string)
| VArr (ident : N) (items : list jsval)
| VObj (ident : N) (props : list (string * jsval)).
Set Elimination Schemes.

(** Induction on values, with the hypothesis for every element of an array
    and every property value of an object. *)
Section ValueInduction.

Variable P : jsval -> Prop.
Hypothesis HUndef : P VUndef.
Hypothesis HNull : P VNull.
Hypothesis HBool : forall b, P (VBool b).
Hypothesis HNum : forall z, P (VNum z).
Hypothesis HNaN : P VNaN.
Hypothesis HStr : forall s, P (VStr s).
Hypothesis HArr : forall i items, Forall P items -> P (VArr i items).
Hypothesis HObj : forall i props, Forall (fun kv => P (snd kv)) props -> P (VObj i props).

Fixpoint jsval_ind (v : jsval) : P v :=
  match v with
  | VUndef => HUndef
  | VNull => HNull
  | VBool b => HBool b
  | VNum z => HNum z
  | VNaN => HNaN
  | VStr s => HStr s
  | VArr i items =>
      HArr i items
        ((fix all (l : list jsval) : Forall P l :=
            match l with
            | [] => List.Forall_nil P
            | x :: l' => @List.Forall_cons _ P x l' (jsval_ind x) (all l')
            end) items)
  | VObj i props =>
      HObj i props
        ((fix all (l : list (string * jsval)) : Forall (fun kv => P (snd kv)) l :=
            match l with
            | [] => List.Forall_nil _
            | kv :: l' => @List.Forall_cons _ (fun kv => P (snd kv)) kv l' (jsval_ind (snd kv)) (all l')
            end) props)
  end.

End ValueInduction.

(** Objects the logger allocates itself (object literals and spreads) are
    never operands of a comparison; they all carry this identity. *)
Definition lit : N := 0%N.

(** ToBoolean. *)
Definition truthy (v : jsval) : bool :=
  match v with
  | VUndef | VNull | VNaN => false
  | VBool b => b
  | VNum z => negb (z =? 0)
  | VStr s => negb (String.eqb s EmptyString)
  | VArr _ _ | VObj _ _ => true
  end.

(** [a === b]: primitives by value ([NaN] differs from itself), arrays and
    objects by identity. *)
Definition strict_eq (a b : jsval) : bool :=
  match a, b with
  | VUndef, VUndef => true
  | VNull, VNull => true
  | VBool x, VBool y => Bool.eqb x y
  | VNum x, VNum y => x =? y
  | VStr x, VStr y => String.eqb x y
  | VArr i _, VArr j _ => (i =? j)%N
  | VObj i _, VObj j _ => (i =? j)%N
  | _, _ => false
  end.

Definition strict_neq (a b : jsval) : bool := negb (strict_eq a b).

(** [o[key]] on a property list: the first binding, [undefined] when the
    key is absent. *)
Fixpoint get_prop (key : string) (props : list (string * jsval)) : jsval :=
  match props with
  | [] => VUndef
  | (k, v) :: rest => if String.eqb k key then v else get_prop key rest
  end.

Fixpoint has_prop (key : string) (props : list (string * jsval)) : bool :=
  match props with
  | [] => false
  | (k, _) :: rest => String.eqb k key || has_prop key rest
  end.

(** [o[key] = v]: overwrite in place, or append a new property. *)
Fixpoint set_prop (key : string) (v : jsval) (props : list (string * jsval))
  : list (string * jsval) :=
  match props with
  | [] => [(key, v)]
  | (k, x) :: rest =>
      if String.eqb k key then (k, v) :: rest else (k, x) :: set_prop key v rest
  end.

(** [{...a, ...b}] on property lists. *)
Definition spread (a b : list (string * jsval)) : list (string * jsval) :=
  fold_left (fun acc kv => set_prop (fst kv) (snd kv) acc) b a.

(** The own enumerable string-keyed properties a spread copies out of an
    arbitrary value: those of an object, the indices of an array, the
    indices of a string, nothing otherwise. *)
Fixpoint index_props_from (i : nat) (items : list jsval) : list (string * jsval) :=
  match items with
  | [] => []
  | x :: rest => (pretty i, x) :: index_props_from (S i) rest
  end.

Fixpoint char_props_from (i : nat) (s : string) : list (string * jsval) :=
  match s with
  | EmptyString => []
  | String c rest => (pretty i, VStr (String c EmptyString)) :: char_props_from (S i) rest
  end.

Definition own_props (v : jsval) : list (string * jsval) :=
  match v with
  | VObj _ ps => ps
  | VArr _ xs => index_props_from 0 xs
  | VStr s => char_props_from 0 s
  | _ => []
  end.

(** [Object.keys(v)] for a value that is not [null] or [undefined]. *)
Definition Object_keys (v : jsval) : list string := map fst (own_props v).

(** The own enumerable property [key] of [v], [undefined] when it has
    none: what [v[key]] reads where the prototype chain plays no part. *)
Definition get (v : jsval) (key : string) : jsval := get_prop key (own_props v).

(** [v[key]] for a value that is not [null] or [undefined]: the own
    enumerable property, and otherwise what the engine finds elsewhere.
    [proto v key] is that finding: an own property that is not
    enumerable (the [length] of an array or a string), a member of the
    prototype chain ([toString], [constructor], the prototype itself for
    [__proto__]), or [undefined].  Functions are not values of the model;
    [proto] gives the object that stands for one. *)
Definition read (proto : jsval -> string -> jsval) (v : jsval) (key : string) : jsval :=
  if has_prop key (own_props v) then get v key else proto v key.

(** ** JSON.stringify *)

Definition dquote : ascii := "034"%char.
Definition backslash : ascii := "092"%char.
Definition newline : ascii := "010"%char.
Definition nl : string := String newline EmptyString.

Fixpoint spaces (n : nat) : string :=
  match n with
  | O => EmptyString
  | S k => String " " (spaces k)
  end.

Definition hex_char (n : N) : ascii :=
  ascii_of_N (if (n <? 10)%N then 48 + n else 87 + n)%N.

(** One code unit inside a quoted string (QuoteJSONString). *)
Definition quote_char (c : ascii) : string :=
  let n := N_of_ascii c in
  if (n =? 8)%N then "\b"
  else if (n =? 9)%N then "\t"
  else if (n =? 10)%N then "\n"
  else if (n =? 12)%N then "\f"
  else if (n =? 13)%N then "\r"
  else if (n =? 34)%N then String backslash (String dquote EmptyString)
  else if (n =? 92)%N then String backslash (String backslash EmptyString)
  else if (n <? 32)%N then
    "\u00" +:+ String (hex_char (n / 16)) (String (hex_char (n mod 16)) EmptyString)
  else String c EmptyString.

Fixpoint quote_body (s : string) : string :=
  match s with
  | EmptyString => EmptyString
  | String c rest => quote_char c +:+ quote_body rest
  end.

Definition QuoteJSONString (s : string) : string :=
  String dquote (quote_body s +:+ String dquote EmptyString).

Fixpoint join (sep : string) (parts : list string) : string :=
  match parts with
  | [] => EmptyString
  | [p] => p
  | p :: rest => p +:+ sep +:+ join sep rest
  end.

(** The closing step shared by SerializeJSONObject and SerializeJSONArray:
    [gap] is the number of spaces of one indentation step, [stepback] the
    indentation of the enclosing line. *)
Definition bracket (opening closing : string) (gap stepback : nat)
    (partial : list string) : string :=
  match partial with
  | [] => opening +:+ closing
  | _ =>
      if Nat.eqb gap 0 then opening +:+ join "," partial +:+ closing
      else
        let indent := (stepback + gap)%nat in
        opening +:+ nl +:+ spaces indent
          +:+ join ("," +:+ nl +:+ spaces indent) partial
          +:+ nl +:+ spaces stepback +:+ closing
  end.

Definition member (gap : nat) (key text : string) : string :=
  QuoteJSONString key +:+ ":" +:+ (if Nat.eqb gap 0 then EmptyString else " ") +:+ text.

(** SerializeJSONProperty: [None] is the result [undefined]. *)
Fixpoint SerializeJSONProperty (gap stepback : nat) (v : jsval) : option string :=
  match v with
  | VUndef => None
  | VNull => Some "null"
  | VBool true => Some "true"
  | VBool false => Some "false"
  | VNum z => Some (pretty z)
  | VNaN => Some "null"
  | VStr s => Some (QuoteJSONString s)
  | VArr _ items =>
      Some (bracket "[" "]" gap stepback
              (map (fun x => default "null"
                      (SerializeJSONProperty gap (stepback + gap) x)) items))
  | VObj _ props =>
      Some (bracket "{" "}" gap stepback
              (omap (fun kv => member gap (fst kv)
                      <$> SerializeJSONProperty gap (stepback + gap) (snd kv)) props))
  end.

(** [JSON.stringify(v, null, space)] for a numeric [space]. *)
Definition JSON_stringify (space : nat) (v : jsval) : option string :=
  SerializeJSONProperty (Nat.min 10 space) 0 v.

(** ** The interfaces of debug.ts *)

(** [DebugConfig].  The type restricts [level] to the five level names, but
    the value is assigned from the environment unchecked, so it is a
    string here. *)
Module DebugConfig.
Record t : Type := mk {
  enabled : bool;
  level : string;
  includeTimestamps : bool;
  includePerformance : bool;
  includeStackTraces : bool;
  logToConsole : bool;
  logToFile : bool;
  logFilePath : option string
}.
End DebugConfig.

(** [Partial<DebugConfig>]: [None] is a key the object does not have (a key
    bound to [undefined] is not represented). *)
Module PartialConfig.
Record t : Type := mk {
  enabled : option bool;
  level : option string;
  includeTimestamps : option bool;
  includePerformance : option bool;
  includeStackTraces : option bool;
  logToConsole : option bool;
  logToFile : option bool;
  logFilePath : option string
}.
Definition empty : t := mk None None None None None None None None.
End PartialConfig.

(** [LogEntry.performance]. *)
Module Performance.
Record t : Type := mk { duration : option Z; memory : option Z }.
End Performance.

(** [LogEntry.error]. *)
Module ErrorDetail.
Record t : Type := mk { name : string; message : string; stack : option string }.
End ErrorDetail.

Module LogEntry.
Record t : Type := mk {
  timestamp : string;
  level : string;
  component : string;
  action : string;
  message : string;
  data : jsval;
  performance : option Performance.t;
  error : option ErrorDetail.t;
  context : jsval
}.
End LogEntry.

Module PerformanceMetric.
Record t : Type := mk {
  operation : string;
  startTime : Z;
  endTime : option Z;
  duration : option Z;
  metadata : jsval
}.
End PerformanceMetric.

(** One call [console[method](...args)]. *)
Record ConsoleCall : Type := Console { method : string; args : list jsval }.

(** The fields of a [DebugLogger] instance, and the console it writes to. *)
Record State : Type := mkState {
  config : DebugConfig.t;
  performanceMetrics : gmap string PerformanceMetric.t;
  logBuffer : list LogEntry.t;
  console : list ConsoleCall
}.

Definition maxBufferSize : nat := 1000.

(** The readings of the clock one [createLogEntry] makes:
    [new Date().toISOString()] and [getTime()]. *)
Record Clock : Type := mkClock { toISOString : string; getTime : Z }.

Definition set_config (c : DebugConfig.t) (st : State) : State :=
  mkState c (performanceMetrics st) (logBuffer st) (console st).

Definition set_performanceMetrics (m : gmap string PerformanceMetric.t) (st : State) : State :=
  mkState (config st) m (logBuffer st) (console st).

Definition set_logBuffer (b : list LogEntry.t) (st : State) : State :=
  mkState (config st) (performanceMetrics st) b (console st).

(** ** Values built from the records *)

Definition opt_prop (key : string) (o : option jsval) : list (string * jsval) :=
  match o with
  | Some v => [(key, v)]
  | None => []
  end.

(** The configuration object: the keys of the default literal in the
    constructor, then [logFilePath] when it was supplied. *)
Definition config_props (c : DebugConfig.t) : list (string * jsval) :=
  [ ("enabled", VBool (DebugConfig.enabled c));
    ("level", VStr (DebugConfig.level c));
    ("includeTimestamps", VBool (DebugConfig.includeTimestamps c));
    ("includePerformance", VBool (DebugConfig.includePerformance c));
    ("includeStackTraces", VBool (DebugConfig.includeStackTraces c));
    ("logToConsole", VBool (DebugConfig.logToConsole c));
    ("logToFile", VBool (DebugConfig.logToFile c)) ]
  ++ opt_prop "logFilePath" (VStr <$> DebugConfig.logFilePath c).

Definition config_value (c : DebugConfig.t) : jsval := VObj lit (config_props c).

Definition performance_value (p : Performance.t) : jsval :=
  VObj lit (opt_prop "duration" (VNum <$> Performance.duration p)
            ++ opt_prop "memory" (VNum <$> Performance.memory p)).

Definition error_value (e : ErrorDetail.t) : jsval :=
  VObj lit ([ ("name", VStr (ErrorDetail.name e));
              ("message", VStr (ErrorDetail.message e)) ]
            ++ opt_prop "stack" (VStr <$> ErrorDetail.stack e)).

(** A buffered entry as a value: the keys of the literal in
    [createLogEntry], then [performance] and [error] when they were
    assigned. *)
Definition entry_value (e : LogEntry.t) : jsval :=
  VObj lit ([ ("timestamp", VStr (LogEntry.timestamp e));
              ("level", VStr (LogEntry.level e));
              ("component", VStr (LogEntry.component e));
              ("action", VStr (LogEntry.action e));
              ("message", VStr (LogEntry.message e));
              ("data", LogEntry.data e);
              ("context", LogEntry.context e) ]
            ++ opt_prop "performance" (performance_value <$> LogEntry.performance e)
            ++ opt_prop "error" (error_value <$> LogEntry.error e)).

(** ** String helpers of the runtime *)

Definition upper_char (c : ascii) : ascii :=
  let n := N_of_ascii c in
  if ((97 <=? n) && (n <=? 122))%N then ascii_of_N (n - 32) else c.

(** [toUpperCase] on the ASCII letters. *)
Fixpoint toUpperCase (s : string) : string :=
  match s with
  | EmptyString => EmptyString
  | String c rest => String (upper_char c) (toUpperCase rest)
  end.

(** [toFixed(2)] on an integral number. *)
Definition toFixed2 (z : Z) : string := pretty z +:+ ".00".

Fixpoint indexOf_from (i : Z) (x : string) (l : list string) : Z :=
  match l with
  | [] => -1
  | y :: rest => if String.eqb y x then i else indexOf_from (i + 1) x rest
  end.

(** [l.indexOf(x)]. *)
Definition indexOf (l : list string) (x : string) : Z := indexOf_from 0 x l.

(** ** The private methods *)

Definition levels : list string := ["error"; "warn"; "info"; "debug"; "trace"].

Definition shouldLog (st : State) (level : string) : bool :=
  if negb (DebugConfig.enabled (config st)) then false
  else
    let currentLevelIndex := indexOf levels (DebugConfig.level (config st)) in
    let messageLevelIndex := indexOf levels level in
    messageLevelIndex <=? currentLevelIndex.

Definition performance_duration (e : LogEntry.t) : jsval :=
  match LogEntry.performance e with
  | Some p => default VUndef (VNum <$> Performance.duration p)
  | None => VUndef
  end.

Definition formatLogEntry (st : State) (entry : LogEntry.t) : string :=
  let formatted := EmptyString in
  let formatted :=
    if DebugConfig.includeTimestamps (config st)
    then formatted +:+ "[" +:+ LogEntry.timestamp entry +:+ "] "
    else formatted in
  let formatted := formatted +:+ "[" +:+ toUpperCase (LogEntry.level entry) +:+ "] " in
  let formatted := formatted +:+ "[" +:+ LogEntry.component entry +:+ "] " in
  let formatted := formatted +:+ LogEntry.action entry +:+ ": " +:+ LogEntry.message entry in
  let formatted :=
    match performance_duration entry with
    | VNum d => if truthy (VNum d) then formatted +:+ " (" +:+ toFixed2 d +:+ "ms)" else formatted
    | _ => formatted
    end in
  let formatted :=
    if truthy (LogEntry.context entry)
    then formatted +:+ " | Context: "
           +:+ default "undefined" (JSON_stringify 0 (LogEntry.context entry))
    else formatted in
  formatted.

Definition createLogEntry (st : State) (clk : Clock)
    (level component action message : string) (data context : jsval) : LogEntry.t :=
  let entry :=
    LogEntry.mk (toISOString clk) level component action message data None None context in
  if DebugConfig.includePerformance (config st)
  then LogEntry.mk (LogEntry.timestamp entry) (LogEntry.level entry)
         (LogEntry.component entry) (LogEntry.action entry) (LogEntry.message entry)
         (LogEntry.data entry)
         (Some (Performance.mk (Some (getTime clk)) None))
         (LogEntry.error entry) (LogEntry.context entry)
  else entry.

Definition consoleMethod (level : string) : string :=
  if String.eqb level "error" then "error"
  else if String.eqb level "warn" then "warn"
  else if String.eqb level "info" then "info"
  else "log".

Definition is_some {A : Type} (o : option A) : bool :=
  match o with Some _ => true | None => false end.

(** The calls on [console] one accepted entry causes when [logToConsole]
    is set. *)
Definition console_calls (formatted : string) (entry : LogEntry.t) : list ConsoleCall :=
  Console (consoleMethod (LogEntry.level entry)) [VStr formatted]
  :: (if truthy (LogEntry.data entry) || is_some (LogEntry.error entry)
         || is_some (LogEntry.performance entry)
      then
        [Console "group" [VStr "📊 Debug Details"]]
        ++ (if truthy (LogEntry.data entry)
            then [Console "log" [VStr "Data:"; LogEntry.data entry]] else [])
        ++ match LogEntry.error entry with
           | Some e => [Console "log" [VStr "Error:"; error_value e]]
           | None => []
           end
        ++ match LogEntry.performance entry with
           | Some p => [Console "log" [VStr "Performance:"; performance_value p]]
           | None => []
           end
        ++ (if truthy (LogEntry.context entry)
            then [Console "log" [VStr "Context:"; LogEntry.context entry]] else [])
        ++ [Console "groupEnd" []]
      else []).

(** [logBuffer.push(entry)] followed by the bounded [shift()]. *)
Definition push_bounded (entry : LogEntry.t) (buffer : list LogEntry.t) : list LogEntry.t :=
  let pushed := buffer ++ [entry] in
  if (maxBufferSize <? length pushed)%nat then tail pushed else pushed.

Definition outputLog (entry : LogEntry.t) (st : State) : State :=
  if negb (shouldLog st (LogEntry.level entry)) then st
  else
    let formatted := formatLogEntry st entry in
    let out :=
      if DebugConfig.logToConsole (config st)
      then console st ++ console_calls formatted entry
      else console st in
    mkState (config st) (performanceMetrics st)
      (push_bounded entry (logBuffer st)) out.

(** ** The public logging methods *)

Definition error (clk : Clock) (component action message : string)
    (data context : jsval) (st : State) : State :=
  outputLog (createLogEntry st clk "error" component action message data context) st.

Definition warn (clk : Clock) (component action message : string)
    (data context : jsval) (st : State) : State :=
  outputLog (createLogEntry st clk "warn" component action message data context) st.

Definition info (clk : Clock) (component action message : string)
    (data context : jsval) (st : State) : State :=
  outputLog (createLogEntry st clk "info" component action message data context) st.

Definition debug (clk : Clock) (component action message : string)
    (data context : jsval) (st : State) : State :=
  outputLog (createLogEntry st clk "debug" component action message data context) st.

Definition trace (clk : Clock) (component action message : string)
    (data context : jsval) (st : State) : State :=
  outputLog (createLogEntry st clk "trace" component action message data context) st.

Definition log (clk : Clock) (component action message : string)
    (data context : jsval) (st : State) : State :=
  debug clk component action message data context st.

(** ** Performance tracking *)

(** [startTimer]: [date_now] and [random36] are the readings of
    [Date.now()] and of [Math.random().toString(36).substr(2, 9)] that make
    the identifier, [start] the reading of [getTime()], [clk] the readings
    of the [trace] call. *)
Definition startTimer (date_now : Z) (random36 : string) (start : Z) (clk : Clock)
    (operation : string) (metadata : jsval) (st : State) : State * string :=
  if negb (DebugConfig.enabled (config st))
     || negb (DebugConfig.includePerformance (config st))
  then (st, EmptyString)
  else
    let timerId := operation +:+ "_" +:+ pretty date_now +:+ "_" +:+ random36 in
    let startTime := start in
    let st1 :=
      set_performanceMetrics
        (<[timerId := PerformanceMetric.mk operation startTime None None metadata]>
           (performanceMetrics st)) st in
    let st2 :=
      trace clk "performance" "timer_start" ("Started timer for: " +:+ operation)
        (VObj lit [("timerId", VStr timerId); ("metadata", metadata)]) VUndef st1 in
    (st2, timerId).

(** [endTimer]: [end_time] is the reading of [getTime()], [clk] the
    readings of the [warn] or [info] call. *)
Definition endTimer (end_time : Z) (clk : Clock)
    (timerId : string) (additionalData : jsval) (st : State) : State :=
  if negb (DebugConfig.enabled (config st))
     || negb (DebugConfig.includePerformance (config st))
     || negb (truthy (VStr timerId))
  then st
  else
    match performanceMetrics st !! timerId with
    | None =>
        warn clk "performance" "timer_end" ("Timer not found: " +:+ timerId)
          VUndef VUndef st
    | Some metric =>
        let endTime := end_time in
        let duration := endTime - PerformanceMetric.startTime metric in
        let metric' :=
          PerformanceMetric.mk (PerformanceMetric.operation metric)
            (PerformanceMetric.startTime metric) (Some endTime) (Some duration)
            (PerformanceMetric.metadata metric) in
        let st1 :=
          set_performanceMetrics (<[timerId := metric']> (performanceMetrics st)) st in
        let st2 :=
          info clk "performance" "timer_end"
            ("Completed: " +:+ PerformanceMetric.operation metric')
            (VObj lit
               (spread
                  [ ("duration", VStr (toFixed2 duration +:+ "ms"));
                    ("operation", VStr (PerformanceMetric.operation metric'));
                    ("metadata", PerformanceMetric.metadata metric') ]
                  (own_props additionalData)))
            VUndef st1 in
        set_performanceMetrics (delete timerId (performanceMetrics st2)) st2
    end.

(** ** Error, request and response tracking *)

(** The fields of an [Error] that [trackError] reads. *)
Record JsError : Type := mkError {
  error_name : string;
  error_message : string;
  error_stack : option string
}.

Definition trackError (clk : Clock) (err : JsError) (component action : string)
    (context : jsval) (st : State) : State :=
  let errorData :=
    VObj lit
      [ ("name", VStr (error_name err));
        ("message", VStr (error_message err));
        ("stack",
          if DebugConfig.includeStackTraces (config st)
          then default VUndef (VStr <$> error_stack err)
          else VUndef) ] in
  error clk component action ("Error: " +:+ error_message err) errorData context st.

Definition trackAPIRequest (date_now : Z) (random36 : string) (clk : Clock)
    (method url : string) (data context : jsval) (st : State) : State * string :=
  let requestId := "req_" +:+ pretty date_now +:+ "_" +:+ random36 in
  let st' :=
    info clk "api" "request" (method +:+ " " +:+ url)
      (VObj lit
         [ ("method", VStr method); ("url", VStr url); ("data", data);
           ("requestId", VStr requestId) ])
      (VObj lit (spread (own_props context) [("requestId", VStr requestId)])) st in
  (st', requestId).

Definition trackAPIResponse (clk : Clock) (requestId : string) (status : Z)
    (data : jsval) (duration : option Z) (context : jsval) (st : State) : State :=
  info clk "api" "response"
    ("Response " +:+ pretty status +:+ " for " +:+ requestId)
    (VObj lit
       [ ("status", VNum status); ("data", data);
         ("duration",
           match duration with
           | Some d => if truthy (VNum d) then VStr (toFixed2 d +:+ "ms") else VUndef
           | None => VUndef
           end) ])
    (VObj lit (spread (own_props context) [("requestId", VStr requestId)])) st.

(** ** State change tracking *)

(** [set.add(x)] on an insertion-ordered set. *)
Definition Set_add (s : list string) (x : string) : list string :=
  if existsb (String.eqb x) s then s else s ++ [x].

(** [new Set(l)]. *)
Definition new_Set (l : list string) : list string := fold_left Set_add l [].

(** [changes[key] = v] on the object literal [changes]: the assignment
    to [__proto__] goes through the setter of [Object.prototype], which
    makes the object [v] the prototype of [changes] and gives [changes]
    no property; the prototype of [changes] is not represented. *)
Definition assign_change (key : string) (v : jsval) (changes : list (string * jsval))
  : list (string * jsval) :=
  if String.eqb key "__proto__" then changes else set_prop key v changes.

(** The body of the loop of [getStateChanges]; [proto] is the lookup of
    the engine, see [read]. *)
Definition diff_step (proto : jsval -> string -> jsval) (oldState newState : jsval)
    (changes : list (string * jsval)) (key : string) : list (string * jsval) :=
  if strict_neq (read proto oldState key) (read proto newState key)
  then assign_change key
         (VObj lit [("from", read proto oldState key); ("to", read proto newState key)])
         changes
  else changes.

(** The [Record<string, { from: any; to: any }>] that [getStateChanges]
    returns, as its property list. *)
Definition getStateChanges (proto : jsval -> string -> jsval) (oldState newState : jsval)
  : list (string * jsval) :=
  let changes : list (string * jsval) := [] in
  if negb (truthy oldState) || negb (truthy newState) then changes
  else
    let allKeys := new_Set (Object_keys oldState ++ Object_keys newState) in
    fold_left (diff_step proto oldState newState) allKeys changes.

Definition trackStateChange (proto : jsval -> string -> jsval) (clk : Clock)
    (component action : string) (oldState newState context : jsval) (st : State) : State :=
  debug clk "state" "change" (component +:+ " state changed via " +:+ action)
    (VObj lit
       [ ("oldState", oldState); ("newState", newState);
         ("changes", VObj lit (getStateChanges proto oldState newState)) ])
    context st.

(** ** Configuration management *)

(** [{ ...c, ...p }]. *)
Definition merge_config (c : DebugConfig.t) (p : PartialConfig.t) : DebugConfig.t :=
  DebugConfig.mk
    (default (DebugConfig.enabled c) (PartialConfig.enabled p))
    (default (DebugConfig.level c) (PartialConfig.level p))
    (default (DebugConfig.includeTimestamps c) (PartialConfig.includeTimestamps p))
    (default (DebugConfig.includePerformance c) (PartialConfig.includePerformance p))
    (default (DebugConfig.includeStackTraces c) (PartialConfig.includeStackTraces p))
    (default (DebugConfig.logToConsole c) (PartialConfig.logToConsole p))
    (default (DebugConfig.logToFile c) (PartialConfig.logToFile p))
    (match PartialConfig.logFilePath p with
     | Some f => Some f
     | None => DebugConfig.logFilePath c
     end).

Definition updateConfig (clk : Clock) (newConfig : PartialConfig.t) (st : State) : State :=
  let oldConfig := config st in
  let st1 := set_config (merge_config (config st) newConfig) st in
  info clk "system" "config_update" "Debug configuration updated"
    (VObj lit
       [ ("oldConfig", config_value oldConfig);
         ("newConfig", config_value (config st1)) ])
    VUndef st1.

Definition getLogs (st : State) : list LogEntry.t := logBuffer st.

Definition clearLogs (clk : Clock) (st : State) : State :=
  let st1 := set_logBuffer [] st in
  info clk "system" "logs_cleared" "Debug logs cleared" VUndef VUndef st1.

Definition exportLogs (st : State) : string :=
  default EmptyString
    (JSON_stringify 2 (VArr lit (map entry_value (logBuffer st)))).

(** ** Construction *)

(** What [initializeDebugMode] finds around it: [process.env] when
    [isNodeEnv()] holds, whether [isBrowserEnv()] holds, and
    [window.localStorage] when it is there. *)
Record Host : Type := mkHost {
  process_env : option (gmap string string);
  window_defined : bool;
  localStorage : option (gmap string string)
}.

Definition isBrowserEnv (h : Host) : bool := window_defined h.

Definition getStorage (h : Host) : option (gmap string string) :=
  if isBrowserEnv h then localStorage h else None.

Definition defaultConfig : DebugConfig.t :=
  DebugConfig.mk true "debug" true true true true false None.

Definition with_enabled (b : bool) (c : DebugConfig.t) : DebugConfig.t :=
  DebugConfig.mk b (DebugConfig.level c) (DebugConfig.includeTimestamps c)
    (DebugConfig.includePerformance c) (DebugConfig.includeStackTraces c)
    (DebugConfig.logToConsole c) (DebugConfig.logToFile c) (DebugConfig.logFilePath c).

Definition with_level (l : string) (c : DebugConfig.t) : DebugConfig.t :=
  DebugConfig.mk (DebugConfig.enabled c) l (DebugConfig.includeTimestamps c)
    (DebugConfig.includePerformance c) (DebugConfig.includeStackTraces c)
    (DebugConfig.logToConsole c) (DebugConfig.logToFile c) (DebugConfig.logFilePath c).

Definition string_truthy (o : option string) : bool :=
  match o with
  | Some s => truthy (VStr s)
  | None => false
  end.

(** The first block of [initializeDebugMode]: environment variables. *)
Definition config_from_env (h : Host) (c : DebugConfig.t) : DebugConfig.t :=
  match process_env h with
  | Some env =>
      if bool_decide (env !! "DIANOIA_DEBUG" = Some "false") then with_enabled false c
      else if string_truthy (env !! "DIANOIA_DEBUG_LEVEL")
      then with_level (default EmptyString (env !! "DIANOIA_DEBUG_LEVEL")) c
      else c
  | None => c
  end.

(** The second block: local storage. *)
Definition config_from_storage (h : Host) (c : DebugConfig.t) : DebugConfig.t :=
  match getStorage h with
  | Some storage =>
      let debugEnabled := storage !! "dianoia_debug_enabled" in
      let c1 :=
        if bool_decide (debugEnabled = Some "false") then with_enabled false c
        else if bool_decide (debugEnabled = Some "true") then with_enabled true c
        else c in
      let debugLevel := storage !! "dianoia_debug_level" in
      if string_truthy debugLevel
         && existsb (String.eqb (default EmptyString debugLevel)) levels
      then with_level (default EmptyString debugLevel) c1
      else c1
  | None => c
  end.

(** [initializeDebugMode]: [data_iso] is the reading of
    [new Date().toISOString()] placed in the payload, [clk] the readings of
    the [log] call. *)
Definition initializeDebugMode (h : Host) (data_iso : string) (clk : Clock)
    (st : State) : State :=
  let st1 := set_config (config_from_storage h (config_from_env h (config st))) st in
  if DebugConfig.enabled (config st1)
  then
    log clk "system" "debug_init" "Debug system initialized"
      (VObj lit
         [ ("config", config_value (config st1));
           ("environment", VStr (if isBrowserEnv h then "browser" else "node"));
           ("timestamp", VStr data_iso) ])
      VUndef st1
  else st1.

(** [new DebugLogger(partial)], on a console that has seen [out] so far. *)
Definition constructor (h : Host) (data_iso : string) (clk : Clock)
    (partial : PartialConfig.t) (out : list ConsoleCall) : State :=
  initializeDebugMode h data_iso clk
    (mkState (merge_config defaultConfig partial) ∅ [] out).

(** ** The public interface as a whole *)

Inductive Call : Type :=
| CallError (clk : Clock) (component action message : string) (data context : jsval)
| CallWarn (clk : Clock) (component action message : string) (data context : jsval)
| CallInfo (clk : Clock) (component action message : string) (data context : jsval)
| CallDebug (clk : Clock) (component action message : string) (data context : jsval)
| CallTrace (clk : Clock) (component action message : string) (data context : jsval)
| CallLog (clk : Clock) (component action message : string) (data context : jsval)
| CallStartTimer (date_now : Z) (random36 : string) (start : Z) (clk : Clock)
    (operation : string) (metadata : jsval)
| CallEndTimer (end_time : Z) (clk : Clock) (timerId : string) (additionalData : jsval)
| CallTrackError (clk : Clock) (err : JsError) (component action : string) (context : jsval)
| CallTrackAPIRequest (date_now : Z) (random36 : string) (clk : Clock)
    (method url : string) (data context : jsval)
| CallTrackAPIResponse (clk : Clock) (requestId : string) (status : Z) (data : jsval)
    (duration : option Z) (context : jsval)
| CallTrackStateChange (proto : jsval -> string -> jsval) (clk : Clock)
    (component action : string) (oldState newState context : jsval)
| CallUpdateConfig (clk : Clock) (newConfig : PartialConfig.t)
| CallGetConfig
| CallGetLogs
| CallClearLogs (clk : Clock)
| CallExportLogs.

(** The state a public call leaves behind. *)
Definition run (c : Call) (st : State) : State :=
  match c with
  | CallError clk co ac me da cx => error clk co ac me da cx st
  | CallWarn clk co ac me da cx => warn clk co ac me da cx st
  | CallInfo clk co ac me da cx => info clk co ac me da cx st
  | CallDebug clk co ac me da cx => debug clk co ac me da cx st
  | CallTrace clk co ac me da cx => trace clk co ac me da cx st
  | CallLog clk co ac me da cx => log clk co ac me da cx st
  | CallStartTimer dn rnd start clk op md => fst (startTimer dn rnd start clk op md st)
  | CallEndTimer et clk id ad => endTimer et clk id ad st
  | CallTrackError clk err co ac cx => trackError clk err co ac cx st
  | CallTrackAPIRequest dn rnd clk me url da cx =>
      fst (trackAPIRequest dn rnd clk me url da cx st)
  | CallTrackAPIResponse clk id status da du cx =>
      trackAPIResponse clk id status da du cx st
  | CallTrackStateChange proto clk co ac old new cx =>
      trackStateChange proto clk co ac old new cx st
  | CallUpdateConfig clk p => updateConfig clk p st
  | CallGetConfig => st
  | CallGetLogs => st
  | CallClearLogs clk => clearLogs clk st
  | CallExportLogs => st
  end.

Definition run_all (calls : list Call) (st : State) : State :=
  fold_left (fun s c => run c s) calls st.

(** ** The configuration as an object *)

(** [this.config] refers to an object: [updateConfig] replaces it by a
    new one, [getConfig] hands out a new one with the same properties,
    and a caller may assign to the properties of an object it was
    handed.  [objects] holds the configuration objects by address,
    [this_config] is the address [this.config] holds, and [fields] holds
    the other fields of the logger; the [config] of [fields] is not
    read, the configuration in force is what [objects] holds at
    [this_config].  Log entries hold configurations as values. *)
Record Instance : Type := mkInstance {
  objects : gmap N DebugConfig.t;
  this_config : N;
  fields : State
}.

(** The configuration read through [this.config]. *)
Definition current (i : Instance) : DebugConfig.t :=
  default (config (fields i)) (objects i !! this_config i).

(** The state the methods run on. *)
Definition view (i : Instance) : State := set_config (current i) (fields i).

(** A new object holding [c]: its address, and the objects with it. *)
Definition allocate (c : DebugConfig.t) (objs : gmap N DebugConfig.t)
  : N * gmap N DebugConfig.t :=
  let address := fresh (dom objs) in
  (address, <[address := c]> objs).

(** [new DebugLogger(partial)]: the object literal of the constructor is
    the first object; [initializeDebugMode] assigns to its properties. *)
Definition new_DebugLogger (h : Host) (data_iso : string) (clk : Clock)
    (partial : PartialConfig.t) (out : list ConsoleCall) : Instance :=
  let st := constructor h data_iso clk partial out in
  let (address, objs) := allocate (config st) ∅ in
  mkInstance objs address st.

(** [getConfig]: [{ ...this.config }] is a new object; its address is
    returned. *)
Definition getConfig (i : Instance) : Instance * N :=
  let (address, objs) := allocate (current i) (objects i) in
  (mkInstance objs (this_config i) (fields i), address).

(** A public call on the instance.  [updateConfig] makes two objects,
    the copy [oldConfig] and the merged configuration, and assigns the
    second to [this.config]. *)
Definition call (c : Call) (i : Instance) : Instance :=
  match c with
  | CallUpdateConfig clk newConfig =>
      let (_, objs1) := allocate (current i) (objects i) in
      let st := updateConfig clk newConfig (view i) in
      let (address, objs2) := allocate (config st) objs1 in
      mkInstance objs2 address st
  | CallGetConfig => fst (getConfig i)
  | _ => mkInstance (objects i) (this_config i) (run c (view i))
  end.

(** What a caller does to an object it holds: after its assignments the
    object at [address] holds [c]. *)
Definition assign (address : N) (c : DebugConfig.t) (i : Instance) : Instance :=
  mkInstance (<[address := c]> (objects i)) (this_config i) (fields i).

(** ** JSON.parse *)

Definition is_ws (c : ascii) : bool :=
  let n := N_of_ascii c in
  ((n =? 32) || (n =? 10) || (n =? 13) || (n =? 9))%N.

Fixpoint skip_ws (s : string) : string :=
  match s with
  | String c rest => if is_ws c then skip_ws rest else s
  | EmptyString => s
  end.

Definition digit_of (c : ascii) : option N :=
  let n := N_of_ascii c in
  if ((48 <=? n) && (n <=? 57))%N then Some (n - 48)%N else None.

Definition hex_of (c : ascii) : option N :=
  let n := N_of_ascii c in
  if ((48 <=? n) && (n <=? 57))%N then Some (n - 48)%N
  else if ((97 <=? n) && (n <=? 102))%N then Some (n - 87)%N
  else if ((65 <=? n) && (n <=? 70))%N then Some (n - 55)%N
  else None.

Fixpoint parse_digits (acc : N) (s : string) : N * string :=
  match s with
  | String c rest =>
      match digit_of c with
      | Some d => parse_digits (10 * acc + d) rest
      | None => (acc, s)
      end
  | EmptyString => (acc, s)
  end.

(** The integer part of a number: [0], or a non-zero digit and more digits. *)
Definition parse_int (s : string) : option (N * string) :=
  match s with
  | String c rest =>
      match digit_of c with
      | Some 0%N => Some (0%N, rest)
      | Some d => Some (parse_digits d rest)
      | None => None
      end
  | EmptyString => None
  end.

(** Fractions and exponents denote numbers outside the integers: a text
    that goes on with one is refused. *)
Definition integer_ends (s : string) : bool :=
  match s with
  | String c _ => negb (Ascii.eqb c "." || Ascii.eqb c "e" || Ascii.eqb c "E")
  | EmptyString => true
  end.

(** [Some rest] when [s] is [c] followed by [rest]. *)
Definition starts_with (c : ascii) (s : string) : option string :=
  match s with
  | String a rest => if Ascii.eqb a c then Some rest else None
  | EmptyString => None
  end.

Definition parse_number (s : string) : option (jsval * string) :=
  match starts_with "-" s with
  | Some rest =>
      match parse_int rest with
      | Some (n, rest') =>
          if integer_ends rest' then Some (VNum (- Z.of_N n), rest') else None
      | None => None
      end
  | None =>
      match parse_int s with
      | Some (n, rest') =>
          if integer_ends rest' then Some (VNum (Z.of_N n), rest') else None
      | None => None
      end
  end.

Definition push_char (c : ascii) (r : option (string * string)) : option (string * string) :=
  match r with
  | Some (str, rest) => Some (String c str, rest)
  | None => None
  end.

Definition hex4 (a b c d : ascii) : option N :=
  match hex_of a, hex_of b, hex_of c, hex_of d with
  | Some x, Some y, Some z, Some w => Some (((x * 16 + y) * 16 + z) * 16 + w)%N
  | _, _, _, _ => None
  end.

(** The characters of a string literal after its opening quote, up to and
    including the closing quote.  An escape that denotes a code unit above
    255 is refused. *)
Fixpoint parse_string_body (s : string) : option (string * string) :=
  match s with
  | EmptyString => None
  | String c rest =>
      if Ascii.eqb c dquote then Some (EmptyString, rest)
      else if Ascii.eqb c backslash then
        match rest with
        | EmptyString => None
        | String e rest1 =>
            if Ascii.eqb e dquote then push_char dquote (parse_string_body rest1)
            else if Ascii.eqb e backslash then push_char backslash (parse_string_body rest1)
            else if Ascii.eqb e "/"%char then push_char "/"%char (parse_string_body rest1)
            else if Ascii.eqb e "b"%char then push_char "008"%char (parse_string_body rest1)
            else if Ascii.eqb e "f"%char then push_char "012"%char (parse_string_body rest1)
            else if Ascii.eqb e "n"%char then push_char "010"%char (parse_string_body rest1)
            else if Ascii.eqb e "r"%char then push_char "013"%char (parse_string_body rest1)
            else if Ascii.eqb e "t"%char then push_char "009"%char (parse_string_body rest1)
            else if Ascii.eqb e "u"%char then
              match rest1 with
              | String h1 (String h2 (String h3 (String h4 rest2))) =>
                  match hex4 h1 h2 h3 h4 with
                  | Some code =>
                      if (code <? 256)%N
                      then push_char (ascii_of_N code) (parse_string_body rest2)
                      else None
                  | None => None
                  end
              | _ => None
              end
            else None
        end
      else if (N_of_ascii c <? 32)%N then None
      else push_char c (parse_string_body rest)
  end.

Fixpoint strip_prefix (word s : string) : option string :=
  match word with
  | EmptyString => Some s
  | String a word' =>
      match s with
      | String b s' => if Ascii.eqb a b then strip_prefix word' s' else None
      | EmptyString => None
      end
  end.

(** The rest of a literal name, and the value it denotes. *)
Definition expect (word : string) (v : jsval) (s : string) : option (jsval * string) :=
  match strip_prefix word s with
  | Some rest => Some (v, rest)
  | None => None
  end.

(** Recursive descent over the text; [fuel] bounds the nesting of calls. *)
Fixpoint parse_value (fuel : nat) (s : string) {struct fuel} : option (jsval * string) :=
  match fuel with
  | O => None
  | S fuel' =>
      match skip_ws s with
      | EmptyString => None
      | String c rest =>
          if Ascii.eqb c "n" then expect "ull" VNull rest
          else if Ascii.eqb c "t" then expect "rue" (VBool true) rest
          else if Ascii.eqb c "f" then expect "alse" (VBool false) rest
          else if Ascii.eqb c dquote then
            match parse_string_body rest with
            | Some (str, rest') => Some (VStr str, rest')
            | None => None
            end
          else if Ascii.eqb c "[" then
            match starts_with "]" (skip_ws rest) with
            | Some rest' => Some (VArr lit [], rest')
            | None =>
                match parse_elements fuel' rest with
                | Some (items, rest') => Some (VArr lit items, rest')
                | None => None
                end
            end
          else if Ascii.eqb c "{" then
            match starts_with "}" (skip_ws rest) with
            | Some rest' => Some (VObj lit [], rest')
            | None =>
                match parse_members fuel' rest with
                | Some (members, rest') =>
                    Some (VObj lit (spread [] members), rest')
                | None => None
                end
            end
          else parse_number (String c rest)
      end
  end

with parse_elements (fuel : nat) (s : string) {struct fuel}
  : option (list jsval * string) :=
  match fuel with
  | O => None
  | S fuel' =>
      match parse_value fuel' s with
      | Some (x, rest) =>
          match starts_with "," (skip_ws rest) with
          | Some rest' =>
              match parse_elements fuel' rest' with
              | Some (items, rest'') => Some (x :: items, rest'')
              | None => None
              end
          | None =>
              match starts_with "]" (skip_ws rest) with
              | Some rest' => Some ([x], rest')
              | None => None
              end
          end
      | None => None
      end
  end

with parse_members (fuel : nat) (s : string) {struct fuel}
  : option (list (string * jsval) * string) :=
  match fuel with
  | O => None
  | S fuel' =>
      match starts_with dquote (skip_ws s) with
      | Some rest =>
          match parse_string_body rest with
          | Some (key, rest1) =>
              match starts_with ":" (skip_ws rest1) with
              | Some rest2 =>
                  match parse_value fuel' rest2 with
                  | Some (x, rest3) =>
                      match starts_with "," (skip_ws rest3) with
                      | Some rest4 =>
                          match parse_members fuel' rest4 with
                          | Some (members, rest5) => Some ((key, x) :: members, rest5)
                          | None => None
                          end
                      | None =>
                          match starts_with "}" (skip_ws rest3) with
                          | Some rest4 => Some ([(key, x)], rest4)
                          | None => None
                          end
                      end
                  | None => None
                  end
              | None => None
              end
          | None => None
          end
      | None => None
      end
  end.

(** [JSON.parse(s)]: one value, and nothing but white space after it. *)
Definition JSON_parse (s : string) : option jsval :=
  match parse_value (S (String.length s)) s with
  | Some (v, rest) =>
      match skip_ws rest with
      | EmptyString => Some v
      | String _ _ => None
      end
  | None => None
  end.

(** ** What survives serialization *)

(** The value [JSON.parse] gives back for the text of [v]: [NaN] has become
    [null], an [undefined] array element has become [null], an [undefined]
    property is gone, and every array and object is a fresh one. *)
Fixpoint json_view (v : jsval) : jsval :=
  match v with
  | VNaN => VNull
  | VArr _ items =>
      VArr lit (map (fun x => match x with
                              | VUndef => VNull
                              | _ => json_view x
                              end) items)
  | VObj _ props =>
      VObj lit (omap (fun kv => match snd kv with
                                | VUndef => None
                                | _ => Some (fst kv, json_view (snd kv))
                                end) props)
  | _ => v
  end.

Fixpoint nodup_keys (keys : list string) : bool :=
  match keys with
  | [] => true
  | k :: rest => negb (existsb (String.eqb k) rest) && nodup_keys rest
  end.

(** No object lists a key twice. *)
Fixpoint well_formed (v : jsval) : bool :=
  match v with
  | VArr _ items => forallb well_formed items
  | VObj _ props =>
      nodup_keys (map fst props) && forallb (fun kv => well_formed (snd kv)) props
  | _ => true
  end.

(** Values [JSON.parse] can produce. *)
Fixpoint is_json (v : jsval) : bool :=
  match v with
  | VUndef | VNaN => false
  | VArr i items => (i =? lit)%N && forallb is_json items
  | VObj i props =>
      (i =? lit)%N && nodup_keys (map fst props)
      && forallb (fun kv => is_json (snd kv)) props
  | _ => true
  end.

(** Values that lose nothing in JSON: no [NaN], and no [undefined] as an
    array element.  (An [undefined] property reads the same as a missing
    one.) *)
Fixpoint json_exact (v : jsval) : bool :=
  match v with
  | VNaN => false
  | VArr _ items =>
      forallb (fun x => match x with
                        | VUndef => false
                        | _ => json_exact x
                        end) items
  | VObj _ props => forallb (fun kv => json_exact (snd kv)) props
  | _ => true
  end.

(** Equality of two values field by field: the same primitive, arrays of
    the same length with the same elements, objects whose every key reads
    the same value on both sides (a missing key reads [undefined]).  The
    identity of arrays and objects is not compared. *)
Fixpoint same_value (a b : jsval) {struct a} : bool :=
  match a, b with
  | VUndef, VUndef => true
  | VNull, VNull => true
  | VBool x, VBool y => Bool.eqb x y
  | VNum x, VNum y => x =? y
  | VNaN, VNaN => true
  | VStr x, VStr y => String.eqb x y
  | VArr _ xs, VArr _ ys =>
      (fix all2 (xs : list jsval) (ys : list jsval) {struct xs} : bool :=
         match xs, ys with
         | [], [] => true
         | x :: xs', y :: ys' => same_value x y && all2 xs' ys'
         | _, _ => false
         end) xs ys
  | VObj _ ps, VObj _ qs =>
      forallb (fun kv => same_value (snd kv) (get_prop (fst kv) qs)) ps
      && forallb (fun kv => has_prop (fst kv) ps
                            || match snd kv with VUndef => true | _ => false end) qs
  | _, _ => false
  end.

(** What [getLogs] returns, as one value. *)
Definition logs_value (logs : list LogEntry.t) : jsval := VArr lit (map entry_value logs).

Definition payload_ok (v : jsval) : bool := well_formed v && json_exact v.

(** The payloads of an entry are well formed and lose nothing in JSON. *)
Definition entry_ok (e : LogEntry.t) : bool :=
  payload_ok (LogEntry.data e) && payload_ok (LogEntry.context e).

(** ** Vocabulary of the statements *)

(** The five leveled methods, by the level they log at. *)
Inductive Level : Type := ERROR | WARN | INFO | DEBUG | TRACE.

Definition level_name (l : Level) : string :=
  match l with
  | ERROR => "error"
  | WARN => "warn"
  | INFO => "info"
  | DEBUG => "debug"
  | TRACE => "trace"
  end.

(** Position in [error, warn, info, debug, trace]. *)
Definition rank (l : Level) : Z :=
  match l with
  | ERROR => 0
  | WARN => 1
  | INFO => 2
  | DEBUG => 3
  | TRACE => 4
  end.

Definition leveled (l : Level) :
    Clock -> string -> string -> string -> jsval -> jsval -> State -> State :=
  match l with
  | ERROR => error
  | WARN => warn
  | INFO => info
  | DEBUG => debug
  | TRACE => trace
  end.

Definition with_logToConsole (b : bool) (c : DebugConfig.t) : DebugConfig.t :=
  DebugConfig.mk (DebugConfig.enabled c) (DebugConfig.level c)
    (DebugConfig.includeTimestamps c) (DebugConfig.includePerformance c)
    (DebugConfig.includeStackTraces c) b (DebugConfig.logToFile c)
    (DebugConfig.logFilePath c).

(** The two states read different values under [key]. *)
Definition differs (proto : jsval -> string -> jsval) (oldState newState : jsval)
    (key : string) : bool :=
  strict_neq (read proto oldState key) (read proto newState key).

(** The identifier [startTimer] mints from its readings. *)
Definition minted (operation : string) (date_now : Z) (random36 : string) : string :=
  operation +:+ "_" +:+ pretty date_now +:+ "_" +:+ random36.


(** The keys a partial configuration has, with their values. *)
Definition partial_props (p : PartialConfig.t) : list (string * jsval) :=
  opt_prop "enabled" (VBool <$> PartialConfig.enabled p)
  ++ opt_prop "level" (VStr <$> PartialConfig.level p)
  ++ opt_prop "includeTimestamps" (VBool <$> PartialConfig.includeTimestamps p)
  ++ opt_prop "includePerformance" (VBool <$> PartialConfig.includePerformance p)
  ++ opt_prop "includeStackTraces" (VBool <$> PartialConfig.includeStackTraces p)
  ++ opt_prop "logToConsole" (VBool <$> PartialConfig.logToConsole p)
  ++ opt_prop "logToFile" (VBool <$> PartialConfig.logToFile p)
  ++ opt_prop "logFilePath" (VStr <$> PartialConfig.logFilePath p).

Definition timers_on (st : State) : bool :=
  DebugConfig.enabled (config st) && DebugConfig.includePerformance (config st).

(** ** Vocabulary of the parsing proof *)

Definition no_digit_ahead (s : string) : bool :=
  match s with
  | String c _ => match digit_of c with Some _ => false | None => true end
  | EmptyString => true
  end.

Definition boundary (s : string) : bool := no_digit_ahead s && integer_ends s.

(** The first character of a number's text. *)
Definition number_head (c : ascii) : bool :=
  Ascii.eqb c "-" || is_some (digit_of c).

(** The text between the brackets, element by element: each element is
    preceded by [sepws], elements are separated by a comma, and [tail]
    follows the last one. *)
Fixpoint elements_text (sepws : string) (parts : list string) (tail : string) : string :=
  match parts with
  | [] => tail
  | [p] => sepws +:+ p +:+ tail
  | p :: rest => sepws +:+ p +:+ "," +:+ elements_text sepws rest tail
  end.

Fixpoint total (parts : list string) : nat :=
  match parts with
  | [] => 0
  | p :: rest => S (String.length p + total rest)
  end.

Definition ws_only (w : string) : Prop := forall s, skip_ws (w +:+ s) = skip_ws s.

Definition value_head (txt : string) : bool :=
  match txt with
  | String c _ => negb (is_ws c) && negb (Ascii.eqb c "]") && negb (Ascii.eqb c "}")
  | EmptyString => false
  end.

Definition sep_ws (gap indent : nat) : string :=
  if Nat.eqb gap 0 then EmptyString else nl +:+ spaces indent.

Definition keep_element (x : jsval) : jsval :=
  match x with
  | VUndef => VNull
  | _ => json_view x
  end.

Definition keep_defined (kv : string * jsval) : option (string * jsval) :=
  match snd kv with
  | VUndef => None
  | _ => Some (fst kv, json_view (snd kv))
  end.

(** The text of [x] parses back to [x], whatever follows it. *)
Definition parses_back (x : jsval) : Prop :=
  is_json x = true ->
  forall gap stepback : nat,
  exists txt : string,
    SerializeJSONProperty gap stepback x = Some txt
    /\ value_head txt = true
    /\ forall (fuel : nat) (rest : string),
         (String.length txt <= fuel)%nat ->
         boundary rest = true ->
         parse_value fuel (txt +:+ rest) = Some (x, rest).

(** ** Sample states *)

Definition clock0 : Clock := mkClock "2025-01-01T00:00:00.000Z" 1735689600000.

(** A browserless Node host without the two environment variables. *)
Definition plain_host : Host := mkHost (Some ∅) false None.

Definition level_only (l : string) : PartialConfig.t :=
  PartialConfig.mk None (Some l) None None None None None None.

(** [new DebugLogger({ level: 'warn' })]. *)
Definition warn_logger : State :=
  constructor plain_host "2025-01-01T00:00:00.000Z" clock0 (level_only "warn") [].

(** [new DebugLogger()]. *)
Definition default_logger : State :=
  constructor plain_host "2025-01-01T00:00:00.000Z" clock0 PartialConfig.empty [].

(** [new DebugLogger({ enabled: false })]. *)
Definition disabled_logger : State :=
  constructor plain_host "2025-01-01T00:00:00.000Z" clock0
    (PartialConfig.mk (Some false) None None None None None None None) [].

(** A logger that has been filled to capacity: the construction entry and
    a thousand [info] calls. *)
Definition full_logger : State :=
  run_all (repeat (CallInfo clock0 "app" "tick" "again" VUndef VUndef) 1000) default_logger.

(** A Node host started with [DIANOIA_DEBUG_LEVEL=verbose]. *)
Definition verbose_host : Host :=
  mkHost (Some {[ "DIANOIA_DEBUG_LEVEL" := "verbose" ]}) false None.

Definition verbose_logger : State :=
  constructor verbose_host "2025-01-01T00:00:00.000Z" clock0 PartialConfig.empty [].


(** [new DebugLogger()], with its configuration object. *)
Definition default_instance : Instance :=
  new_DebugLogger plain_host "2025-01-01T00:00:00.000Z" clock0 PartialConfig.empty [].

(** [{ logToConsole: false }]. *)
Definition console_off : PartialConfig.t :=
  PartialConfig.mk None None None None None (Some false) None None.

(** [logger.info('app', 'measure', 'ratio', NaN)] on the default logger. *)
Definition nan_logger : State :=
  info clock0 "app" "measure" "ratio" VNaN VUndef default_logger.

(** The lookup of the engine for keys that no prototype defines:
    nothing is found beyond the own enumerable properties. *)
Definition own_only : jsval -> string -> jsval := fun _ _ => VUndef.

(** [trackStateChange('store', 'update', {a:1, b:2}, {a:1, b:3, c:4})] on
    the default logger. *)
Definition tracked_logger : State :=
  trackStateChange own_only clock0 "store" "update"
    (VObj 1 [("a", VNum 1); ("b", VNum 2)])
    (VObj 2 [("a", VNum 1); ("b", VNum 3); ("c", VNum 4)])
    VUndef default_logger.

Definition sample_payload : jsval :=
  VObj 7 [ ("n", VNum (-42)); ("s", VStr "a b"); ("l", VArr 8 [VNum 1; VNull; VArr 9 []]);
           ("o", VObj 3 []); ("u", VUndef); ("t", VBool true) ].

(** ** Vocabulary of the further properties *)

Definition is_clearLogs (c : Call) : bool :=
  match c with
  | CallClearLogs _ => true
  | _ => false
  end.

Definition is_updateConfig (c : Call) : bool :=
  match c with
  | CallUpdateConfig _ _ => true
  | _ => false
  end.

Definition is_timer_call (c : Call) : bool :=
  match c with
  | CallStartTimer _ _ _ _ _ _ | CallEndTimer _ _ _ _ => true
  | _ => false
  end.

(** How many calls of a transcript went to [console[m]]. *)
Definition count_method (m : string) (out : list ConsoleCall) : nat :=
  length (filter (fun c => String.eqb (method c) m) out).

Definition is_nan (v : jsval) : bool :=
  match v with
  | VNaN => true
  | _ => false
  end.

Definition with_stack (s : option string) (err : JsError) : JsError :=
  mkError (error_name err) (error_message err) s.

(** The same call on an error without a stack. *)
Definition without_stack (c : Call) : Call :=
  match c with
  | CallTrackError clk err component action context =>
      CallTrackError clk (with_stack None err) component action context
  | _ => c
  end.

(** A call that does not switch [includeStackTraces] on. *)
Definition keeps_stacks_off (c : Call) : bool :=
  match c with
  | CallUpdateConfig _ p => negb (default false (PartialConfig.includeStackTraces p))
  | _ => true
  end.

(** The payload [endTimer] builds before it spreads [additionalData]. *)
Definition timer_report (metric : PerformanceMetric.t) (end_time : Z)
  : list (string * jsval) :=
  [ ("duration",
      VStr (toFixed2 (end_time - PerformanceMetric.startTime metric) +:+ "ms"));
    ("operation", VStr (PerformanceMetric.operation metric));
    ("metadata", PerformanceMetric.metadata metric) ].

(** The configuration a logger is constructed with. *)
Definition resolved_config (h : Host) (partial : PartialConfig.t) : DebugConfig.t :=
  config_from_storage h (config_from_env h (merge_config defaultConfig partial)).

Definition payloads_well_formed (e : LogEntry.t) : bool :=
  well_formed (LogEntry.data e) && well_formed (LogEntry.context e).

(** One entry's worth of console output: at most seven calls, at most
    one group, every group closed. *)
Definition one_block (out : list ConsoleCall) : bool :=
  (length out <=? 7)%nat
  && (count_method "group" out <=? 1)%nat
  && (count_method "group" out =? count_method "groupEnd" out)%nat.

(** [new DebugLogger({ includeStackTraces: false })]. *)
Definition stackless_logger : State :=
  constructor plain_host "2025-01-01T00:00:00.000Z" clock0
    (PartialConfig.mk None None None None (Some false) None None None) [].

Definition sample_error : JsError :=
  mkError "TypeError" "x is undefined" (Some "at f (app.js:1:1)").

(** A failure tracked between two other calls. *)
Definition failing_calls : list Call :=
  [ CallInfo clock0 "api" "call" "begin" VUndef VUndef;
    CallTrackError clock0 sample_error "api" "call" VUndef;
    CallUpdateConfig clock0 (level_only "trace") ].

(** The default logger with the timer [load_1735689600000_k3j9x2m1q]
    running since [1735689600000]. *)
Definition timing_logger : State :=
  fst (startTimer 1735689600000 "k3j9x2m1q" 1735689600000 clock0 "load" VUndef
         default_logger).

(** A Node host started with [DIANOIA_DEBUG=false] and
    [DIANOIA_DEBUG_LEVEL=trace]. *)
Definition silenced_host : Host :=
  mkHost (Some {[ "DIANOIA_DEBUG" := "false"; "DIANOIA_DEBUG_LEVEL" := "trace" ]})
    false None.

(** A browser whose local storage holds [dianoia_debug_enabled=true] and
    [dianoia_debug_level=verbose]. *)
Definition browser_host : Host :=
  mkHost None true
    (Some {[ "dianoia_debug_enabled" := "true"; "dianoia_debug_level" := "verbose" ]}).

(** The entry [initializeDebugMode] logs. *)
Definition init_entry (h : Host) (data_iso : string) (clk : Clock)
    (partial : PartialConfig.t) : LogEntry.t :=
  createLogEntry (mkState (resolved_config h partial) ∅ [] []) clk "debug"
    "system" "debug_init" "Debug system initialized"
    (VObj lit
       [ ("config", config_value (resolved_config h partial));
         ("environment", VStr (if isBrowserEnv h then "browser" else "node"));
         ("timestamp", VStr data_iso) ])
    VUndef.

(** An entry as [createLogEntry] makes them: no [error] field, and a
    [performance] field, if any, that holds a [duration] and nothing
    else. *)
Definition plain_entry (e : LogEntry.t) : bool :=
  negb (is_some (LogEntry.error e))
  && match LogEntry.performance e with
     | Some p => is_some (Performance.duration p) && negb (is_some (Performance.memory p))
     | None => true
     end.

(** A [console.log('Error:', ...)] call. *)
Definition is_error_line (c : ConsoleCall) : bool :=
  match args c with
  | [VStr s; _] => String.eqb (method c) "log" && String.eqb s "Error:"
  | _ => false
  end.

(** No buffered entry has an [error] field and no [Error:] line was
    printed. *)
Definition tidy (st : State) : bool :=
  forallb plain_entry (logBuffer st)
  && forallb (fun c => negb (is_error_line c)) (console st).

(** * The frontend logger (utils/debug) *)

(** What the timers need of JavaScript numbers: the readings of
    [performance.now()] are fractional, so they are kept abstract, with
    their truthiness, their subtraction and the literal [0]. *)
Class Number (num : Type) : Type := {
  num_truthy : num -> bool;
  num_sub : num -> num -> num;
  num_zero : num
}.

(** Whole numbers as numbers. *)
#[export] Instance Z_Number : Number Z := {
  num_truthy z := negb (z =? 0);
  num_sub := Z.sub;
  num_zero := 0
}.

(** [Array.prototype.slice(start)] for an integral [start]. *)
Definition slice {A : Type} (start : Z) (l : list A) : list A :=
  let len := Z.of_nat (length l) in
  let k := if start <? 0 then Z.max (len + start) 0 else Z.min start len in
  drop (Z.to_nat k) l.

Module SimpleLogger.

Record DebugLog : Type := mkLog {
  timestamp : string;
  level : string;
  category : string;
  action : string;
  message : string;
  data : jsval
}.

(** [maxLogs] is modelled for integral values. *)
Record DebugConfig : Type := mkConfig {
  enabled : bool;
  logLevel : string;
  maxLogs : Z
}.

Record PartialConfig : Type := mkPartial {
  p_enabled : option bool;
  p_logLevel : option string;
  p_maxLogs : option Z
}.

Section WithNumbers.

Context {num : Type} `{Number num}.

Record State : Type := mkState {
  logs : list DebugLog;
  config : DebugConfig;
  timers : gmap string num;
  console : list ConsoleCall
}.

(** The field initializers of the class. *)
Definition initial (out : list ConsoleCall) : State :=
  mkState [] (mkConfig true "info" 1000) ∅ out.

(** [log]: [now] is the reading of [new Date().toISOString()]. *)
Definition log (now : string) (level category action message : string)
    (data : jsval) (st : State) : State :=
  if negb (enabled (config st)) then st
  else
    let logEntry := mkLog now level category action message data in
    let pushed := logs st ++ [logEntry] in
    let kept :=
      if Z.of_nat (length pushed) >? maxLogs (config st)
      then slice (- maxLogs (config st)) pushed
      else pushed in
    let consoleMethod :=
      if String.eqb level "error" then "error"
      else if String.eqb level "warn" then "warn"
      else "log" in
    mkState kept (config st) (timers st)
      (console st
       ++ [Console consoleMethod
             [ VStr ("[" +:+ category +:+ "] " +:+ action +:+ ": " +:+ message);
               if truthy data then data else VStr EmptyString ]]).

Definition info (now : string) (category action message : string) (data : jsval)
    (st : State) : State :=
  log now "info" category action message data st.

Definition warn (now : string) (category action message : string) (data : jsval)
    (st : State) : State :=
  log now "warn" category action message data st.

Definition error (now : string) (category action message : string) (data : jsval)
    (st : State) : State :=
  log now "error" category action message data st.

Definition trace (now : string) (category action message : string) (data : jsval)
    (st : State) : State :=
  log now "trace" category action message data st.

Definition trackError (now : string) (err : JsError) (category action : string)
    (st : State) : State :=
  log now "error" category action (error_message err)
    (VObj lit
       [ ("stack", default VUndef (VStr <$> error_stack err));
         ("name", VStr (error_name err)) ])
    st.

Definition getLogs (st : State) : list DebugLog := logs st.

Definition clearLogs (st : State) : State :=
  mkState [] (config st) (timers st) (console st).

Definition getConfig (st : State) : DebugConfig := config st.

Definition updateConfig (newConfig : PartialConfig) (st : State) : State :=
  mkState (logs st)
    (mkConfig (default (enabled (config st)) (p_enabled newConfig))
       (default (logLevel (config st)) (p_logLevel newConfig))
       (default (maxLogs (config st)) (p_maxLogs newConfig)))
    (timers st) (console st).

Definition log_value (l : DebugLog) : jsval :=
  VObj lit
    [ ("timestamp", VStr (timestamp l)); ("level", VStr (level l));
      ("category", VStr (category l)); ("action", VStr (action l));
      ("message", VStr (message l)); ("data", data l) ].

Definition exportLogs (st : State) : string :=
  default EmptyString (JSON_stringify 2 (VArr lit (map log_value (logs st)))).

Definition setEnabled (b : bool) (st : State) : State :=
  mkState (logs st) (mkConfig b (logLevel (config st)) (maxLogs (config st)))
    (timers st) (console st).

(** [startTimer]: [now] is the reading of [performance.now()]. *)
Definition startTimer (now : num) (name : string) (st : State) : State :=
  mkState (logs st) (config st) (<[name := now]> (timers st)) (console st).

(** [endTimer]: [now] is the reading of [performance.now()], which is
    taken only when the timer is found. *)
Definition endTimer (now : num) (name : string) (st : State) : State * num :=
  match timers st !! name with
  | Some startTime =>
      if num_truthy startTime
      then
        let duration := num_sub now startTime in
        (mkState (logs st) (config st) (delete name (timers st)) (console st), duration)
      else (st, num_zero)
  | None => (st, num_zero)
  end.

(** [status] is modelled for integral values. *)
Definition trackAPIRequest (now : string) (method url : string) (data : jsval)
    (st : State) : State :=
  info now "api" "request" (method +:+ " " +:+ url) data st.

Definition trackAPIResponse (now : string) (method url : string) (status : Z)
    (data : jsval) (st : State) : State :=
  info now "api" "response" (method +:+ " " +:+ url +:+ " - " +:+ pretty status) data st.

(** The logging methods of the public interface, with their arguments. *)
Inductive LogCall : Type :=
| CallInfo (now category action message : string) (data : jsval)
| CallWarn (now category action message : string) (data : jsval)
| CallError (now category action message : string) (data : jsval)
| CallTrace (now category action message : string) (data : jsval)
| CallTrackError (now : string) (err : JsError) (category action : string)
| CallTrackAPIRequest (now method url : string) (data : jsval)
| CallTrackAPIResponse (now method url : string) (status : Z) (data : jsval).

Definition run (c : LogCall) (st : State) : State :=
  match c with
  | CallInfo now ca ac me da => info now ca ac me da st
  | CallWarn now ca ac me da => warn now ca ac me da st
  | CallError now ca ac me da => error now ca ac me da st
  | CallTrace now ca ac me da => trace now ca ac me da st
  | CallTrackError now err ca ac => trackError now err ca ac st
  | CallTrackAPIRequest now me url da => trackAPIRequest now me url da st
  | CallTrackAPIResponse now me url status da => trackAPIResponse now me url status da st
  end.

(** The entry a logging call makes. *)
Definition entry_of (c : LogCall) : DebugLog :=
  match c with
  | CallInfo now ca ac me da => mkLog now "info" ca ac me da
  | CallWarn now ca ac me da => mkLog now "warn" ca ac me da
  | CallError now ca ac me da => mkLog now "error" ca ac me da
  | CallTrace now ca ac me da => mkLog now "trace" ca ac me da
  | CallTrackError now err ca ac =>
      mkLog now "error" ca ac (error_message err)
        (VObj lit
           [ ("stack", default VUndef (VStr <$> error_stack err));
             ("name", VStr (error_name err)) ])
  | CallTrackAPIRequest now me url da =>
      mkLog now "info" "api" "request" (me +:+ " " +:+ url) da
  | CallTrackAPIResponse now me url status da =>
      mkLog now "info" "api" "response"
        (me +:+ " " +:+ url +:+ " - " +:+ pretty status) da
  end.

Definition with_logLevel (l : string) (st : State) : State :=
  mkState (logs st) (mkConfig (enabled (config st)) l (maxLogs (config st)))
    (timers st) (console st).

End WithNumbers.

Arguments State num : clear implicits.

End SimpleLogger.

(** ** Sample states of the frontend logger *)

(** Three entries in the buffer, then [updateConfig({ maxLogs: 2 })]. *)
Definition cramped_frontend : SimpleLogger.State Z :=
  SimpleLogger.updateConfig (SimpleLogger.mkPartial None None (Some 2))
    (SimpleLogger.info "2025-01-01T00:00:03.000Z" "app" "tick" "three" VNaN
       (SimpleLogger.info "2025-01-01T00:00:02.000Z" "app" "tick" "two" VUndef
          (SimpleLogger.warn "2025-01-01T00:00:01.000Z" "app" "tick" "one" (VNum 1)
             (SimpleLogger.initial [])))).

(** [updateConfig({ maxLogs: 0 })] on the initial logger. *)
Definition unbounded_frontend : SimpleLogger.State Z :=
  SimpleLogger.updateConfig (SimpleLogger.mkPartial None None (Some 0))
    (SimpleLogger.initial []).

Definition sample_trace : SimpleLogger.LogCall :=
  SimpleLogger.CallTrace "2025-01-01T00:00:04.000Z" "app" "tick" "four" VUndef.

(** * The LLM service (services/llmService) *)

(** How an evaluation ends: with a value, or with a thrown [Error]. *)
Inductive Completion (A : Type) : Type :=
| Normal (a : A)
| Throw (e : JsError).

Arguments Normal {A} a.
Arguments Throw {A} e.

Module LLMService.

Record LLMConfig : Type := mkLLMConfig {
  provider : string;
  apiKey : string;
  model : option string
}.

(** The module-level [sessionKeys] map and the shared logger [debug]. *)
Record World : Type := mkWorld {
  sessionKeys : gmap string LLMConfig;
  debug : State
}.

Definition setSessionKey (clk1 clk2 : Clock) (sessionId : string) (config : LLMConfig)
    (w : World) : World :=
  let debug1 :=
    info clk1 "llm_service" "session_key_set" "Setting session API key"
      (VObj lit
         [ ("sessionId", VStr sessionId);
           ("provider", VStr (provider config));
           ("model", default VUndef (VStr <$> model config));
           ("hasApiKey", VBool (truthy (VStr (apiKey config)))) ])
      VUndef (debug w) in
  let sessionKeys1 := <[sessionId := config]> (sessionKeys w) in
  let debug2 :=
    trace clk2 "llm_service" "session_keys_count" "Current session keys count"
      (VObj lit [("count", VNum (Z.of_nat (size sessionKeys1)))])
      VUndef debug1 in
  mkWorld sessionKeys1 debug2.

Definition getSessionKey (clk : Clock) (sessionId : string) (w : World)
  : World * option LLMConfig :=
  let config := sessionKeys w !! sessionId in
  let debug1 :=
    trace clk "llm_service" "session_key_retrieved" "Retrieved session key"
      (VObj lit
         [ ("sessionId", VStr sessionId);
           ("found", VBool (is_some config));
           ("provider", default VUndef (VStr <$> (provider <$> config))) ])
      VUndef (debug w) in
  (mkWorld (sessionKeys w) debug1, config).

Definition baseInstruction : string :=
  "You are a clear and concise reasoning assistant. Given a claim, generate a *single, concise* new claim as a response. Do not add any preamble or explanation. Just provide the text of the new claim.".

(** The three templates share their shape. *)
Definition template (task closing claim : string) : string :=
  baseInstruction +:+ nl +:+ nl +:+ task +:+ nl
    +:+ String dquote claim +:+ String dquote EmptyString +:+ nl +:+ nl +:+ closing.

(** [getPromptTemplate]: [stack] is the stack the engine gives the
    [Error] it throws; [clk2] the readings of the second logger call,
    which is [error] for an unknown action and [trace] otherwise. *)
Definition getPromptTemplate (clk1 clk2 : Clock) (stack : option string)
    (action claim : string) (st : State) : State * Completion string :=
  let st1 :=
    trace clk1 "llm_service" "prompt_generation" "Generating prompt template"
      (VObj lit
         [ ("action", VStr action);
           ("claimLength", VNum (Z.of_nat (String.length claim))) ])
      VUndef st in
  let generated (prompt : string) : State * Completion string :=
    (trace clk2 "llm_service" "prompt_generated" "Prompt template generated"
       (VObj lit
          [ ("action", VStr action);
            ("promptLength", VNum (Z.of_nat (String.length prompt))) ])
       VUndef st1,
     Normal prompt) in
  if String.eqb action "supports"
  then generated (template "Here is the claim to support:"
                    "Your concise supporting claim:" claim)
  else if String.eqb action "refutes"
  then generated (template "Here is the claim to refute:"
                    "Your concise refuting claim:" claim)
  else if String.eqb action "unpacks"
  then generated (template "Here is the claim to analyze:"
                    "Identify and state a key underlying assumption of this claim:" claim)
  else
    (error clk2 "llm_service" "unknown_action" "Unknown action provided"
       (VObj lit [("action", VStr action)]) VUndef st1,
     Throw (mkError "Error" ("Unknown action: " +:+ action) stack)).

End LLMService.

(** A session configuration with the key replaced. *)
Definition with_apiKey (k : string) (c : LLMService.LLMConfig) : LLMService.LLMConfig :=
  LLMService.mkLLMConfig (LLMService.provider c) k (LLMService.model c).

Definition is_normal {A : Type} (c : Completion A) : bool :=
  match c with
  | Normal _ => true
  | Throw _ => false
  end.

Definition sample_session : LLMService.LLMConfig :=
  LLMService.mkLLMConfig "openai" "sk-secret" (Some "gpt-4").

Definition empty_service : LLMService.World := LLMService.mkWorld ∅ default_logger.

(** * The graph store (store/useStore) *)

#[export] Instance Completion_ret : MRet Completion := fun A a => Normal a.

#[export] Instance Completion_bind : MBind Completion :=
  fun A B f c =>
    match c with
    | Normal a => f a
    | Throw e => Throw e
    end.

Module Store.

(** The data of the store; the actions are the functions below. *)
Record ArgumentStore : Type := mkStore {
  nodes : jsval;
  edges : jsval;
  selectedNode : jsval;
  isLoading : bool
}.

Definition with_nodes (v : jsval) (s : ArgumentStore) : ArgumentStore :=
  mkStore v (edges s) (selectedNode s) (isLoading s).

Definition with_edges (v : jsval) (s : ArgumentStore) : ArgumentStore :=
  mkStore (nodes s) v (selectedNode s) (isLoading s).

Definition storage_key : string := "dianoia-graph".

Section WithEngine.

Context {num : Type}.

(** The [TypeError] the engine throws when [key] is read from, called on
    or iterated over a value that does not allow it, and the
    [SyntaxError] [JSON.parse] throws on a text. *)
Variable engine_TypeError : jsval -> string -> JsError.
Variable engine_SyntaxError : string -> JsError.

(** The store, [localStorage] and the frontend logger [debug], whose
    state holds the console. *)
Record World : Type := mkWorld {
  state : ArgumentStore;
  localStorage : gmap string string;
  debug : SimpleLogger.State num
}.

Definition with_debug (d : SimpleLogger.State num) (w : World) : World :=
  mkWorld (state w) (localStorage w) d.

(** [v.key], for a key that no prototype defines, or [length]. *)
Definition member (v : jsval) (key : string) : Completion jsval :=
  match v with
  | VUndef | VNull => Throw (engine_TypeError v key)
  | VArr _ items =>
      Normal (if String.eqb key "length" then VNum (Z.of_nat (length items)) else get v key)
  | VStr s =>
      Normal (if String.eqb key "length" then VNum (Z.of_nat (String.length s)) else get v key)
  | _ => Normal (get v key)
  end.

(** [[...v]]: arrays and strings are the iterable values. *)
Definition iterate (v : jsval) : Completion (list jsval) :=
  match v with
  | VArr _ items => Normal items
  | VStr s => Normal (map snd (char_props_from 0 s))
  | _ => Throw (engine_TypeError v "Symbol.iterator")
  end.

(** The elements of [v] for a call [v.method(...)] of an array method. *)
Definition array_items (method : string) (v : jsval) : Completion (list jsval) :=
  match v with
  | VArr _ items => Normal items
  | _ => Throw (engine_TypeError v method)
  end.

(** [items.map(n => n.id)]. *)
Fixpoint map_ids (items : list jsval) : Completion (list jsval) :=
  match items with
  | [] => Normal []
  | n :: rest =>
      id ← member n "id";
      ids ← map_ids rest;
      Normal (id :: ids)
  end.

(** [items.find(node => node.id === nodeId)]. *)
Fixpoint find_by_id (nodeId : string) (items : list jsval) : Completion jsval :=
  match items with
  | [] => Normal VUndef
  | node :: rest =>
      id ← member node "id";
      if strict_eq id (VStr nodeId) then Normal node else find_by_id nodeId rest
  end.

(** [{ ...node, data: { ...node.data, label } }]. *)
Definition relabel (label : string) (node : jsval) : Completion jsval :=
  data ← member node "data";
  Normal (VObj lit
            (set_prop "data" (VObj lit (set_prop "label" (VStr label) (own_props data)))
               (own_props node))).

(** [items.map(node => node.id === nodeId ? { ... } : node)]. *)
Fixpoint map_relabel (nodeId label : string) (items : list jsval)
  : Completion (list jsval) :=
  match items with
  | [] => Normal []
  | node :: rest =>
      id ← member node "id";
      node' ← (if strict_eq id (VStr nodeId) then relabel label node else Normal node);
      rest' ← map_relabel nodeId label rest;
      Normal (node' :: rest')
  end.

(** [JSON.stringify({ nodes, edges })]. *)
Definition graph_text (nodes edges : jsval) : string :=
  default EmptyString (JSON_stringify 0 (VObj lit [("nodes", nodes); ("edges", edges)])).

(** The [try] block of the actions: [setItem_error] is the error
    [localStorage.setItem] throws, if it throws; [now] the timestamp of
    the logger call made in either branch. *)
Definition persist (setItem_error : option JsError) (now : string) (text : string)
    (message : string) (data : jsval) (w : World) : World :=
  match setItem_error with
  | None =>
      mkWorld (state w) (<[storage_key := text]> (localStorage w))
        (SimpleLogger.trace now "store" "localStorage_save" message data (debug w))
  | Some error =>
      with_debug
        (SimpleLogger.trackError now error "store" "localStorage_save_error" (debug w)) w
  end.

(** An action ends by returning or by throwing; the world it leaves is
    given in both cases. *)
Definition finish (w : World) (c : Completion World) : World * option JsError :=
  match c with
  | Normal w' => (w', None)
  | Throw e => (w, Some e)
  end.

Definition addNode (t1 t2 t3 : string) (setItem_error : option JsError) (node : jsval)
    (w : World) : World * option JsError :=
  match (nodeId ← member node "id";
         data ← member node "data";
         nodeLabel ← member data "label";
         nodeAuthor ← member data "author";
         count ← member (nodes (state w)) "length";
         Normal [ ("nodeId", nodeId); ("nodeLabel", nodeLabel);
                  ("nodeAuthor", nodeAuthor); ("currentNodesCount", count) ]) with
  | Throw e => (w, Some e)
  | Normal payload =>
      let w1 :=
        with_debug
          (SimpleLogger.info t1 "store" "add_node" "Adding new node to store"
             (VObj lit payload) (debug w)) w in
      finish w1
        (items ← iterate (nodes (state w1));
         let newNodes := VArr lit (items ++ [node]) in
         nodeId ← member node "id";
         oldCount ← member (nodes (state w1)) "length";
         newCount ← member newNodes "length";
         let w2 :=
           with_debug
             (SimpleLogger.info t2 "store" "state_change" "State changed after adding node"
                (VObj lit [ ("nodeId", nodeId); ("action", VStr "addNode");
                            ("oldNodesCount", oldCount); ("newNodesCount", newCount) ])
                (debug w1)) w1 in
         let w3 :=
           persist setItem_error t3 (graph_text newNodes (edges (state w2)))
             "Saved to localStorage after adding node"
             (VObj lit [("nodeId", nodeId); ("totalNodes", newCount)]) w2 in
         Normal (mkWorld (with_nodes newNodes (state w3)) (localStorage w3) (debug w3)))
  end.

Definition addEdge (t1 t2 t3 : string) (setItem_error : option JsError) (edge : jsval)
    (w : World) : World * option JsError :=
  match (edgeId ← member edge "id";
         sourceId ← member edge "source";
         targetId ← member edge "target";
         data ← member edge "data";
         relation ← member data "relation";
         count ← member (edges (state w)) "length";
         Normal [ ("edgeId", edgeId); ("sourceId", sourceId); ("targetId", targetId);
                  ("relation", relation); ("currentEdgesCount", count) ]) with
  | Throw e => (w, Some e)
  | Normal payload =>
      let w1 :=
        with_debug
          (SimpleLogger.info t1 "store" "add_edge" "Adding new edge to store"
             (VObj lit payload) (debug w)) w in
      finish w1
        (items ← iterate (edges (state w1));
         let newEdges := VArr lit (items ++ [edge]) in
         edgeId ← member edge "id";
         oldCount ← member (edges (state w1)) "length";
         newCount ← member newEdges "length";
         let w2 :=
           with_debug
             (SimpleLogger.info t2 "store" "state_change" "State changed after adding edge"
                (VObj lit [ ("edgeId", edgeId); ("action", VStr "addEdge");
                            ("oldEdgesCount", oldCount); ("newEdgesCount", newCount) ])
                (debug w1)) w1 in
         let w3 :=
           persist setItem_error t3 (graph_text (nodes (state w2)) newEdges)
             "Saved to localStorage after adding edge"
             (VObj lit [("edgeId", edgeId); ("totalEdges", newCount)]) w2 in
         Normal (mkWorld (with_edges newEdges (state w3)) (localStorage w3) (debug w3)))
  end.

Definition updateNodeLabel (t1 t2 t3 : string) (setItem_error : option JsError)
    (nodeId label : string) (w : World) : World * option JsError :=
  match (count ← member (nodes (state w)) "length";
         Normal [ ("nodeId", VStr nodeId); ("newLabel", VStr label);
                  ("currentNodesCount", count) ]) with
  | Throw e => (w, Some e)
  | Normal payload =>
      let w1 :=
        with_debug
          (SimpleLogger.info t1 "store" "update_node_label" "Updating node label"
             (VObj lit payload) (debug w)) w in
      finish w1
        (items ← array_items "find" (nodes (state w1));
         oldNode ← find_by_id nodeId items;
         items' ← map_relabel nodeId label items;
         let newNodes := VArr lit items' in
         oldLabel ← (match oldNode with
                     | VUndef | VNull => Normal VUndef
                     | _ => data ← member oldNode "data"; member data "label"
                     end);
         let w2 :=
           with_debug
             (SimpleLogger.info t2 "store" "state_change"
                "State changed after updating node label"
                (VObj lit [ ("nodeId", VStr nodeId); ("oldLabel", oldLabel);
                            ("newLabel", VStr label); ("action", VStr "updateNodeLabel") ])
                (debug w1)) w1 in
         let w3 :=
           persist setItem_error t3 (graph_text newNodes (edges (state w2)))
             "Saved to localStorage after updating node label"
             (VObj lit [("nodeId", VStr nodeId); ("newLabel", VStr label)]) w2 in
         Normal (mkWorld (with_nodes newNodes (state w3)) (localStorage w3) (debug w3)))
  end.

Definition setNodes (t1 t2 t3 : string) (setItem_error : option JsError) (newNodes : jsval)
    (w : World) : World * option JsError :=
  match (count ← member newNodes "length";
         items ← array_items "map" newNodes;
         ids ← map_ids items;
         Normal [("nodesCount", count); ("nodeIds", VArr lit ids)]) with
  | Throw e => (w, Some e)
  | Normal payload =>
      let w1 :=
        with_debug
          (SimpleLogger.info t1 "store" "set_nodes" "Setting nodes array"
             (VObj lit payload) (debug w)) w in
      finish w1
        (oldCount ← member (nodes (state w1)) "length";
         newCount ← member newNodes "length";
         let w2 :=
           with_debug
             (SimpleLogger.info t2 "store" "state_change" "State changed after setting nodes"
                (VObj lit [ ("oldNodesCount", oldCount); ("newNodesCount", newCount);
                            ("action", VStr "setNodes") ])
                (debug w1)) w1 in
         let w3 :=
           persist setItem_error t3 (graph_text newNodes (edges (state w2)))
             "Saved to localStorage after setting nodes"
             (VObj lit [("nodesCount", newCount)]) w2 in
         Normal (mkWorld (with_nodes newNodes (state w3)) (localStorage w3) (debug w3)))
  end.

Definition setEdges (t1 t2 t3 : string) (setItem_error : option JsError) (newEdges : jsval)
    (w : World) : World * option JsError :=
  match (count ← member newEdges "length";
         items ← array_items "map" newEdges;
         ids ← map_ids items;
         Normal [("edgesCount", count); ("edgeIds", VArr lit ids)]) with
  | Throw e => (w, Some e)
  | Normal payload =>
      let w1 :=
        with_debug
          (SimpleLogger.info t1 "store" "set_edges" "Setting edges array"
             (VObj lit payload) (debug w)) w in
      finish w1
        (oldCount ← member (edges (state w1)) "length";
         newCount ← member newEdges "length";
         let w2 :=
           with_debug
             (SimpleLogger.info t2 "store" "state_change" "State changed after setting edges"
                (VObj lit [ ("oldEdgesCount", oldCount); ("newEdgesCount", newCount);
                            ("action", VStr "setEdges") ])
                (debug w1)) w1 in
         let w3 :=
           persist setItem_error t3 (graph_text (nodes (state w2)) newEdges)
             "Saved to localStorage after setting edges"
             (VObj lit [("edgesCount", newCount)]) w2 in
         Normal (mkWorld (with_edges newEdges (state w3)) (localStorage w3) (debug w3)))
  end.

Definition saveToLocalStorage (t1 t2 : string) (setItem_error : option JsError)
    (w : World) : World * option JsError :=
  match (nodesCount ← member (nodes (state w)) "length";
         edgesCount ← member (edges (state w)) "length";
         Normal [("nodesCount", nodesCount); ("edgesCount", edgesCount)]) with
  | Throw e => (w, Some e)
  | Normal payload =>
      let w1 :=
        with_debug
          (SimpleLogger.info t1 "store" "manual_save" "Manually saving to localStorage"
             (VObj lit payload) (debug w)) w in
      match setItem_error with
      | None =>
          (mkWorld (state w1)
             (<[storage_key := graph_text (nodes (state w1)) (edges (state w1))]>
                (localStorage w1))
             (SimpleLogger.info t2 "store" "manual_save_success"
                "Manual save to localStorage successful" VUndef (debug w1)),
           None)
      | Some error =>
          (with_debug
             (SimpleLogger.trackError t2 error "store" "manual_save_error" (debug w1)) w1,
           None)
      end
  end.

(** An [Error] as the console shows it. *)
Definition thrown_value (e : JsError) : jsval :=
  VObj lit
    [ ("name", VStr (error_name e)); ("message", VStr (error_message e));
      ("stack", default VUndef (VStr <$> error_stack e)) ].

(** [console.error(...args)] on the console the logger writes to. *)
Definition console_error (args : list jsval) (d : SimpleLogger.State num)
  : SimpleLogger.State num :=
  SimpleLogger.mkState (SimpleLogger.logs d) (SimpleLogger.config d)
    (SimpleLogger.timers d) (SimpleLogger.console d ++ [Console "error" args]).

(** [JSON.parse(saved)]; a text outside the modelled fragment of JSON is
    treated like a malformed one. *)
Definition parse (saved : string) : Completion jsval :=
  match JSON_parse saved with
  | Some v => Normal v
  | None => Throw (engine_SyntaxError saved)
  end.

Definition or_empty (v : jsval) : jsval := if truthy v then v else VArr lit [].

Definition loadFromLocalStorage (t1 t2 : string) (w : World) : World * option JsError :=
  let w1 :=
    with_debug
      (SimpleLogger.info t1 "store" "load_from_storage" "Loading state from localStorage"
         VUndef (debug w)) w in
  match localStorage w1 !! storage_key with
  | Some saved =>
      if truthy (VStr saved)
      then
        match (parsed ← parse saved;
               loadedNodes ← member parsed "nodes";
               loadedEdges ← member parsed "edges";
               let newNodes := or_empty loadedNodes in
               let newEdges := or_empty loadedEdges in
               nodesCount ← member newNodes "length";
               edgesCount ← member newEdges "length";
               Normal (newNodes, newEdges, nodesCount, edgesCount)) with
        | Normal (newNodes, newEdges, nodesCount, edgesCount) =>
            (mkWorld (with_edges newEdges (with_nodes newNodes (state w1)))
               (localStorage w1)
               (SimpleLogger.info t2 "store" "load_success"
                  "Successfully loaded from localStorage"
                  (VObj lit [("nodesCount", nodesCount); ("edgesCount", edgesCount)])
                  (debug w1)),
             None)
        | Throw error =>
            (with_debug
               (console_error [VStr "Error loading from localStorage:"; thrown_value error]
                  (SimpleLogger.trackError t2 error "store" "load_error" (debug w1))) w1,
             None)
        end
      else
        (with_debug
           (SimpleLogger.info t2 "store" "load_no_data"
              "No saved data found in localStorage" VUndef (debug w1)) w1,
         None)
  | None =>
      (with_debug
         (SimpleLogger.info t2 "store" "load_no_data"
            "No saved data found in localStorage" VUndef (debug w1)) w1,
       None)
  end.

(** The actions on the graph, with their arguments. *)
Inductive Action : Type :=
| AddNode (node : jsval)
| AddEdge (edge : jsval)
| UpdateNodeLabel (nodeId label : string)
| SetNodes (nodes : jsval)
| SetEdges (edges : jsval)
| SaveToLocalStorage.

Definition run (t1 t2 t3 : string) (setItem_error : option JsError) (a : Action)
    (w : World) : World * option JsError :=
  match a with
  | AddNode node => addNode t1 t2 t3 setItem_error node w
  | AddEdge edge => addEdge t1 t2 t3 setItem_error edge w
  | UpdateNodeLabel nodeId label => updateNodeLabel t1 t2 t3 setItem_error nodeId label w
  | SetNodes v => setNodes t1 t2 t3 setItem_error v w
  | SetEdges v => setEdges t1 t2 t3 setItem_error v w
  | SaveToLocalStorage => saveToLocalStorage t1 t2 setItem_error w
  end.

(** What is stored is the graph of the store. *)
Definition in_sync (w : World) : Prop :=
  localStorage w !! storage_key
  = Some (graph_text (nodes (state w)) (edges (state w))).

End WithEngine.

Arguments World num : clear implicits.

End Store.

(** ** Vocabulary and samples of the store *)

(** A node as the application makes them: an object whose [data] is an
    object. *)
Definition is_node (n : jsval) : bool :=
  match n with
  | VObj _ props =>
      match get_prop "data" props with
      | VObj _ _ => true
      | _ => false
      end
  | _ => false
  end.

Definition has_id (nodeId : string) (n : jsval) : bool :=
  strict_eq (get n "id") (VStr nodeId).

(** A node as [handleAddInitialClaim] makes it; [tag] and the two
    identities after it are those of the node, its position and its
    data. *)
Definition sample_node (tag : N) (id label : string) : jsval :=
  VObj tag
    [ ("id", VStr id); ("type", VStr "argumentNode");
      ("position", VObj (tag + 1) [("x", VNum 400); ("y", VNum 200)]);
      ("data", VObj (tag + 2) [("label", VStr label); ("author", VStr "user")]) ].

Definition no_TypeError (v : jsval) (key : string) : JsError :=
  mkError "TypeError" ("Cannot read properties (reading '" +:+ key +:+ "')") None.

Definition no_SyntaxError (text : string) : JsError :=
  mkError "SyntaxError" "Unexpected token" None.

Definition sample_nodes : list jsval :=
  [sample_node 21 "n1" "All men are mortal"; sample_node 31 "n2" "So?"].

(** A store with two nodes and no edge, nothing saved yet. *)
Definition sample_world : Store.World Z :=
  Store.mkWorld (Store.mkStore (VArr 20 sample_nodes) (VArr 24 []) VNull false)
    ∅ (SimpleLogger.initial []).

(** The same after [saveToLocalStorage]. *)
Definition saved_world : Store.World Z :=
  fst (Store.saveToLocalStorage no_TypeError "2025-01-01T00:00:01.000Z"
         "2025-01-01T00:00:02.000Z" None sample_world).

(** * Properties *)

(** ** Level filter *)

Lemma rank_indexOf (l : Level) : indexOf levels (level_name l) = rank l.
Proof. destruct l; reflexivity. Qed.

Lemma indexOf_from_absent (x : string) (l : list string) (i : Z) :
  existsb (String.eqb x) l = false -> indexOf_from i x l = -1.
Proof.
  revert i. induction l as [|y l IH]; intros i H; simpl in *; [reflexivity|].
  apply orb_false_iff in H as [Hxy Hl].
  rewrite String.eqb_sym, Hxy. apply IH, Hl.
Qed.

Lemma shouldLog_rank (st : State) (cl l : Level) :
  DebugConfig.level (config st) = level_name cl ->
  shouldLog st (level_name l) = DebugConfig.enabled (config st) && (rank l <=? rank cl).
Proof.
  intros Hl. unfold shouldLog. rewrite Hl, !rank_indexOf.
  destruct (DebugConfig.enabled (config st)); reflexivity.
Qed.

Lemma shouldLog_unknown_level (st : State) (l : Level) :
  existsb (String.eqb (DebugConfig.level (config st))) levels = false ->
  shouldLog st (level_name l) = false.
Proof.
  intros H. unfold shouldLog.
  destruct (DebugConfig.enabled (config st)); simpl; [|reflexivity].
  unfold indexOf. rewrite (indexOf_from_absent _ _ _ H).
  destruct l; reflexivity.
Qed.

(** ** [outputLog] and the leveled methods *)

Lemma outputLog_reject (e : LogEntry.t) (st : State) :
  shouldLog st (LogEntry.level e) = false -> outputLog e st = st.
Proof. intros H. unfold outputLog. rewrite H. reflexivity. Qed.

Lemma logBuffer_outputLog (e : LogEntry.t) (st : State) :
  logBuffer (outputLog e st) =
  if shouldLog st (LogEntry.level e) then push_bounded e (logBuffer st) else logBuffer st.
Proof. unfold outputLog. destruct (shouldLog st (LogEntry.level e)); reflexivity. Qed.

Lemma console_outputLog (e : LogEntry.t) (st : State) :
  console (outputLog e st) =
  if shouldLog st (LogEntry.level e) && DebugConfig.logToConsole (config st)
  then console st ++ console_calls (formatLogEntry st e) e
  else console st.
Proof.
  unfold outputLog. destruct (shouldLog st (LogEntry.level e)); [|reflexivity].
  destruct (DebugConfig.logToConsole (config st)); reflexivity.
Qed.

Lemma config_outputLog (e : LogEntry.t) (st : State) : config (outputLog e st) = config st.
Proof. unfold outputLog. destruct (negb _); reflexivity. Qed.

Lemma performanceMetrics_outputLog (e : LogEntry.t) (st : State) :
  performanceMetrics (outputLog e st) = performanceMetrics st.
Proof. unfold outputLog. destruct (negb _); reflexivity. Qed.

Lemma level_createLogEntry st clk lv co ac me da cx :
  LogEntry.level (createLogEntry st clk lv co ac me da cx) = lv.
Proof. unfold createLogEntry. destruct (DebugConfig.includePerformance _); reflexivity. Qed.

Lemma data_createLogEntry st clk lv co ac me da cx :
  LogEntry.data (createLogEntry st clk lv co ac me da cx) = da.
Proof. unfold createLogEntry. destruct (DebugConfig.includePerformance _); reflexivity. Qed.

Lemma leveled_outputLog l clk co ac me da cx st :
  leveled l clk co ac me da cx st =
  outputLog (createLogEntry st clk (level_name l) co ac me da cx) st.
Proof. destruct l; reflexivity. Qed.

Lemma logBuffer_leveled l clk co ac me da cx st :
  logBuffer (leveled l clk co ac me da cx st) =
  if shouldLog st (level_name l)
  then push_bounded (createLogEntry st clk (level_name l) co ac me da cx) (logBuffer st)
  else logBuffer st.
Proof. rewrite leveled_outputLog, logBuffer_outputLog, level_createLogEntry. reflexivity. Qed.

Lemma config_leveled l clk co ac me da cx st :
  config (leveled l clk co ac me da cx st) = config st.
Proof. rewrite leveled_outputLog. apply config_outputLog. Qed.

Lemma performanceMetrics_leveled l clk co ac me da cx st :
  performanceMetrics (leveled l clk co ac me da cx st) = performanceMetrics st.
Proof. rewrite leveled_outputLog. apply performanceMetrics_outputLog. Qed.

Lemma leveled_reject l clk co ac me da cx st :
  shouldLog st (level_name l) = false -> leveled l clk co ac me da cx st = st.
Proof.
  intros H. rewrite leveled_outputLog. apply outputLog_reject.
  rewrite level_createLogEntry. exact H.
Qed.

(** ** The bounded buffer *)

Lemma length_push_bounded (e : LogEntry.t) (buffer : list LogEntry.t) :
  (length buffer <= maxBufferSize)%nat ->
  (length (push_bounded e buffer) <= maxBufferSize)%nat.
Proof.
  intros H. unfold push_bounded.
  destruct (Nat.ltb_spec maxBufferSize (length (buffer ++ [e]))) as [Hlt|Hge].
  - rewrite length_app in Hlt. simpl in Hlt.
    destruct buffer as [|x buffer]; simpl in *; [lia|].
    rewrite length_app. simpl. lia.
  - exact Hge.
Qed.

Lemma push_bounded_below (e : LogEntry.t) (buffer : list LogEntry.t) :
  (length buffer < maxBufferSize)%nat -> push_bounded e buffer = buffer ++ [e].
Proof.
  intros H. unfold push_bounded.
  destruct (Nat.ltb_spec maxBufferSize (length (buffer ++ [e]))) as [Hlt|Hge]; [|reflexivity].
  rewrite length_app in Hlt. simpl in Hlt. lia.
Qed.

Lemma push_bounded_full (e : LogEntry.t) (buffer : list LogEntry.t) :
  length buffer = maxBufferSize -> push_bounded e buffer = tail buffer ++ [e].
Proof.
  intros H. unfold push_bounded.
  destruct (Nat.ltb_spec maxBufferSize (length (buffer ++ [e]))) as [Hlt|Hge].
  - destruct buffer as [|x buffer]; [discriminate H | reflexivity].
  - rewrite length_app in Hge. simpl in Hge. lia.
Qed.

Lemma last_push_bounded (e : LogEntry.t) (buffer : list LogEntry.t) :
  last (push_bounded e buffer) = Some e.
Proof.
  unfold push_bounded.
  destruct (Nat.ltb_spec maxBufferSize (length (buffer ++ [e]))) as [Hlt|Hge].
  - destruct buffer as [|x buffer].
    + simpl in Hlt. unfold maxBufferSize in Hlt. lia.
    + simpl. apply last_snoc.
  - apply last_snoc.
Qed.

Lemma length_outputLog (e : LogEntry.t) (st : State) :
  (length (logBuffer st) <= maxBufferSize)%nat ->
  (length (logBuffer (outputLog e st)) <= maxBufferSize)%nat.
Proof.
  intros H. rewrite logBuffer_outputLog.
  destruct (shouldLog st (LogEntry.level e)); [apply length_push_bounded, H | exact H].
Qed.

Lemma length_leveled l clk co ac me da cx st :
  (length (logBuffer st) <= maxBufferSize)%nat ->
  (length (logBuffer (leveled l clk co ac me da cx st)) <= maxBufferSize)%nat.
Proof. rewrite leveled_outputLog. apply length_outputLog. Qed.

(** Every public call keeps the bound. *)
Lemma length_run (c : Call) (st : State) :
  (length (logBuffer st) <= maxBufferSize)%nat ->
  (length (logBuffer (run c st)) <= maxBufferSize)%nat.
Proof.
  intros H. destruct c; simpl; try exact H.
  - apply (length_leveled ERROR), H.
  - apply (length_leveled WARN), H.
  - apply (length_leveled INFO), H.
  - apply (length_leveled DEBUG), H.
  - apply (length_leveled TRACE), H.
  - apply (length_leveled DEBUG), H.
  - (* startTimer *)
    unfold startTimer. destruct (_ || _); simpl; [exact H|].
    apply (length_leveled TRACE), H.
  - (* endTimer *)
    unfold endTimer. destruct (_ || _); [exact H|].
    destruct (performanceMetrics st !! timerId).
    + simpl. apply (length_leveled INFO), H.
    + apply (length_leveled WARN), H.
  - (* trackError *)
    unfold trackError. apply (length_leveled ERROR), H.
  - (* trackAPIRequest *)
    unfold trackAPIRequest. simpl. apply (length_leveled INFO), H.
  - (* trackAPIResponse *)
    unfold trackAPIResponse. apply (length_leveled INFO), H.
  - (* trackStateChange *)
    unfold trackStateChange. apply (length_leveled DEBUG), H.
  - (* updateConfig *)
    unfold updateConfig. apply (length_leveled INFO), H.
  - (* clearLogs *)
    unfold clearLogs. apply (length_leveled INFO). simpl. unfold maxBufferSize. lia.
Qed.

Lemma length_run_all (calls : list Call) (st : State) :
  (length (logBuffer st) <= maxBufferSize)%nat ->
  (length (logBuffer (run_all calls st)) <= maxBufferSize)%nat.
Proof.
  revert st. induction calls as [|c calls IH]; intros st H; simpl; [exact H|].
  apply IH, length_run, H.
Qed.

Lemma length_constructor h data_iso clk partial out :
  (length (logBuffer (constructor h data_iso clk partial out)) <= maxBufferSize)%nat.
Proof.
  unfold constructor, initializeDebugMode.
  destruct (DebugConfig.enabled _).
  - apply (length_leveled DEBUG). simpl. unfold maxBufferSize. lia.
  - simpl. unfold maxBufferSize. lia.
Qed.

(** ** C1 *)

(** C1.  Whatever the configuration, as long as its level is one of the
    five, a leveled call leaves in the buffer the entry it built exactly
    when the logger is enabled and the rank of the entry's level is at most
    the rank of the configured level; otherwise the buffer is the one
    before the call.  A retained entry is the newest element of the buffer,
    and the [logToConsole] flag has no influence on the buffer. *)
Theorem level_filter_decides_retention
    (st : State) (configured l : Level) (clk : Clock)
    (component action message : string) (data context : jsval) :
  DebugConfig.level (config st) = level_name configured ->
  let entry := createLogEntry st clk (level_name l) component action message data context in
  let after := leveled l clk component action message data context st in
  logBuffer after =
    (if DebugConfig.enabled (config st) && (rank l <=? rank configured)
     then push_bounded entry (logBuffer st)
     else logBuffer st)
  /\ last (push_bounded entry (logBuffer st)) = Some entry
  /\ LogEntry.level entry = level_name l
  /\ forall b : bool,
       logBuffer (leveled l clk component action message data context
                    (set_config (with_logToConsole b (config st)) st))
       = logBuffer after.
Proof.
  intros Hlevel entry after. subst entry after.
  repeat split.
  - rewrite logBuffer_leveled, (shouldLog_rank st configured l Hlevel). reflexivity.
  - apply last_push_bounded.
  - apply level_createLogEntry.
  - intros b. rewrite !logBuffer_leveled. reflexivity.
Qed.

(** The instance of the specification: at level [warn], [error] and [warn]
    are retained, [info], [debug] and [trace] are dropped. *)
Lemma level_filter_decides_retention_witness :
  DebugConfig.level (config warn_logger) = level_name WARN
  /\ logBuffer (leveled WARN clock0 "app" "start" "hello" VUndef VUndef warn_logger)
     = [createLogEntry warn_logger clock0 "warn" "app" "start" "hello" VUndef VUndef]
  /\ logBuffer (leveled INFO clock0 "app" "start" "hello" VUndef VUndef warn_logger) = [].
Proof.
  split; [reflexivity|]. split.
  - exact (proj1 (level_filter_decides_retention warn_logger WARN WARN clock0
                    "app" "start" "hello" VUndef VUndef eq_refl)).
  - exact (proj1 (level_filter_decides_retention warn_logger WARN INFO clock0
                    "app" "start" "hello" VUndef VUndef eq_refl)).
Defined.

Example warn_level_retains_error_and_warn :
  map (fun l => length (logBuffer (leveled l clock0 "app" "start" "hello" VUndef VUndef
                                     warn_logger)))
      [ERROR; WARN; INFO; DEBUG; TRACE]
  = [1; 1; 0; 0; 0]%nat.
Proof. reflexivity. Qed.

(** ** C2 *)

(** C2.  In every state a logger can reach from its construction by public
    calls, the buffer holds at most [maxBufferSize] = 1000 entries.  In
    such a state an accepted entry is appended behind the entries already
    there; when the buffer is at capacity, the oldest entry, and only it,
    leaves, and the others keep their order. *)
Theorem buffer_is_bounded_fifo
    (h : Host) (data_iso : string) (clk : Clock) (partial : PartialConfig.t)
    (out : list ConsoleCall) (calls : list Call) (entry : LogEntry.t) :
  let st := run_all calls (constructor h data_iso clk partial out) in
  (length (logBuffer st) <= maxBufferSize)%nat
  /\ maxBufferSize = 1000%nat
  /\ logBuffer (outputLog entry st) =
       if shouldLog st (LogEntry.level entry)
       then (if (length (logBuffer st) <? maxBufferSize)%nat
             then logBuffer st ++ [entry]
             else tail (logBuffer st) ++ [entry])
       else logBuffer st.
Proof.
  intros st.
  assert (Hbound : (length (logBuffer st) <= maxBufferSize)%nat)
    by apply length_run_all, length_constructor.
  split; [exact Hbound|]. split; [reflexivity|].
  rewrite logBuffer_outputLog.
  destruct (shouldLog st (LogEntry.level entry)); [|reflexivity].
  destruct (Nat.ltb_spec (length (logBuffer st)) maxBufferSize) as [Hlt|Hge].
  - apply push_bounded_below, Hlt.
  - apply push_bounded_full. lia.
Qed.

Example full_logger_at_capacity :
  length (logBuffer full_logger) = 1000%nat
  /\ (LogEntry.action <$> head (logBuffer default_logger)) = Some "debug_init"
  /\ (LogEntry.action <$> head (logBuffer full_logger)) = Some "tick".
Proof. vm_compute. repeat split. Qed.

(** ** C7 *)

(** C7.  With [enabled = false] every leveled call, [log], [startTimer] and
    [endTimer] return the state they were given (buffer, console transcript,
    timer map and configuration alike), and [startTimer] returns the empty
    string. *)
Theorem disabled_logger_is_inert (st : State) :
  DebugConfig.enabled (config st) = false ->
  (forall l clk component action message data context,
      leveled l clk component action message data context st = st)
  /\ (forall clk component action message data context,
      log clk component action message data context st = st)
  /\ (forall date_now random36 start clk operation metadata,
      startTimer date_now random36 start clk operation metadata st = (st, EmptyString))
  /\ (forall end_time clk timerId additionalData,
      endTimer end_time clk timerId additionalData st = st).
Proof.
  intros Hoff.
  assert (Hdrop : forall l, shouldLog st (level_name l) = false).
  { intros l. unfold shouldLog. rewrite Hoff. reflexivity. }
  repeat split; intros.
  - apply leveled_reject, Hdrop.
  - apply (leveled_reject DEBUG), Hdrop.
  - unfold startTimer. rewrite Hoff. reflexivity.
  - unfold endTimer. rewrite Hoff. reflexivity.
Qed.

Lemma disabled_logger_is_inert_witness :
  DebugConfig.enabled (config disabled_logger) = false
  /\ error clock0 "app" "crash" "boom" VUndef VUndef disabled_logger = disabled_logger
  /\ startTimer 1735689600000 "k3j9x2m1q" 1735689600000 clock0 "load" VUndef disabled_logger
     = (disabled_logger, EmptyString)
  /\ endTimer 1735689600005 clock0 "load_1735689600000_k3j9x2m1q" VUndef disabled_logger
     = disabled_logger.
Proof.
  pose proof (disabled_logger_is_inert disabled_logger eq_refl) as (Hl & _ & Hs & He).
  split; [reflexivity|]. split; [apply (Hl ERROR)|].
  split; [apply Hs | apply He].
Defined.

(** ** C10 *)

Lemma existsb_eqb_In (x : string) (l : list string) :
  existsb (String.eqb x) l = true <-> In x l.
Proof.
  rewrite existsb_exists. split.
  - intros (y & Hy & Heq). apply String.eqb_eq in Heq. subst. exact Hy.
  - intros H. exists x. split; [exact H | apply String.eqb_refl].
Qed.

Lemma level_config_from_storage (h : Host) (c : DebugConfig.t) :
  DebugConfig.level (config_from_storage h c) = DebugConfig.level c
  \/ In (DebugConfig.level (config_from_storage h c)) levels.
Proof.
  unfold config_from_storage. destruct (getStorage h) as [storage|]; [|left; reflexivity].
  set (c1 := if bool_decide _ then _ else _).
  assert (Hc1 : DebugConfig.level c1 = DebugConfig.level c).
  { subst c1. repeat case_bool_decide; reflexivity. }
  destruct (string_truthy _ && existsb _ levels) eqn:E.
  - right. apply andb_true_iff in E as [_ E]. apply existsb_eqb_In in E. exact E.
  - left. exact Hc1.
Qed.

(** C10.  When the configured level is not one of the five names,
    [shouldLog] refuses each of the five entry levels and every leveled call
    returns the state unchanged (no buffer entry, no console output),
    whatever [enabled] is.  Such a level can come from the environment:
    a non-empty [DIANOIA_DEBUG_LEVEL] is stored as it is and leaves
    [enabled] alone, whereas a level read from local storage is stored only
    when it is one of the five. *)
Theorem unknown_level_silences_logger :
  (forall st : State,
      ~ In (DebugConfig.level (config st)) levels ->
      forall l clk component action message data context,
        shouldLog st (level_name l) = false
        /\ leveled l clk component action message data context st = st)
  /\ (forall (h : Host) (c : DebugConfig.t) (env : gmap string string) (s : string),
        process_env h = Some env ->
        env !! "DIANOIA_DEBUG" <> Some "false" ->
        env !! "DIANOIA_DEBUG_LEVEL" = Some s ->
        s <> EmptyString ->
        DebugConfig.level (config_from_env h c) = s
        /\ DebugConfig.enabled (config_from_env h c) = DebugConfig.enabled c)
  /\ (forall (h : Host) (c : DebugConfig.t),
        DebugConfig.level (config_from_storage h c) = DebugConfig.level c
        \/ In (DebugConfig.level (config_from_storage h c)) levels).
Proof.
  split; [|split].
  - intros st Hout l clk co ac me da cx.
    assert (Hdrop : shouldLog st (level_name l) = false).
    { apply shouldLog_unknown_level.
      destruct (existsb _ levels) eqn:E; [|reflexivity].
      apply existsb_eqb_In in E. contradiction. }
    split; [exact Hdrop | apply leveled_reject, Hdrop].
  - intros h c env s Henv Hdebug Hlevel Hs.
    unfold config_from_env. rewrite Henv, Hlevel.
    rewrite bool_decide_eq_false_2 by exact Hdebug.
    assert (Ht : string_truthy (Some s) = true).
    { simpl. destruct s; [contradiction | reflexivity]. }
    rewrite Ht. split; reflexivity.
  - apply level_config_from_storage.
Qed.

Lemma unknown_level_silences_logger_witness :
  DebugConfig.level (config verbose_logger) = "verbose"
  /\ DebugConfig.enabled (config verbose_logger) = true
  /\ logBuffer verbose_logger = []
  /\ error clock0 "app" "crash" "boom" VUndef VUndef verbose_logger = verbose_logger.
Proof.
  split; [reflexivity|]. split; [reflexivity|]. split; [reflexivity|].
  refine (proj2 (proj1 unknown_level_silences_logger verbose_logger _
                   ERROR clock0 "app" "crash" "boom" VUndef VUndef)).
  simpl. intros H. decompose [or] H; try discriminate; assumption.
Defined.

(** ** C5 *)

(** C5 (counterexample).  A logger built with [level: 'warn'] is enabled,
    yet after [clearLogs] its buffer is empty: the [info] entry noting the
    clear does not pass the level filter. *)
Lemma clearLogs_can_leave_empty_buffer :
  DebugConfig.enabled (config warn_logger) = true
  /\ logBuffer (clearLogs clock0 warn_logger) = [].
Proof. split; reflexivity. Qed.

(** C5 (amended).  [clearLogs] empties the buffer and then makes one [info]
    call noting the clear, under the unchanged configuration: afterwards the
    buffer holds that one entry when the logger is enabled and its level
    admits [info], and is empty otherwise.  Timers and configuration are
    left alone. *)
Theorem clearLogs_leaves_at_most_its_own_entry (clk : Clock) (st : State) :
  let note :=
    createLogEntry st clk "info" "system" "logs_cleared" "Debug logs cleared"
      VUndef VUndef in
  logBuffer (clearLogs clk st) = (if shouldLog st "info" then [note] else [])
  /\ shouldLog st "info" =
       DebugConfig.enabled (config st)
       && (indexOf levels "info" <=? indexOf levels (DebugConfig.level (config st)))
  /\ LogEntry.level note = "info"
  /\ config (clearLogs clk st) = config st
  /\ performanceMetrics (clearLogs clk st) = performanceMetrics st.
Proof.
  intros note. subst note. unfold clearLogs.
  repeat split.
  - rewrite (logBuffer_leveled INFO). simpl level_name.
    change (shouldLog (set_logBuffer [] st) "info") with (shouldLog st "info").
    destruct (shouldLog st "info"); reflexivity.
  - unfold shouldLog. destruct (DebugConfig.enabled (config st)); reflexivity.
  - apply level_createLogEntry.
  - rewrite (config_leveled INFO). reflexivity.
  - rewrite (performanceMetrics_leveled INFO). reflexivity.
Qed.

(** ** Timers *)






Lemma startTimer_on dn rnd start clk op md st :
  timers_on st = true ->
  startTimer dn rnd start clk op md st =
  (trace clk "performance" "timer_start" ("Started timer for: " +:+ op)
     (VObj lit [("timerId", VStr (minted op dn rnd)); ("metadata", md)]) VUndef
     (set_performanceMetrics
        (<[minted op dn rnd := PerformanceMetric.mk op start None None md]>
           (performanceMetrics st)) st),
   minted op dn rnd).
Proof.
  unfold timers_on. intros H. apply andb_true_iff in H as [He Hp].
  unfold startTimer. rewrite He, Hp. reflexivity.
Qed.



(** ** C3 *)




(** ** Property lists *)

Lemma has_prop_In (key : string) (props : list (string * jsval)) :
  has_prop key props = true <-> In key (map fst props).
Proof.
  induction props as [|[k v] props IH]; simpl.
  - split; [discriminate | contradiction].
  - rewrite orb_true_iff, IH, String.eqb_eq. reflexivity.
Qed.

Lemma get_prop_absent (key : string) (props : list (string * jsval)) :
  has_prop key props = false -> get_prop key props = VUndef.
Proof.
  induction props as [|[k v] props IH]; simpl; [reflexivity|].
  intros H. apply orb_false_iff in H as [Hk Hrest]. rewrite Hk. apply IH, Hrest.
Qed.

Lemma has_prop_set_prop (key k : string) (v : jsval) (props : list (string * jsval)) :
  has_prop key (set_prop k v props) = String.eqb k key || has_prop key props.
Proof.
  induction props as [|[k' x] props IH]; simpl.
  - rewrite orb_false_r. reflexivity.
  - destruct (String.eqb k' k) eqn:E; simpl.
    + apply String.eqb_eq in E. subst k'.
      destruct (String.eqb k key); reflexivity.
    + rewrite IH. destruct (String.eqb k' key), (String.eqb k key); reflexivity.
Qed.

Lemma get_prop_set_prop (key k : string) (v : jsval) (props : list (string * jsval)) :
  get_prop key (set_prop k v props) = if String.eqb k key then v else get_prop key props.
Proof.
  induction props as [|[k' x] props IH]; simpl.
  - destruct (String.eqb k key); reflexivity.
  - destruct (String.eqb k' k) eqn:E; simpl.
    + apply String.eqb_eq in E. subst k'.
      destruct (String.eqb k key); reflexivity.
    + rewrite IH. destruct (String.eqb k' key) eqn:E'; [|reflexivity].
      apply String.eqb_eq in E'. subst k'. rewrite String.eqb_sym, E. reflexivity.
Qed.

Lemma keys_set_prop (k : string) (v : jsval) (props : list (string * jsval)) :
  map fst (set_prop k v props) =
  if has_prop k props then map fst props else map fst props ++ [k].
Proof.
  induction props as [|[k' x] props IH]; simpl; [reflexivity|].
  destruct (String.eqb k' k) eqn:E; simpl; [reflexivity|].
  rewrite IH. destruct (has_prop k props); reflexivity.
Qed.

Lemma NoDup_keys_set_prop (k : string) (v : jsval) (props : list (string * jsval)) :
  NoDup (map fst props) -> NoDup (map fst (set_prop k v props)).
Proof.
  intros H. rewrite keys_set_prop. destruct (has_prop k props) eqn:E; [exact H|].
  apply NoDup_app. split; [exact H|]. split.
  - intros x Hx Hk. apply list_elem_of_In in Hx. apply list_elem_of_In in Hk.
    destruct Hk as [Hk|[]]. subst x.
    apply has_prop_In in Hx. rewrite Hx in E. discriminate.
  - apply NoDup_singleton.
Qed.

(** ** Insertion-ordered sets *)

Lemma In_fold_Set_add (x : string) (l acc : list string) :
  In x (fold_left Set_add l acc) <-> In x acc \/ In x l.
Proof.
  revert acc. induction l as [|y l IH]; intros acc; simpl.
  - tauto.
  - rewrite IH. unfold Set_add.
    destruct (existsb (String.eqb y) acc) eqn:E.
    + apply existsb_eqb_In in E. split; [tauto|].
      intros [H|[H|H]]; [tauto | subst; tauto | tauto].
    + rewrite in_app_iff. simpl. tauto.
Qed.

Lemma In_new_Set (x : string) (l : list string) : In x (new_Set l) <-> In x l.
Proof. unfold new_Set. rewrite In_fold_Set_add. simpl. tauto. Qed.

(** ** The diff loop *)

Lemma has_prop_assign_change (key k : string) (v : jsval) (acc : list (string * jsval)) :
  has_prop key (assign_change k v acc)
  = (negb (String.eqb k "__proto__") && String.eqb k key) || has_prop key acc.
Proof.
  unfold assign_change. destruct (String.eqb k "__proto__"); [reflexivity|].
  apply has_prop_set_prop.
Qed.

Lemma get_prop_assign_change (key k : string) (v : jsval) (acc : list (string * jsval)) :
  get_prop key (assign_change k v acc)
  = if negb (String.eqb k "__proto__") && String.eqb k key then v else get_prop key acc.
Proof.
  unfold assign_change. destruct (String.eqb k "__proto__"); [reflexivity|].
  apply get_prop_set_prop.
Qed.

Section DiffLoop.

Variable proto : jsval -> string -> jsval.
Variables oldState newState : jsval.

Lemma has_prop_diff_loop (key : string) (keys : list string) (acc : list (string * jsval)) :
  has_prop key (fold_left (diff_step proto oldState newState) keys acc) =
  has_prop key acc
  || (existsb (String.eqb key) keys && differs proto oldState newState key
      && negb (String.eqb key "__proto__")).
Proof.
  unfold differs. revert acc. induction keys as [|k keys IH]; intros acc; simpl.
  - rewrite orb_false_r. reflexivity.
  - rewrite IH. unfold diff_step.
    destruct (String.eqb key k) eqn:E.
    + apply String.eqb_eq in E. subst k.
      destruct (strict_neq (read proto oldState key) (read proto newState key)) eqn:D; simpl.
      * rewrite has_prop_assign_change, String.eqb_refl.
        destruct (String.eqb key "__proto__"), (has_prop key acc),
          (existsb (String.eqb key) keys); reflexivity.
      * destruct (has_prop key acc), (existsb (String.eqb key) keys); reflexivity.
    + simpl.
      destruct (strict_neq (read proto oldState k) (read proto newState k)); [|reflexivity].
      rewrite has_prop_assign_change, (String.eqb_sym k key), E, andb_false_r. reflexivity.
Qed.

Lemma get_prop_diff_loop (key : string) (keys : list string) (acc : list (string * jsval)) :
  get_prop key (fold_left (diff_step proto oldState newState) keys acc) =
  if existsb (String.eqb key) keys && differs proto oldState newState key
     && negb (String.eqb key "__proto__")
  then VObj lit [("from", read proto oldState key); ("to", read proto newState key)]
  else get_prop key acc.
Proof.
  unfold differs. revert acc. induction keys as [|k keys IH]; intros acc; simpl; [reflexivity|].
  rewrite IH. unfold diff_step.
  destruct (String.eqb key k) eqn:E.
  - apply String.eqb_eq in E. subst k.
    destruct (strict_neq (read proto oldState key) (read proto newState key)) eqn:D; simpl.
    + rewrite get_prop_assign_change, String.eqb_refl.
      destruct (String.eqb key "__proto__"), (existsb (String.eqb key) keys); reflexivity.
    + destruct (existsb (String.eqb key) keys); reflexivity.
  - simpl. destruct (existsb (String.eqb key) keys && _ && _); [reflexivity|].
    destruct (strict_neq (read proto oldState k) (read proto newState k)); [|reflexivity].
    rewrite get_prop_assign_change, (String.eqb_sym k key), E, andb_false_r. reflexivity.
Qed.

Lemma NoDup_diff_loop (keys : list string) (acc : list (string * jsval)) :
  NoDup (map fst acc) ->
  NoDup (map fst (fold_left (diff_step proto oldState newState) keys acc)).
Proof.
  revert acc. induction keys as [|k keys IH]; intros acc H; simpl; [exact H|].
  apply IH. unfold diff_step.
  destruct (strict_neq (read proto oldState k) (read proto newState k)); [|exact H].
  unfold assign_change. destruct (String.eqb k "__proto__"); [exact H|].
  apply NoDup_keys_set_prop, H.
Qed.

Lemma getStateChanges_truthy :
  truthy oldState = true -> truthy newState = true ->
  getStateChanges proto oldState newState =
  fold_left (diff_step proto oldState newState)
    (new_Set (Object_keys oldState ++ Object_keys newState)) [].
Proof. intros Ho Hn. unfold getStateChanges. rewrite Ho, Hn. reflexivity. Qed.

End DiffLoop.

Lemma existsb_union_keys (key : string) (ps qs : list (string * jsval)) :
  existsb (String.eqb key) (new_Set (map fst ps ++ map fst qs))
  = has_prop key ps || has_prop key qs.
Proof.
  apply eq_true_iff_eq.
  rewrite existsb_eqb_In, In_new_Set, in_app_iff, orb_true_iff, !has_prop_In.
  reflexivity.
Qed.

(** What [trackStateChange] does with the entry it builds. *)
Lemma trackStateChange_outputLog proto clk component action oldState newState context st :
  let entry :=
    createLogEntry st clk "debug" "state" "change"
      (component +:+ " state changed via " +:+ action)
      (VObj lit [("oldState", oldState); ("newState", newState);
                 ("changes", VObj lit (getStateChanges proto oldState newState))])
      context in
  let after := trackStateChange proto clk component action oldState newState context st in
  after = outputLog entry st
  /\ LogEntry.level entry = "debug"
  /\ logBuffer after =
       (if shouldLog st "debug" then push_bounded entry (logBuffer st) else logBuffer st)
  /\ console after =
       (if shouldLog st "debug" && DebugConfig.logToConsole (config st)
        then console st ++ console_calls (formatLogEntry st entry) entry
        else console st)
  /\ (shouldLog st "debug" = false -> after = st).
Proof.
  intros entry after.
  assert (Hafter : after = outputLog entry st) by reflexivity.
  assert (Hlevel : LogEntry.level entry = "debug") by apply level_createLogEntry.
  split; [exact Hafter|]. split; [exact Hlevel|].
  split; [rewrite Hafter, logBuffer_outputLog, Hlevel; reflexivity|].
  split; [rewrite Hafter, console_outputLog, Hlevel; reflexivity|].
  intros H. rewrite Hafter. apply outputLog_reject. rewrite Hlevel. exact H.
Qed.

(** ** C6 *)

(** C6 (counterexample).  On an enabled logger at level [warn],
    [trackStateChange] on [{a:1, b:2}] and [{a:1, b:3, c:4}] reports
    nothing: the mapping has the two keys, but the [debug] call that
    carries it is filtered, and buffer and console stay as they were. *)
Lemma state_change_can_go_unreported :
  DebugConfig.enabled (config warn_logger) = true
  /\ map fst (getStateChanges own_only (VObj 1 [("a", VNum 1); ("b", VNum 2)])
                (VObj 2 [("a", VNum 1); ("b", VNum 3); ("c", VNum 4)])) = ["b"; "c"]
  /\ logBuffer (trackStateChange own_only clock0 "store" "update"
                  (VObj 1 [("a", VNum 1); ("b", VNum 2)])
                  (VObj 2 [("a", VNum 1); ("b", VNum 3); ("c", VNum 4)])
                  VUndef warn_logger) = logBuffer warn_logger
  /\ console (trackStateChange own_only clock0 "store" "update"
                (VObj 1 [("a", VNum 1); ("b", VNum 2)])
                (VObj 2 [("a", VNum 1); ("b", VNum 3); ("c", VNum 4)])
                VUndef warn_logger) = console warn_logger
  /\ logBuffer warn_logger = [].
Proof. repeat split. Qed.

(** C6 (amended).  For two state objects, the mapping computed by
    [getStateChanges] has a key exactly when the key belongs to one of
    the two objects, the values read under it (through the prototype
    chain where an object lacks the key) are not strictly equal, and the
    key is not [__proto__], whose assignment creates no property; the key
    is then bound to [{from, to}] with the two values read, and no key
    is bound twice.  Strict comparison of two nested objects looks at
    their identity only.  [trackStateChange] hands the mapping, under
    the key [changes], to one [debug] call: the entry is appended to the
    buffer, and printed when [logToConsole] is set, exactly when the
    logger is enabled and its level admits [debug]; otherwise the state
    is left as it was.  On [{a:1, b:2}] and [{a:1, b:3, c:4}], where the
    engine finds no [c] for the first object, the mapping is
    [{b: {from: 2, to: 3}, c: {from: undefined, to: 4}}]. *)
Theorem state_changes_are_the_shallow_diff
    (proto : jsval -> string -> jsval) (i j : N) (ps qs : list (string * jsval))
    (clk : Clock) (component action : string) (context : jsval) (st : State) :
  let oldState := VObj i ps in
  let newState := VObj j qs in
  let changes := getStateChanges proto oldState newState in
  let entry :=
    createLogEntry st clk "debug" "state" "change"
      (component +:+ " state changed via " +:+ action)
      (VObj lit [("oldState", oldState); ("newState", newState);
                 ("changes", VObj lit changes)])
      context in
  let after := trackStateChange proto clk component action oldState newState context st in
  (forall key,
      has_prop key changes
      = (has_prop key ps || has_prop key qs) && differs proto oldState newState key
        && negb (String.eqb key "__proto__"))
  /\ (forall key,
      get_prop key changes
      = if (has_prop key ps || has_prop key qs) && differs proto oldState newState key
           && negb (String.eqb key "__proto__")
        then VObj lit [("from", read proto oldState key); ("to", read proto newState key)]
        else VUndef)
  /\ (forall key, has_prop key ps = true -> read proto oldState key = get_prop key ps)
  /\ (forall key, has_prop key qs = true -> read proto newState key = get_prop key qs)
  /\ NoDup (map fst changes)
  /\ after = outputLog entry st
  /\ LogEntry.level entry = "debug"
  /\ get (LogEntry.data entry) "oldState" = oldState
  /\ get (LogEntry.data entry) "newState" = newState
  /\ get (LogEntry.data entry) "changes" = VObj lit changes
  /\ logBuffer after =
       (if shouldLog st "debug" then push_bounded entry (logBuffer st) else logBuffer st)
  /\ console after =
       (if shouldLog st "debug" && DebugConfig.logToConsole (config st)
        then console st ++ console_calls (formatLogEntry st entry) entry
        else console st)
  /\ (shouldLog st "debug" = false -> after = st)
  /\ (forall a b xs ys, strict_neq (VObj a xs) (VObj b ys) = negb (a =? b)%N)
  /\ (proto (VObj 1 [("a", VNum 1); ("b", VNum 2)]) "c" = VUndef ->
      getStateChanges proto (VObj 1 [("a", VNum 1); ("b", VNum 2)])
        (VObj 2 [("a", VNum 1); ("b", VNum 3); ("c", VNum 4)])
      = [ ("b", VObj lit [("from", VNum 2); ("to", VNum 3)]);
          ("c", VObj lit [("from", VUndef); ("to", VNum 4)]) ]).
Proof.
  intros oldState newState changes entry after.
  assert (Hchanges : changes = fold_left (diff_step proto oldState newState)
                                 (new_Set (map fst ps ++ map fst qs)) [])
    by (apply getStateChanges_truthy; reflexivity).
  destruct (trackStateChange_outputLog proto clk component action oldState newState
              context st) as (Hafter & Hlevel & Hbuffer & Hconsole & Hreject).
  split.
  { intros key. rewrite Hchanges, has_prop_diff_loop, existsb_union_keys. reflexivity. }
  split.
  { intros key. rewrite Hchanges, get_prop_diff_loop, existsb_union_keys. reflexivity. }
  split.
  { intros key H. unfold read, oldState. cbn [own_props]. rewrite H. reflexivity. }
  split.
  { intros key H. unfold read, newState. cbn [own_props]. rewrite H. reflexivity. }
  split; [rewrite Hchanges; apply NoDup_diff_loop; constructor|].
  split; [exact Hafter|]. split; [exact Hlevel|].
  split; [subst entry; rewrite data_createLogEntry; reflexivity|].
  split; [subst entry; rewrite data_createLogEntry; reflexivity|].
  split; [subst entry; rewrite data_createLogEntry; reflexivity|].
  split; [exact Hbuffer|]. split; [exact Hconsole|]. split; [exact Hreject|].
  split; [reflexivity|].
  intros Hc. unfold getStateChanges, diff_step, read. cbn. rewrite Hc. reflexivity.
Qed.

(** The theorem on the default logger, whose level admits [debug]: the
    entry that carries the mapping of the example is the newest of the
    buffer. *)
Lemma state_changes_are_the_shallow_diff_witness :
  shouldLog default_logger "debug" = true
  /\ (get_prop "changes" <$> (own_props <$> (LogEntry.data <$>
        last (logBuffer tracked_logger))))
     = Some (VObj lit [ ("b", VObj lit [("from", VNum 2); ("to", VNum 3)]);
                        ("c", VObj lit [("from", VUndef); ("to", VNum 4)]) ]).
Proof.
  pose proof (state_changes_are_the_shallow_diff own_only 1 2
                [("a", VNum 1); ("b", VNum 2)]
                [("a", VNum 1); ("b", VNum 3); ("c", VNum 4)]
                clock0 "store" "update" VUndef default_logger)
    as (_ & _ & _ & _ & _ & _ & _ & _ & _ & Hdata & Hbuffer & _ & _ & _ & Hexample).
  cbv zeta in *.
  split; [reflexivity|].
  unfold tracked_logger. rewrite Hbuffer.
  change (shouldLog default_logger "debug") with true. cbv iota.
  rewrite last_push_bounded. cbn [fmap option_fmap option_map].
  unfold get in Hdata. rewrite Hdata, (Hexample eq_refl). reflexivity.
Defined.

(** The comparison is by identity: a nested object that was replaced by an
    equal-looking copy is reported whole, one that is still the same object
    is not reported. *)
Example state_changes_do_not_recurse :
  getStateChanges own_only (VObj 1 [("user", VObj 10 [("name", VStr "ada")])])
                  (VObj 2 [("user", VObj 11 [("name", VStr "ada")])])
  = [ ("user", VObj lit [("from", VObj 10 [("name", VStr "ada")]);
                         ("to", VObj 11 [("name", VStr "ada")])]) ]
  /\ getStateChanges own_only (VObj 1 [("user", VObj 10 [("name", VStr "ada")])])
                     (VObj 2 [("user", VObj 10 [("name", VStr "ada")])])
     = [].
Proof. split; reflexivity. Qed.

(** A key that the old state lacks is read through the prototype chain:
    when the engine finds there the very value the new state holds, the
    key is not reported; and a differing [__proto__] is not reported
    either. *)
Example state_changes_read_the_prototype_chain :
  let method := VObj 40 [] in
  let proto := fun (v : jsval) (key : string) =>
                 if String.eqb key "toString" then method else VUndef in
  getStateChanges proto (VObj 1 []) (VObj 2 [("toString", method)]) = []
  /\ map fst (getStateChanges proto (VObj 1 []) (VObj 2 [("toString", VUndef)]))
     = ["toString"]
  /\ getStateChanges proto (VObj 1 [("__proto__", VNum 1)]) (VObj 2 []) = [].
Proof. repeat split. Qed.

(** ** C9 *)

(** C9 (counterexample).  On an enabled logger at level [warn],
    [trackStateChange(null, {a:1})] emits nothing: the mapping is empty
    and the [debug] call is filtered, so the call leaves the logger as
    it was. *)
Lemma nullish_state_change_can_go_unreported :
  DebugConfig.enabled (config warn_logger) = true
  /\ getStateChanges own_only VNull (VObj 1 [("a", VNum 1)]) = []
  /\ trackStateChange own_only clock0 "store" "reset" VNull (VObj 1 [("a", VNum 1)])
       VUndef warn_logger = warn_logger
  /\ logBuffer warn_logger = [].
Proof. repeat split. Qed.

(** C9 (amended).  When [oldState] or [newState] is [null] or
    [undefined], the computed mapping is empty whatever the other
    argument is, and [trackStateChange] is the one [debug] call it
    always makes, carrying the two states and the empty mapping.  The
    entry of that call is appended to the buffer, and printed when
    [logToConsole] is set, exactly when the logger is enabled and its
    level admits [debug]; otherwise the call leaves the logger as it
    was. *)
Theorem nullish_state_gives_empty_changes
    (proto : jsval -> string -> jsval) (oldState newState : jsval)
    (clk : Clock) (component action : string) (context : jsval) (st : State) :
  oldState = VNull \/ oldState = VUndef \/ newState = VNull \/ newState = VUndef ->
  let entry :=
    createLogEntry st clk "debug" "state" "change"
      (component +:+ " state changed via " +:+ action)
      (VObj lit [("oldState", oldState); ("newState", newState);
                 ("changes", VObj lit [])])
      context in
  let after := trackStateChange proto clk component action oldState newState context st in
  getStateChanges proto oldState newState = []
  /\ after = outputLog entry st
  /\ LogEntry.level entry = "debug"
  /\ get (LogEntry.data entry) "changes" = VObj lit []
  /\ logBuffer after =
       (if shouldLog st "debug" then push_bounded entry (logBuffer st) else logBuffer st)
  /\ console after =
       (if shouldLog st "debug" && DebugConfig.logToConsole (config st)
        then console st ++ console_calls (formatLogEntry st entry) entry
        else console st)
  /\ (shouldLog st "debug" = false -> after = st)
  /\ (shouldLog st "debug" = true -> last (logBuffer after) = Some entry).
Proof.
  intros Hnullish entry after.
  assert (Hempty : getStateChanges proto oldState newState = []).
  { unfold getStateChanges.
    destruct Hnullish as [H|[H|[H|H]]]; subst; simpl;
      try reflexivity; destruct (truthy oldState); reflexivity. }
  destruct (trackStateChange_outputLog proto clk component action oldState newState
              context st) as (Hafter & Hlevel & Hbuffer & Hconsole & Hreject).
  rewrite Hempty in Hafter, Hlevel, Hbuffer, Hconsole.
  split; [exact Hempty|]. split; [exact Hafter|]. split; [exact Hlevel|].
  split; [subst entry; rewrite data_createLogEntry; reflexivity|].
  split; [exact Hbuffer|]. split; [exact Hconsole|]. split; [exact Hreject|].
  intros H. fold after in Hbuffer. rewrite Hbuffer, H. apply last_push_bounded.
Qed.

Lemma nullish_state_gives_empty_changes_witness :
  getStateChanges own_only VNull (VObj 1 [("a", VNum 1)]) = []
  /\ shouldLog default_logger "debug" = true
  /\ (get_prop "changes" <$> (own_props <$> (LogEntry.data <$>
        last (logBuffer (trackStateChange own_only clock0 "store" "reset" VNull
                           (VObj 1 [("a", VNum 1)]) VUndef default_logger)))))
     = Some (VObj lit []).
Proof.
  pose proof (nullish_state_gives_empty_changes own_only VNull (VObj 1 [("a", VNum 1)])
                clock0 "store" "reset" VUndef default_logger (or_introl eq_refl))
    as (Hempty & _ & _ & Hdata & _ & _ & _ & Hlast).
  cbv zeta in *.
  split; [exact Hempty|]. split; [reflexivity|].
  rewrite (Hlast eq_refl). cbn [fmap option_fmap option_map].
  unfold get in Hdata. rewrite Hdata. reflexivity.
Defined.

(** ** C4 *)

(** [merge_config] is the spread of the two objects. *)
Lemma merge_config_is_spread (c : DebugConfig.t) (p : PartialConfig.t) :
  config_props (merge_config c p) = spread (config_props c) (partial_props p).
Proof.
  destruct c as [e l ts pf stk con file path].
  destruct p as [[e'|] [l'|] [ts'|] [pf'|] [stk'|] [con'|] [file'|] [path'|]];
    destruct path as [path|]; reflexivity.
Qed.

Lemma set_config_same (st : State) : set_config (config st) st = st.
Proof. destruct st. reflexivity. Qed.

Lemma allocate_fresh (c : DebugConfig.t) (objs : gmap N DebugConfig.t) :
  objs !! fst (allocate c objs) = None
  /\ snd (allocate c objs) !! fst (allocate c objs) = Some c
  /\ forall a, is_Some (objs !! a) ->
       a <> fst (allocate c objs) /\ snd (allocate c objs) !! a = objs !! a.
Proof.
  unfold allocate. cbn [fst snd].
  assert (Hfresh : objs !! fresh (dom objs) = None).
  { apply (not_elem_of_dom (D:=gset N)). apply is_fresh. }
  split; [exact Hfresh|]. split; [apply lookup_insert_eq|].
  intros a [x Ha].
  assert (Hne : a <> fresh (dom objs)) by (intros ->; congruence).
  split; [exact Hne|]. apply lookup_insert_ne. congruence.
Qed.

(** [updateConfig] on an instance: the logger then runs on the state
    [updateConfig] gives, read through a new object. *)
Lemma call_updateConfig (clk : Clock) (newConfig : PartialConfig.t) (i : Instance) :
  let updated := call (CallUpdateConfig clk newConfig) i in
  let after := updateConfig clk newConfig (view i) in
  fields updated = after
  /\ objects updated !! this_config updated = Some (config after)
  /\ view updated = after
  /\ (is_Some (objects i !! this_config i) ->
      this_config updated <> this_config i
      /\ objects updated !! this_config i = objects i !! this_config i).
Proof.
  intros updated after. subst updated after. unfold call.
  destruct (allocate (current i) (objects i)) as [old objs1] eqn:E1.
  destruct (allocate (config (updateConfig clk newConfig (view i))) objs1)
    as [address objs2] eqn:E2.
  pose proof (allocate_fresh (current i) (objects i)) as (_ & _ & H1).
  pose proof (allocate_fresh (config (updateConfig clk newConfig (view i))) objs1)
    as (_ & Hnew & H2).
  rewrite E1 in H1. rewrite E2 in Hnew, H2. cbn [fst snd] in *.
  cbn [fields objects this_config].
  split; [reflexivity|]. split; [exact Hnew|]. split.
  - unfold view, current. cbn [fields objects this_config]. rewrite Hnew. cbn [default].
    apply set_config_same.
  - intros Hsome. destruct (H1 _ Hsome) as [_ Hkept1].
    assert (Hsome1 : is_Some (objs1 !! this_config i)) by (rewrite Hkept1; exact Hsome).
    destruct (H2 _ Hsome1) as [Hne Hkept2].
    split; [congruence|]. rewrite Hkept2. exact Hkept1.
Qed.

(** [getConfig] hands out a new object: it is not the one the logger
    reads, and what the caller assigns to it does not reach the logger. *)
Lemma getConfig_is_a_copy (i : Instance) :
  is_Some (objects i !! this_config i) ->
  let handed := fst (getConfig i) in
  let copy := snd (getConfig i) in
  objects i !! copy = None
  /\ copy <> this_config i
  /\ objects handed !! copy = Some (current i)
  /\ this_config handed = this_config i
  /\ view handed = view i
  /\ forall c,
       view (assign copy c handed) = view i
       /\ is_Some (objects (assign copy c handed) !! this_config (assign copy c handed)).
Proof.
  intros Hsome handed copy. subst handed copy. unfold getConfig.
  destruct (allocate (current i) (objects i)) as [address objs] eqn:E.
  pose proof (allocate_fresh (current i) (objects i)) as (Hfresh & Hnew & Hold).
  rewrite E in Hfresh, Hnew, Hold. cbn [fst snd] in *.
  destruct (Hold _ Hsome) as [Hne Hkept].
  cbn [objects this_config fields].
  split; [exact Hfresh|]. split; [congruence|]. split; [exact Hnew|].
  split; [reflexivity|]. split.
  - unfold view, current. cbn [objects this_config fields]. rewrite Hkept. reflexivity.
  - intros c. unfold assign, view, current. cbn [objects this_config fields].
    rewrite lookup_insert_ne by congruence. rewrite Hkept. split; [reflexivity | exact Hsome].
Qed.

(** C4 (counterexample).  On the default logger, which admits [info],
    [updateConfig({level: 'error'})] emits nothing: the [info] call it
    makes is judged by the configuration it has just installed, so that
    buffer and console stay as they were. *)
Lemma updateConfig_can_emit_nothing :
  shouldLog default_logger "info" = true
  /\ DebugConfig.level
       (config (updateConfig clock0 (level_only "error") default_logger)) = "error"
  /\ logBuffer (updateConfig clock0 (level_only "error") default_logger)
     = logBuffer default_logger
  /\ console (updateConfig clock0 (level_only "error") default_logger)
     = console default_logger.
Proof. repeat split. Qed.

(** C4 (amended).  [updateConfig] replaces the configuration by the
    shallow merge of the partial configuration over it (the spread of
    the two objects), and then makes one [info] call whose payload
    records the configuration before and after.  That call is already
    judged by the new configuration: its entry is appended to the
    buffer, and printed when the new [logToConsole] is set, exactly when
    the new configuration is enabled and its level admits [info];
    otherwise nothing is emitted.  Every later leveled call is filtered
    by the new configuration.  After [updateConfig({level: 'error'})]
    the calls [warn], [info], [debug] and [trace] leave the state as it
    is, while an [error] call is retained exactly when the logger is
    enabled; in particular it is still retained if it was retained
    before.  On the instance, [this.config] is a new object holding the
    merged configuration, and [getConfig] right after the call returns
    another new object holding the same: whatever the caller assigns to
    it, the logger and the next [getConfig] still read the merged
    configuration. *)
Theorem updateConfig_merges_and_takes_effect
    (clk : Clock) (newConfig : PartialConfig.t) (st : State) (i : Instance) :
  let merged := merge_config (config st) newConfig in
  let st1 := set_config merged st in
  let note :=
    createLogEntry st1 clk "info" "system" "config_update" "Debug configuration updated"
      (VObj lit [("oldConfig", config_value (config st));
                 ("newConfig", config_value merged)])
      VUndef in
  let after := updateConfig clk newConfig st in
  let silenced := updateConfig clk (level_only "error") st in
  let updated := call (CallUpdateConfig clk newConfig) i in
  let handed := fst (getConfig updated) in
  let copy := snd (getConfig updated) in
  config_props merged = spread (config_props (config st)) (partial_props newConfig)
  /\ config after = merged
  /\ after = outputLog note st1
  /\ LogEntry.level note = "info"
  /\ get (LogEntry.data note) "oldConfig" = config_value (config st)
  /\ get (LogEntry.data note) "newConfig" = config_value merged
  /\ logBuffer after =
       (if shouldLog st1 "info" then push_bounded note (logBuffer st) else logBuffer st)
  /\ console after =
       (if shouldLog st1 "info" && DebugConfig.logToConsole merged
        then console st ++ console_calls (formatLogEntry st1 note) note
        else console st)
  /\ (shouldLog st1 "info" = false -> after = st1)
  /\ (forall l clk' component action message data context,
        logBuffer (leveled l clk' component action message data context after) =
        if DebugConfig.enabled merged
           && (indexOf levels (level_name l) <=? indexOf levels (DebugConfig.level merged))
        then push_bounded
               (createLogEntry st1 clk' (level_name l) component action message data context)
               (logBuffer after)
        else logBuffer after)
  /\ (forall l clk' component action message data context,
        l <> ERROR ->
        leveled l clk' component action message data context silenced = silenced)
  /\ (forall clk' component action message data context,
        logBuffer (error clk' component action message data context silenced) =
        if DebugConfig.enabled (config st)
        then push_bounded
               (createLogEntry silenced clk' "error" component action message data context)
               (logBuffer silenced)
        else logBuffer silenced)
  /\ (shouldLog st "error" = true -> shouldLog silenced "error" = true)
  /\ view updated = updateConfig clk newConfig (view i)
  /\ objects updated !! this_config updated = Some (merge_config (current i) newConfig)
  /\ (is_Some (objects i !! this_config i) ->
      this_config updated <> this_config i
      /\ objects updated !! this_config i = objects i !! this_config i)
  /\ objects updated !! copy = None
  /\ copy <> this_config updated
  /\ objects handed !! copy = Some (merge_config (current i) newConfig)
  /\ view handed = view updated
  /\ (forall c : DebugConfig.t,
        view (assign copy c handed) = view updated
        /\ current (assign copy c handed) = merge_config (current i) newConfig
        /\ objects (fst (getConfig (assign copy c handed)))
             !! snd (getConfig (assign copy c handed))
           = Some (merge_config (current i) newConfig)
        /\ snd (getConfig (assign copy c handed)) <> copy).
Proof.
  intros merged st1 note after silenced updated handed copy.
  assert (Hcfg : forall p s, config (updateConfig clk p s) = merge_config (config s) p).
  { intros p s. unfold updateConfig. rewrite (config_leveled INFO). reflexivity. }
  assert (Hfilter : forall p l, shouldLog (updateConfig clk p st) (level_name l) =
            DebugConfig.enabled (merge_config (config st) p)
            && (indexOf levels (level_name l)
                <=? indexOf levels (DebugConfig.level (merge_config (config st) p)))).
  { intros p l. unfold shouldLog. rewrite Hcfg.
    destruct (DebugConfig.enabled (merge_config (config st) p)); reflexivity. }
  assert (Hentry : forall clk' lv co ac me da cx,
            createLogEntry after clk' lv co ac me da cx
            = createLogEntry st1 clk' lv co ac me da cx).
  { intros. unfold createLogEntry, after. rewrite Hcfg. reflexivity. }
  assert (Hafter : after = outputLog note st1) by reflexivity.
  assert (Hlevel : LogEntry.level note = "info") by apply level_createLogEntry.
  split; [apply merge_config_is_spread|].
  split; [apply Hcfg|].
  split; [exact Hafter|].
  split; [exact Hlevel|].
  split; [subst note; rewrite data_createLogEntry; reflexivity|].
  split; [subst note; rewrite data_createLogEntry; reflexivity|].
  split; [rewrite Hafter, logBuffer_outputLog, Hlevel; reflexivity|].
  split; [rewrite Hafter, console_outputLog, Hlevel; reflexivity|].
  split.
  { intros H. rewrite Hafter. apply outputLog_reject. rewrite Hlevel. exact H. }
  split.
  { intros l clk' co ac me da cx.
    pose proof (Hfilter newConfig l) as Hf. fold after merged in Hf.
    rewrite logBuffer_leveled, Hf, Hentry. reflexivity. }
  pose proof (Hfilter (level_only "error")) as Hs. fold silenced in Hs.
  split.
  { intros l clk' co ac me da cx Hl. apply leveled_reject.
    rewrite Hs. destruct l; try contradiction; apply andb_false_r. }
  pose proof (Hs ERROR) as He. change (level_name ERROR) with "error" in He.
  assert (Hlevel' : DebugConfig.level (merge_config (config st) (level_only "error"))
                    = "error") by reflexivity.
  assert (Henabled : DebugConfig.enabled (merge_config (config st) (level_only "error"))
                     = DebugConfig.enabled (config st)) by reflexivity.
  rewrite Hlevel', Henabled in He. change (indexOf levels "error" <=? indexOf levels "error")
    with true in He. rewrite andb_true_r in He.
  split.
  { intros clk' co ac me da cx.
    change (error clk' co ac me da cx silenced)
      with (leveled ERROR clk' co ac me da cx silenced).
    rewrite logBuffer_leveled. change (level_name ERROR) with "error".
    rewrite He. reflexivity. }
  split.
  { intros Hbefore. rewrite He.
    unfold shouldLog in Hbefore.
    destruct (DebugConfig.enabled (config st)); [reflexivity | discriminate]. }
  destruct (call_updateConfig clk newConfig i) as (_ & Hthis & Hview & Hold).
  fold updated in Hthis, Hview, Hold.
  assert (Hmerged : config (updateConfig clk newConfig (view i))
                    = merge_config (current i) newConfig) by apply Hcfg.
  rewrite Hmerged in Hthis.
  assert (Hcurrent : current updated = merge_config (current i) newConfig).
  { unfold current. rewrite Hthis. reflexivity. }
  assert (Hsome : is_Some (objects updated !! this_config updated)) by (rewrite Hthis; eauto).
  destruct (getConfig_is_a_copy updated Hsome)
    as (Hfresh & Hne & Hcopy & Hsame & Hhanded & Hassign).
  fold handed copy in Hfresh, Hne, Hcopy, Hsame, Hhanded, Hassign.
  rewrite Hcurrent in Hcopy.
  split; [exact Hview|]. split; [exact Hthis|]. split; [exact Hold|].
  split; [exact Hfresh|]. split; [exact Hne|]. split; [exact Hcopy|].
  split; [exact Hhanded|].
  intros c. destruct (Hassign c) as [Hv Hs'].
  assert (Hc : current (assign copy c handed) = merge_config (current i) newConfig).
  { unfold assign, current. cbn [objects this_config fields].
    rewrite Hsame, lookup_insert_ne by congruence.
    destruct (getConfig_is_a_copy updated Hsome) as (_ & _ & _ & _ & Hh & _).
    fold handed in Hh. unfold view, current in Hh.
    assert (Hobj : objects handed !! this_config updated = objects updated !! this_config updated).
    { unfold handed, getConfig.
      destruct (allocate (current updated) (objects updated)) as [a objs] eqn:E.
      pose proof (allocate_fresh (current updated) (objects updated)) as (_ & _ & Hk).
      rewrite E in Hk. cbn [fst snd objects] in *. apply Hk, Hsome. }
    rewrite Hobj, Hthis. reflexivity. }
  split; [exact Hv|]. split; [exact Hc|].
  destruct (getConfig_is_a_copy (assign copy c handed) Hs')
    as (Hfresh2 & _ & Hcopy2 & _).
  rewrite Hc in Hcopy2. split; [exact Hcopy2|].
  intros Heq. rewrite Heq in Hfresh2. unfold assign in Hfresh2.
  cbn [objects] in Hfresh2. rewrite lookup_insert_eq in Hfresh2. discriminate.
Qed.

(** The instance of the specification on the default logger, whose level
    is [debug]: the note of an update that keeps the level is retained,
    and after [updateConfig({level: 'error'})] the copy handed out reads
    [error] while disabling the copy leaves the logger enabled. *)
Lemma updateConfig_merges_and_takes_effect_witness :
  let after := updateConfig clock0 (level_only "error") default_logger in
  let updated := call (CallUpdateConfig clock0 (level_only "error")) default_instance in
  let handed := fst (getConfig updated) in
  let copy := snd (getConfig updated) in
  view updated = after
  /\ (DebugConfig.level <$> (objects handed !! copy)) = Some "error"
  /\ DebugConfig.enabled
       (current (assign copy (with_enabled false (current handed)) handed)) = true
  /\ info clock0 "app" "start" "hello" VUndef VUndef after = after
  /\ shouldLog default_logger "error" = true
  /\ logBuffer (error clock0 "app" "crash" "boom" VUndef VUndef after)
     = logBuffer after
       ++ [createLogEntry after clock0 "error" "app" "crash" "boom" VUndef VUndef]
  /\ length (logBuffer (updateConfig clock0 console_off default_logger)) = 2%nat.
Proof.
  pose proof (updateConfig_merges_and_takes_effect clock0 (level_only "error")
                default_logger default_instance)
    as (_ & _ & _ & _ & _ & _ & _ & _ & _ & _ & Hsilenced & Herror & _ & Hview & _ & _
        & _ & _ & Hcopy & _ & Hassign).
  cbv zeta in *.
  split; [rewrite Hview; reflexivity|].
  split; [rewrite Hcopy; reflexivity|].
  split.
  { destruct (Hassign (with_enabled false
                (current (fst (getConfig
                   (call (CallUpdateConfig clock0 (level_only "error")) default_instance))))))
      as (_ & Hc & _).
    rewrite Hc. reflexivity. }
  split; [apply (Hsilenced INFO); discriminate|].
  split; [reflexivity|].
  split; [rewrite Herror; vm_compute; reflexivity|].
  reflexivity.
Defined.

Example stringify_sample :
  JSON_stringify 0 (VArr 5 [VNum 1; VArr 6 []; VNaN; VUndef; VBool false])
  = Some "[1,[],null,null,false]"
  /\ JSON_stringify 2 (VArr 5 [VNum 1; VArr 6 []; VNull])
     = Some ("[" +:+ nl +:+ "  1," +:+ nl +:+ "  []," +:+ nl +:+ "  null" +:+ nl +:+ "]")
  /\ JSON_stringify 2 (VObj 5 [("a", VUndef); ("b", VArr 6 [VNum (-7)])])
     = Some ("{" +:+ nl +:+ "  " +:+ String dquote "b" +:+ String dquote ": ["
               +:+ nl +:+ "    -7" +:+ nl +:+ "  ]" +:+ nl +:+ "}")
  /\ JSON_stringify 2 VUndef = None.
Proof. repeat split. Qed.

Example parse_sample :
  (JSON_stringify 2 sample_payload ≫= JSON_parse)
  = Some (VObj lit [ ("n", VNum (-42)); ("s", VStr "a b");
                     ("l", VArr lit [VNum 1; VNull; VArr lit []]);
                     ("o", VObj lit []); ("t", VBool true) ])
  /\ (JSON_stringify 0 sample_payload ≫= JSON_parse)
     = (JSON_stringify 2 sample_payload ≫= JSON_parse).
Proof. vm_compute. repeat split. Qed.

(** ** Strings *)

Lemma str_app_cons (c : ascii) (s t : string) : String c s +:+ t = String c (s +:+ t).
Proof. reflexivity. Qed.

Lemma str_app_nil_l (s : string) : EmptyString +:+ s = s.
Proof. reflexivity. Qed.

Lemma str_app_nil_r (s : string) : s +:+ EmptyString = s.
Proof. induction s as [|c s IH]; [reflexivity|]. rewrite str_app_cons, IH. reflexivity. Qed.

Lemma str_app_assoc (s t u : string) : (s +:+ t) +:+ u = s +:+ (t +:+ u).
Proof. induction s as [|c s IH]; [reflexivity|]. rewrite !str_app_cons, IH. reflexivity. Qed.

Lemma str_length_app (s t : string) :
  String.length (s +:+ t) = (String.length s + String.length t)%nat.
Proof. induction s as [|c s IH]; [reflexivity|]. rewrite str_app_cons. simpl. rewrite IH. reflexivity. Qed.

Lemma skip_ws_spaces (n : nat) (s : string) : skip_ws (spaces n +:+ s) = skip_ws s.
Proof. induction n as [|n IH]; [reflexivity|]. simpl spaces. rewrite str_app_cons. simpl. exact IH. Qed.

Lemma skip_ws_nl_spaces (n : nat) (s : string) :
  skip_ws (nl +:+ spaces n +:+ s) = skip_ws s.
Proof. unfold nl. rewrite str_app_cons, str_app_nil_l. simpl. apply skip_ws_spaces. Qed.

(** ** Numbers *)

Lemma digit_of_pretty_N_char (d : N) :
  (d < 10)%N -> digit_of (pretty_N_char d) = Some d.
Proof.
  intros H.
  assert (d = 0 \/ d = 1 \/ d = 2 \/ d = 3 \/ d = 4 \/ d = 5 \/ d = 6 \/ d = 7
          \/ d = 8 \/ d = 9)%N as Hd by lia.
  decompose [or] Hd; subst; reflexivity.
Qed.

Lemma pretty_N_go_app (x : N) (s : string) :
  pretty_N_go x s = pretty_N_go x EmptyString +:+ s.
Proof.
  revert s. induction (N.lt_wf_0 x) as [x _ IH]; intros s.
  destruct (N.eq_dec x 0%N) as [->|Hx].
  - rewrite !pretty_N_go_0. reflexivity.
  - assert (0 < x)%N as Hpos by lia.
    rewrite (pretty_N_go_step x s), (pretty_N_go_step x EmptyString) by exact Hpos.
    assert (x `div` 10 < x)%N as Hlt by (apply N.div_lt; lia).
    rewrite (IH _ Hlt (String _ s)), (IH _ Hlt (String _ EmptyString)).
    rewrite str_app_assoc. reflexivity.
Qed.

Lemma parse_digits_pretty_N_go (x : N) :
  exists k : N, forall (acc : N) (s : string),
    parse_digits acc (pretty_N_go x s) = parse_digits (acc * k + x) s.
Proof.
  induction (N.lt_wf_0 x) as [x _ IH].
  destruct (N.eq_dec x 0%N) as [->|Hx].
  - exists 1%N. intros acc s. rewrite pretty_N_go_0. f_equal. lia.
  - assert (0 < x)%N as Hpos by lia.
    assert (x `div` 10 < x)%N as Hlt by (apply N.div_lt; lia).
    destruct (IH _ Hlt) as [k Hk]. exists (10 * k)%N. intros acc s.
    rewrite pretty_N_go_step by exact Hpos. rewrite Hk. simpl parse_digits.
    rewrite digit_of_pretty_N_char by (apply N.mod_lt; lia).
    f_equal. pose proof (N.div_mod x 10 ltac:(lia)). lia.
Qed.

Lemma pretty_N_go_head (x : N) (s : string) :
  (0 < x)%N ->
  exists (c : ascii) (r : string) (d : N),
    pretty_N_go x s = String c r /\ digit_of c = Some d /\ d <> 0%N.
Proof.
  revert s. induction (N.lt_wf_0 x) as [x _ IH]. intros s Hpos.
  rewrite pretty_N_go_step by exact Hpos.
  destruct (N.eq_dec (x `div` 10)%N 0%N) as [E|E].
  - rewrite E, pretty_N_go_0.
    assert (x < 10)%N as Hsmall by (apply N.div_small_iff in E; lia).
    rewrite N.mod_small by exact Hsmall.
    exists (pretty_N_char x), s, x.
    split; [reflexivity|]. split; [apply digit_of_pretty_N_char, Hsmall | lia].
  - apply IH; [apply N.div_lt; lia | apply N.neq_0_lt_0; exact E].
Qed.

Lemma parse_digits_stop (acc : N) (s : string) :
  no_digit_ahead s = true -> parse_digits acc s = (acc, s).
Proof.
  destruct s as [|c s]; [reflexivity|]. simpl.
  destruct (digit_of c); [discriminate | reflexivity].
Qed.

Lemma parse_int_pretty_N (x : N) (rest : string) :
  no_digit_ahead rest = true ->
  parse_int (pretty x +:+ rest) = Some (x, rest).
Proof.
  intros Hrest. unfold pretty, pretty_N.
  destruct (decide (x = 0%N)) as [->|Hx]; [reflexivity|].
  rewrite <- pretty_N_go_app.
  destruct (pretty_N_go_head x rest ltac:(lia)) as (c & r & d & Hgo & Hd & Hd0).
  destruct (parse_digits_pretty_N_go x) as [k Hk].
  pose proof (Hk 0%N rest) as Hparse. rewrite Hgo in Hparse |- *.
  simpl in Hparse |- *. rewrite Hd in Hparse |- *.
  replace (10 * 0 + d)%N with d in Hparse by lia.
  replace (0 * k + x)%N with x in Hparse by lia.
  rewrite (parse_digits_stop x rest Hrest) in Hparse.
  destruct d as [|p]; [contradiction|]. rewrite Hparse. reflexivity.
Qed.

Lemma digit_not_minus (c : ascii) (d : N) :
  digit_of c = Some d -> Ascii.eqb c "-" = false.
Proof.
  destruct c as [[] [] [] [] [] [] [] []]; intros H; try reflexivity; discriminate H.
Qed.

Lemma starts_with_same (c : ascii) (r : string) : starts_with c (String c r) = Some r.
Proof. simpl. rewrite Ascii.eqb_refl. reflexivity. Qed.

Lemma parse_number_pretty (z : Z) (rest : string) :
  boundary rest = true -> parse_number (pretty z +:+ rest) = Some (VNum z, rest).
Proof.
  unfold boundary. intros H. apply andb_true_iff in H as [Hdigit Hends].
  unfold parse_number. destruct z as [|p|p].
  - change (pretty 0) with "0". rewrite str_app_cons, str_app_nil_l. simpl. rewrite Hends. reflexivity.
  - change (pretty (Z.pos p)) with (pretty (N.pos p)).
    assert (Hhead : starts_with "-" (pretty (N.pos p) +:+ rest) = None).
    { unfold pretty, pretty_N. rewrite decide_False by discriminate.
      rewrite <- pretty_N_go_app.
      destruct (pretty_N_go_head (N.pos p) rest ltac:(lia)) as (c & r & d & Hgo & Hd & _).
      rewrite Hgo. simpl. rewrite (digit_not_minus c d Hd). reflexivity. }
    rewrite Hhead, (parse_int_pretty_N _ _ Hdigit), Hends. reflexivity.
  - change (pretty (Z.neg p)) with ("-" +:+ pretty (N.pos p)).
    rewrite str_app_assoc, str_app_cons, str_app_nil_l, starts_with_same.
    rewrite (parse_int_pretty_N _ _ Hdigit), Hends. reflexivity.
Qed.

Lemma pretty_Z_head (z : Z) :
  exists (c : ascii) (r : string), pretty z = String c r /\ number_head c = true.
Proof.
  destruct z as [|p|p].
  - exists "0"%char, EmptyString. split; reflexivity.
  - change (pretty (Z.pos p)) with (pretty (N.pos p)).
    unfold pretty, pretty_N. rewrite decide_False by discriminate.
    destruct (pretty_N_go_head (N.pos p) EmptyString ltac:(lia)) as (c & r & d & Hgo & Hd & _).
    exists c, r. split; [exact Hgo|]. unfold number_head. rewrite Hd. apply orb_true_r.
  - exists "-"%char, (pretty (N.pos p)). split; reflexivity.
Qed.

Lemma parse_value_number (fuel : nat) (c : ascii) (r : string) :
  number_head c = true ->
  parse_value (S fuel) (String c r) = parse_number (String c r).
Proof.
  destruct c as [[] [] [] [] [] [] [] []]; intros H; try discriminate H; reflexivity.
Qed.

(** ** String literals *)

Lemma parse_string_body_quote (s rest : string) :
  parse_string_body (quote_body s +:+ String dquote rest) = Some (s, rest).
Proof.
  unfold dquote. induction s as [|c s IH]; [reflexivity|].
  simpl quote_body. rewrite str_app_assoc.
  destruct c as [[] [] [] [] [] [] [] []];
    match goal with
    | |- context [quote_char ?c] =>
        let q := eval vm_compute in (quote_char c) in change (quote_char c) with q
    end;
    rewrite ?str_app_cons, ?str_app_nil_l; simpl; rewrite IH; reflexivity.
Qed.

(** ** The text of arrays and objects *)

Lemma ws_only_sep_ws (gap indent : nat) : ws_only (sep_ws gap indent).
Proof.
  intros s. unfold sep_ws. destruct (Nat.eqb gap 0); [reflexivity|].
  rewrite str_app_assoc. apply skip_ws_nl_spaces.
Qed.

Lemma join_elements (sepws : string) (parts : list string) (tail : string) :
  parts <> [] ->
  sepws +:+ join ("," +:+ sepws) parts +:+ tail = elements_text sepws parts tail.
Proof.
  induction parts as [|p parts IH]; [contradiction|]. intros _.
  destruct parts as [|q parts]; [reflexivity|].
  change (join ("," +:+ sepws) (p :: q :: parts))
    with (p +:+ ("," +:+ sepws) +:+ join ("," +:+ sepws) (q :: parts)).
  change (elements_text sepws (p :: q :: parts) tail)
    with (sepws +:+ p +:+ "," +:+ elements_text sepws (q :: parts) tail).
  rewrite <- IH by discriminate. rewrite !str_app_assoc. reflexivity.
Qed.

Lemma bracket_elements (opening closing : string) (gap stepback : nat)
    (parts : list string) (rest : string) :
  parts <> [] ->
  bracket opening closing gap stepback parts +:+ rest =
  opening +:+ elements_text (sep_ws gap (stepback + gap)) parts
                (sep_ws gap stepback +:+ closing +:+ rest).
Proof.
  intros Hne. rewrite <- join_elements by exact Hne.
  unfold bracket, sep_ws. destruct parts as [|p parts]; [contradiction|].
  destruct (Nat.eqb gap 0).
  - rewrite str_app_nil_r, !str_app_nil_l, !str_app_assoc. reflexivity.
  - rewrite !str_app_assoc. reflexivity.
Qed.

Lemma total_le (sepws : string) (parts : list string) (tail : string) :
  parts <> [] ->
  (total parts + String.length tail <= S (String.length (elements_text sepws parts tail)))%nat.
Proof.
  induction parts as [|p parts IH]; [contradiction|]. intros _.
  destruct parts as [|q parts].
  - simpl. rewrite !str_length_app. lia.
  - change (elements_text sepws (p :: q :: parts) tail)
      with (sepws +:+ p +:+ "," +:+ elements_text sepws (q :: parts) tail).
    change (total (p :: q :: parts)) with (S (String.length p + total (q :: parts))).
    specialize (IH ltac:(discriminate)).
    rewrite !str_length_app. cbn [String.length]. lia.
Qed.

(** ** Unfolding the parser *)

Lemma parse_value_ws (fuel : nat) (s s' : string) :
  skip_ws s = skip_ws s' -> parse_value fuel s = parse_value fuel s'.
Proof. intros H. destruct fuel; [reflexivity|]. simpl. rewrite H. reflexivity. Qed.

Lemma parse_members_ws (fuel : nat) (s s' : string) :
  skip_ws s = skip_ws s' -> parse_members fuel s = parse_members fuel s'.
Proof. intros H. destruct fuel; [reflexivity|]. simpl. rewrite H. reflexivity. Qed.

Lemma parse_value_string (fuel : nat) (body : string) :
  parse_value (S fuel) (String dquote body) =
  match parse_string_body body with
  | Some (str, rest') => Some (VStr str, rest')
  | None => None
  end.
Proof. reflexivity. Qed.

Lemma parse_value_array (fuel : nat) (body : string) :
  parse_value (S fuel) (String "[" body) =
  match starts_with "]" (skip_ws body) with
  | Some rest' => Some (VArr lit [], rest')
  | None =>
      match parse_elements fuel body with
      | Some (items, rest') => Some (VArr lit items, rest')
      | None => None
      end
  end.
Proof. reflexivity. Qed.

Lemma parse_value_object (fuel : nat) (body : string) :
  parse_value (S fuel) (String "{" body) =
  match starts_with "}" (skip_ws body) with
  | Some rest' => Some (VObj lit [], rest')
  | None =>
      match parse_members fuel body with
      | Some (members, rest') => Some (VObj lit (spread [] members), rest')
      | None => None
      end
  end.
Proof. reflexivity. Qed.

Lemma parse_elements_S (fuel : nat) (s : string) :
  parse_elements (S fuel) s =
  match parse_value fuel s with
  | Some (x, rest) =>
      match starts_with "," (skip_ws rest) with
      | Some rest' =>
          match parse_elements fuel rest' with
          | Some (items, rest'') => Some (x :: items, rest'')
          | None => None
          end
      | None =>
          match starts_with "]" (skip_ws rest) with
          | Some rest' => Some ([x], rest')
          | None => None
          end
      end
  | None => None
  end.
Proof. reflexivity. Qed.

Lemma parse_members_S (fuel : nat) (s : string) :
  parse_members (S fuel) s =
  match starts_with dquote (skip_ws s) with
  | Some rest =>
      match parse_string_body rest with
      | Some (key, rest1) =>
          match starts_with ":" (skip_ws rest1) with
          | Some rest2 =>
              match parse_value fuel rest2 with
              | Some (x, rest3) =>
                  match starts_with "," (skip_ws rest3) with
                  | Some rest4 =>
                      match parse_members fuel rest4 with
                      | Some (members, rest5) => Some ((key, x) :: members, rest5)
                      | None => None
                      end
                  | None =>
                      match starts_with "}" (skip_ws rest3) with
                      | Some rest4 => Some ([(key, x)], rest4)
                      | None => None
                      end
                  end
              | None => None
              end
          | None => None
          end
      | None => None
      end
  | None => None
  end.
Proof. reflexivity. Qed.

Lemma skip_ws_value_head (txt r : string) :
  value_head txt = true -> skip_ws (txt +:+ r) = txt +:+ r.
Proof.
  destruct txt as [|c txt]; [discriminate|]. simpl value_head. intros H.
  rewrite str_app_cons. simpl. destruct (is_ws c); [discriminate | reflexivity].
Qed.

Lemma starts_with_value_head (txt r : string) :
  value_head txt = true ->
  starts_with "]" (txt +:+ r) = None /\ starts_with "}" (txt +:+ r) = None.
Proof.
  destruct txt as [|c txt]; [discriminate|]. simpl value_head. intros H.
  rewrite str_app_cons. simpl.
  destruct (Ascii.eqb c "]"), (Ascii.eqb c "}"), (is_ws c); try discriminate.
  split; reflexivity.
Qed.

Lemma skip_ws_elements_text (sepws : string) (p : string) (parts : list string)
    (tail : string) :
  ws_only sepws -> value_head p = true ->
  exists r, elements_text sepws (p :: parts) tail = sepws +:+ p +:+ r
            /\ skip_ws (elements_text sepws (p :: parts) tail) = p +:+ r.
Proof.
  intros Hws Hp.
  destruct parts as [|q parts].
  - exists tail. split; [reflexivity|]. simpl. rewrite Hws. apply skip_ws_value_head, Hp.
  - exists ("," +:+ elements_text sepws (q :: parts) tail). split; [reflexivity|].
    change (elements_text sepws (p :: q :: parts) tail)
      with (sepws +:+ p +:+ "," +:+ elements_text sepws (q :: parts) tail).
    rewrite Hws. apply skip_ws_value_head, Hp.
Qed.

(** ** Parsing what was printed *)

Lemma skip_ws_comma (s : string) : skip_ws ("," +:+ s) = String "," s.
Proof. reflexivity. Qed.

Lemma parse_elements_text (gap indent : nat) (items : list jsval) :
  Forall parses_back items ->
  forallb is_json items = true ->
  items <> [] ->
  forall (sepws tail rest : string) (fuel : nat),
    ws_only sepws ->
    boundary tail = true ->
    starts_with "," (skip_ws tail) = None ->
    starts_with "]" (skip_ws tail) = Some rest ->
    (total (map (fun x => default "null" (SerializeJSONProperty gap indent x)) items)
     <= fuel)%nat ->
    parse_elements fuel
      (elements_text sepws
         (map (fun x => default "null" (SerializeJSONProperty gap indent x)) items) tail)
    = Some (items, rest).
Proof.
  induction 1 as [|x items Hx Hitems IH]; [contradiction|].
  intros Hjson _ sepws tail rest fuel Hws Htail Hcomma Hclose Hfuel.
  simpl in Hjson. apply andb_true_iff in Hjson as [Hjx Hjitems].
  destruct (Hx Hjx gap indent) as (txt & Hser & Hhead & Hparse).
  rewrite map_cons, Hser in Hfuel |- *. simpl default in Hfuel |- *.
  cbn [total] in Hfuel. destruct fuel as [|fuel]; [lia|].
  rewrite parse_elements_S.
  destruct items as [|y items].
  - simpl map. cbn [elements_text].
    rewrite (parse_value_ws fuel _ (txt +:+ tail)) by apply Hws.
    rewrite Hparse by (try exact Htail; lia).
    rewrite Hcomma, Hclose. reflexivity.
  - specialize (IH Hjitems ltac:(discriminate) sepws tail rest fuel Hws Htail Hcomma Hclose).
    remember (map (fun x => default "null" (SerializeJSONProperty gap indent x)) (y :: items))
      as parts eqn:Hparts.
    assert (Hshape : elements_text sepws (txt :: parts) tail
                     = sepws +:+ txt +:+ "," +:+ elements_text sepws parts tail).
    { rewrite Hparts. reflexivity. }
    rewrite Hshape.
    rewrite (parse_value_ws fuel _ (txt +:+ "," +:+ elements_text sepws parts tail))
      by apply Hws.
    rewrite Hparse by (try reflexivity; lia).
    rewrite skip_ws_comma, starts_with_same.
    rewrite IH by lia. reflexivity.
Qed.

Lemma member_text (gap : nat) (key txt r : string) :
  member gap key txt +:+ r =
  String dquote (quote_body key +:+ String dquote
    (":" +:+ (if Nat.eqb gap 0 then EmptyString else " ") +:+ txt +:+ r)).
Proof.
  unfold member, QuoteJSONString.
  rewrite !str_app_assoc, str_app_cons, str_app_assoc, str_app_cons, str_app_nil_l. reflexivity.
Qed.

Lemma length_member (gap : nat) (key txt : string) :
  (String.length txt <= String.length (member gap key txt))%nat.
Proof. unfold member. rewrite !str_length_app. lia. Qed.

Lemma ws_only_colon_gap (gap : nat) :
  ws_only (if Nat.eqb gap 0 then EmptyString else " ").
Proof. intros s. destruct (Nat.eqb gap 0); reflexivity. Qed.

Lemma parse_members_text (gap indent : nat) (props : list (string * jsval)) :
  Forall (fun kv => parses_back (snd kv)) props ->
  forallb (fun kv => is_json (snd kv)) props = true ->
  props <> [] ->
  forall (sepws tail rest : string) (fuel : nat),
    ws_only sepws ->
    boundary tail = true ->
    starts_with "," (skip_ws tail) = None ->
    starts_with "}" (skip_ws tail) = Some rest ->
    (total (omap (fun kv => member gap (fst kv)
                    <$> SerializeJSONProperty gap indent (snd kv)) props)
     <= fuel)%nat ->
    parse_members fuel
      (elements_text sepws
         (omap (fun kv => member gap (fst kv)
                  <$> SerializeJSONProperty gap indent (snd kv)) props) tail)
    = Some (props, rest).
Proof.
  induction 1 as [|[k x] props Hx Hprops IH]; [contradiction|].
  intros Hjson _ sepws tail rest fuel Hws Htail Hcomma Hclose Hfuel.
  simpl in Hjson. apply andb_true_iff in Hjson as [Hjx Hjprops].
  simpl in Hx. destruct (Hx Hjx gap indent) as (txt & Hser & Hhead & Hparse).
  remember (omap (fun kv => member gap (fst kv)
                    <$> SerializeJSONProperty gap indent (snd kv)) props)
    as parts eqn:Hparts.
  assert (Hcons : omap (fun kv => member gap (fst kv)
                          <$> SerializeJSONProperty gap indent (snd kv)) ((k, x) :: props)
                  = member gap k txt :: parts).
  { simpl. rewrite Hser, Hparts. reflexivity. }
  rewrite Hcons in Hfuel |- *. cbn [total] in Hfuel.
  pose proof (length_member gap k txt) as Hlen.
  destruct fuel as [|fuel]; [lia|].
  rewrite parse_members_S.
  assert (Hstep : forall r, boundary r = true ->
            match starts_with dquote (skip_ws (sepws +:+ member gap k txt +:+ r)) with
            | Some rest0 =>
                match parse_string_body rest0 with
                | Some (key, rest1) =>
                    match starts_with ":" (skip_ws rest1) with
                    | Some rest2 =>
                        match parse_value fuel rest2 with
                        | Some (x', rest3) => Some (key, x', rest3)
                        | None => None
                        end
                    | None => None
                    end
                | None => None
                end
            | None => None
            end = Some (k, x, r)).
  { intros r Hr. rewrite Hws, member_text.
    change (skip_ws (String dquote ?s)) with (String dquote s).
    rewrite starts_with_same, parse_string_body_quote.
    change (skip_ws (":" +:+ ?s)) with (String ":" s).
    rewrite starts_with_same.
    rewrite (parse_value_ws fuel _ (txt +:+ r)) by apply ws_only_colon_gap.
    rewrite Hparse by (try exact Hr; lia). reflexivity. }
  destruct props as [|kv props].
  - subst parts. simpl omap in *. cbn [elements_text].
    specialize (Hstep tail Htail).
    destruct (starts_with dquote _) as [rest0|]; [|discriminate].
    destruct (parse_string_body rest0) as [[key rest1]|]; [|discriminate].
    destruct (starts_with ":" _) as [rest2|]; [|discriminate].
    destruct (parse_value fuel rest2) as [[x' rest3]|]; [|discriminate].
    injection Hstep as -> -> ->. rewrite Hcomma, Hclose. reflexivity.
  - specialize (IH Hjprops ltac:(discriminate) sepws tail rest fuel Hws Htail Hcomma Hclose).
    assert (Hne : parts <> []).
    { rewrite Hparts. simpl in Hjprops. apply andb_true_iff in Hjprops as [Hjkv _].
      apply Forall_inv in Hprops.
      destruct (Hprops Hjkv gap indent) as (t & Ht & _).
      simpl. rewrite Ht. discriminate. }
    destruct parts as [|q parts]; [contradiction|].
    change (elements_text sepws (member gap k txt :: q :: parts) tail)
      with (sepws +:+ member gap k txt +:+ "," +:+ elements_text sepws (q :: parts) tail).
    specialize (Hstep ("," +:+ elements_text sepws (q :: parts) tail) eq_refl).
    destruct (starts_with dquote _) as [rest0|]; [|discriminate].
    destruct (parse_string_body rest0) as [[key rest1]|]; [|discriminate].
    destruct (starts_with ":" _) as [rest2|]; [|discriminate].
    destruct (parse_value fuel rest2) as [[x' rest3]|]; [|discriminate].
    injection Hstep as -> -> ->.
    rewrite skip_ws_comma, starts_with_same.
    change (parse_members fuel _)
      with (parse_members fuel (elements_text sepws (q :: parts) tail)).
    rewrite IH by lia. reflexivity.
Qed.

Lemma set_prop_absent (k : string) (v : jsval) (props : list (string * jsval)) :
  has_prop k props = false -> set_prop k v props = props ++ [(k, v)].
Proof.
  induction props as [|[k' x] props IH]; simpl; [reflexivity|].
  intros H. apply orb_false_iff in H as [Hk Hrest]. rewrite Hk, IH by exact Hrest.
  reflexivity.
Qed.

Lemma spread_fresh (acc props : list (string * jsval)) :
  nodup_keys (map fst props) = true ->
  (forall k, In k (map fst props) -> has_prop k acc = false) ->
  spread acc props = acc ++ props.
Proof.
  revert acc. induction props as [|[k v] props IH]; intros acc Hnodup Hfresh.
  - simpl. rewrite List.app_nil_r. reflexivity.
  - simpl in Hnodup. apply andb_true_iff in Hnodup as [Hk Hnodup].
    apply negb_true_iff in Hk.
    unfold spread in *. simpl fold_left.
    rewrite set_prop_absent by (apply Hfresh; left; reflexivity).
    rewrite IH.
    + rewrite <- List.app_assoc. reflexivity.
    + exact Hnodup.
    + intros k' Hk'. destruct (has_prop k' (acc ++ [(k, v)])) eqn:E; [|reflexivity].
      apply has_prop_In in E. rewrite map_app, in_app_iff in E. simpl in E.
      destruct E as [E|[E|[]]].
      * apply has_prop_In in E. rewrite Hfresh in E by (right; exact Hk'). discriminate.
      * subst k'. apply existsb_eqb_In in Hk'. rewrite Hk' in Hk. discriminate.
Qed.

Lemma spread_nil (props : list (string * jsval)) :
  nodup_keys (map fst props) = true -> spread [] props = props.
Proof. intros H. apply spread_fresh; [exact H | reflexivity]. Qed.

Lemma length_pretty_Z (z : Z) : (1 <= String.length (pretty z))%nat.
Proof. destruct (pretty_Z_head z) as (c & r & -> & _). simpl. lia. Qed.

Lemma value_head_number (c : ascii) (r : string) :
  number_head c = true -> value_head (String c r) = true.
Proof.
  destruct c as [[] [] [] [] [] [] [] []]; intros H; try discriminate H; reflexivity.
Qed.

Lemma boundary_closing (gap stepback : nat) (closing rest : string) :
  closing = "]" \/ closing = "}" ->
  boundary (sep_ws gap stepback +:+ closing +:+ rest) = true
  /\ starts_with "," (skip_ws (sep_ws gap stepback +:+ closing +:+ rest)) = None
  /\ skip_ws (sep_ws gap stepback +:+ closing +:+ rest) = closing +:+ rest.
Proof.
  intros Hc. rewrite ws_only_sep_ws. unfold sep_ws.
  destruct Hc as [-> | ->]; destruct (Nat.eqb gap 0); repeat split.
Qed.

Theorem parses_back_all (w : jsval) : parses_back w.
Proof.
  induction w as [| |b|z| |s|i items IH|i props IH] using jsval_ind;
    intros Hjson gap stepback; try discriminate Hjson.
  - exists "null". split; [reflexivity|]. split; [reflexivity|].
    intros [|fuel] rest Hfuel _; [simpl in Hfuel; lia | reflexivity].
  - destruct b.
    + exists "true". split; [reflexivity|]. split; [reflexivity|].
      intros [|fuel] rest Hfuel _; [simpl in Hfuel; lia | reflexivity].
    + exists "false". split; [reflexivity|]. split; [reflexivity|].
      intros [|fuel] rest Hfuel _; [simpl in Hfuel; lia | reflexivity].
  - exists (pretty z). split; [reflexivity|].
    destruct (pretty_Z_head z) as (c & r & Hz & Hc).
    split; [rewrite Hz; apply value_head_number, Hc|].
    intros [|fuel] rest Hfuel Hrest.
    + pose proof (length_pretty_Z z). lia.
    + rewrite <- (parse_number_pretty z rest Hrest). rewrite Hz, str_app_cons.
      apply parse_value_number, Hc.
  - exists (QuoteJSONString s). split; [reflexivity|]. split; [reflexivity|].
    intros [|fuel] rest Hfuel _; [simpl in Hfuel; lia|].
    unfold QuoteJSONString. rewrite str_app_cons, str_app_assoc, str_app_cons, str_app_nil_l.
    rewrite parse_value_string, parse_string_body_quote. reflexivity.
  - (* arrays *)
    simpl in Hjson. apply andb_true_iff in Hjson as [Hi Hitems].
    apply N.eqb_eq in Hi. subst i.
    exists (bracket "[" "]" gap stepback
              (map (fun x => default "null"
                      (SerializeJSONProperty gap (stepback + gap) x)) items)).
    split; [reflexivity|]. split.
    { unfold bracket. destruct (map _ items); [reflexivity|].
      destruct (Nat.eqb gap 0); reflexivity. }
    intros fuel rest Hfuel _.
    destruct items as [|x items].
    + destruct fuel as [|fuel]; [simpl in Hfuel; lia | reflexivity].
    + remember (x :: items) as all eqn:Hall.
      assert (Hne : all <> []) by (subst all; discriminate).
      set (parts := map _ all) in *.
      assert (Hparts : parts <> []) by (subst parts all; discriminate).
      pose proof (total_le (sep_ws gap (stepback + gap)) parts
                    (sep_ws gap stepback +:+ "]" +:+ EmptyString) Hparts) as Htotal.
      pose proof (bracket_elements "[" "]" gap stepback parts EmptyString Hparts) as Hlen.
      rewrite str_app_nil_r in Hlen. rewrite Hlen in Hfuel.
      rewrite str_app_cons, str_app_nil_l in Hfuel. simpl String.length in Hfuel.
      rewrite !str_length_app in Htotal. simpl String.length in Htotal.
      destruct fuel as [|fuel]; [lia|].
      rewrite bracket_elements by exact Hparts.
      rewrite str_app_cons, str_app_nil_l, parse_value_array.
      destruct (boundary_closing gap stepback "]" rest (or_introl eq_refl))
        as (Hb & Hcomma & Hskip).
      assert (Hfirst : starts_with "]"
                (skip_ws (elements_text (sep_ws gap (stepback + gap)) parts
                            (sep_ws gap stepback +:+ "]" +:+ rest))) = None).
      { subst parts all. rewrite map_cons. cbn beta.
        apply Forall_inv in IH. simpl in Hitems.
        apply andb_true_iff in Hitems as [Hx _].
        destruct (IH Hx gap (stepback + gap)%nat) as (txt & Hser & Hhead & _).
        rewrite Hser. simpl default.
        destruct (skip_ws_elements_text (sep_ws gap (stepback + gap)) txt
                    (map (fun x => default "null"
                            (SerializeJSONProperty gap (stepback + gap) x)) items)
                    (sep_ws gap stepback +:+ "]" +:+ rest)
                    (ws_only_sep_ws _ _) Hhead) as (r & _ & ->).
        apply starts_with_value_head, Hhead. }
      rewrite Hfirst.
      subst parts.
      rewrite (parse_elements_text gap (stepback + gap) all IH Hitems Hne _ _ rest).
      * reflexivity.
      * apply ws_only_sep_ws.
      * exact Hb.
      * exact Hcomma.
      * rewrite Hskip. apply starts_with_same.
      * lia.
  - (* objects *)
    simpl in Hjson. apply andb_true_iff in Hjson as [Hjson Hprops].
    apply andb_true_iff in Hjson as [Hi Hnodup].
    apply N.eqb_eq in Hi. subst i.
    exists (bracket "{" "}" gap stepback
              (omap (fun kv => member gap (fst kv)
                       <$> SerializeJSONProperty gap (stepback + gap) (snd kv)) props)).
    split; [reflexivity|]. split.
    { unfold bracket. destruct (omap _ props); [reflexivity|].
      destruct (Nat.eqb gap 0); reflexivity. }
    intros fuel rest Hfuel _.
    destruct props as [|kv props].
    + destruct fuel as [|fuel]; [simpl in Hfuel; lia | reflexivity].
    + remember (kv :: props) as all eqn:Hall.
      assert (Hne : all <> []) by (subst all; discriminate).
      set (parts := omap _ all) in *.
      assert (Hfirst_part : exists txt, SerializeJSONProperty gap (stepback + gap) (snd kv)
                                        = Some txt).
      { subst all. apply Forall_inv in IH. simpl in Hprops.
        apply andb_true_iff in Hprops as [Hx _].
        destruct (IH Hx gap (stepback + gap)%nat) as (txt & Hser & _). eauto. }
      destruct Hfirst_part as (txt0 & Htxt0).
      assert (Hshape : exists ps, parts = member gap (fst kv) txt0 :: ps).
      { subst parts all. simpl. rewrite Htxt0. simpl. eauto. }
      destruct Hshape as (ps & Hshape).
      assert (Hparts : parts <> []) by (rewrite Hshape; discriminate).
      pose proof (total_le (sep_ws gap (stepback + gap)) parts
                    (sep_ws gap stepback +:+ "}" +:+ EmptyString) Hparts) as Htotal.
      pose proof (bracket_elements "{" "}" gap stepback parts EmptyString Hparts) as Hlen.
      rewrite str_app_nil_r in Hlen. rewrite Hlen in Hfuel.
      rewrite str_app_cons, str_app_nil_l in Hfuel. simpl String.length in Hfuel.
      rewrite !str_length_app in Htotal. simpl String.length in Htotal.
      destruct fuel as [|fuel]; [lia|].
      rewrite bracket_elements by exact Hparts.
      rewrite str_app_cons, str_app_nil_l, parse_value_object.
      destruct (boundary_closing gap stepback "}" rest (or_intror eq_refl))
        as (Hb & Hcomma & Hskip).
      assert (Hfirst : starts_with "}"
                (skip_ws (elements_text (sep_ws gap (stepback + gap)) parts
                            (sep_ws gap stepback +:+ "}" +:+ rest))) = None).
      { rewrite Hshape.
        destruct (skip_ws_elements_text (sep_ws gap (stepback + gap))
                    (member gap (fst kv) txt0) ps
                    (sep_ws gap stepback +:+ "}" +:+ rest)
                    (ws_only_sep_ws _ _) eq_refl) as (r & _ & ->).
        reflexivity. }
      rewrite Hfirst.
      subst parts.
      rewrite (parse_members_text gap (stepback + gap) all IH Hprops Hne _ _ rest).
      * rewrite spread_nil by exact Hnodup. reflexivity.
      * apply ws_only_sep_ws.
      * exact Hb.
      * exact Hcomma.
      * rewrite Hskip. apply starts_with_same.
      * lia.
Qed.

(** ** The view of a value and its text *)

Lemma json_view_arr (i : N) (items : list jsval) :
  json_view (VArr i items) = VArr lit (map keep_element items).
Proof. reflexivity. Qed.

Lemma json_view_obj (i : N) (props : list (string * jsval)) :
  json_view (VObj i props) = VObj lit (omap keep_defined props).
Proof. reflexivity. Qed.

Lemma serialize_arr (gap stepback : nat) (i : N) (items : list jsval) :
  SerializeJSONProperty gap stepback (VArr i items) =
  Some (bracket "[" "]" gap stepback
          (map (fun x => default "null"
                  (SerializeJSONProperty gap (stepback + gap) x)) items)).
Proof. reflexivity. Qed.

Lemma serialize_obj (gap stepback : nat) (i : N) (props : list (string * jsval)) :
  SerializeJSONProperty gap stepback (VObj i props) =
  Some (bracket "{" "}" gap stepback
          (omap (fun kv => member gap (fst kv)
                   <$> SerializeJSONProperty gap (stepback + gap) (snd kv)) props)).
Proof. reflexivity. Qed.

Lemma serialize_json_view (v : jsval) (gap stepback : nat) :
  SerializeJSONProperty gap stepback (json_view v) = SerializeJSONProperty gap stepback v.
Proof.
  revert stepback.
  induction v as [| |b|z| |s|i items IH|i props IH] using jsval_ind;
    intros stepback; try reflexivity.
  - rewrite json_view_arr, !serialize_arr. f_equal. f_equal.
    induction IH as [|x items Hx _ IHitems]; [reflexivity|].
    rewrite !map_cons, IHitems. f_equal.
    destruct x; try reflexivity; unfold keep_element; rewrite Hx; reflexivity.
  - rewrite json_view_obj, !serialize_obj. f_equal. f_equal.
    induction IH as [|[k x] props Hx _ IHprops]; [reflexivity|].
    cbn [omap list_omap]. unfold keep_defined at 1. cbn [fst snd] in *.
    destruct x; cbn [omap list_omap fst snd]; rewrite ?Hx; fold keep_defined;
      try (rewrite IHprops; reflexivity); exact IHprops.
Qed.

Lemma existsb_keys_omap (k : string) (f : string * jsval -> option (string * jsval))
    (props : list (string * jsval)) :
  (forall kv kv', f kv = Some kv' -> fst kv' = fst kv) ->
  existsb (String.eqb k) (map fst props) = false ->
  existsb (String.eqb k) (map fst (omap f props)) = false.
Proof.
  intros Hf. induction props as [|kv props IH]; [reflexivity|].
  simpl. intros H. apply orb_false_iff in H as [Hk Hrest].
  destruct (f kv) as [kv'|] eqn:E; simpl.
  - rewrite (Hf _ _ E), Hk. apply IH, Hrest.
  - apply IH, Hrest.
Qed.

Lemma nodup_keys_omap (f : string * jsval -> option (string * jsval))
    (props : list (string * jsval)) :
  (forall kv kv', f kv = Some kv' -> fst kv' = fst kv) ->
  nodup_keys (map fst props) = true ->
  nodup_keys (map fst (omap f props)) = true.
Proof.
  intros Hf. induction props as [|kv props IH]; [reflexivity|].
  simpl. intros H. apply andb_true_iff in H as [Hk Hrest].
  destruct (f kv) as [kv'|] eqn:E; simpl; [|apply IH, Hrest].
  rewrite (Hf _ _ E). apply andb_true_iff. split; [|apply IH, Hrest].
  apply negb_true_iff. apply existsb_keys_omap; [exact Hf|].
  apply negb_true_iff. exact Hk.
Qed.

Lemma keep_defined_key kv kv' : keep_defined kv = Some kv' -> fst kv' = fst kv.
Proof.
  unfold keep_defined. destruct (snd kv); intros H; try discriminate;
    injection H as <-; reflexivity.
Qed.

Lemma is_json_view (v : jsval) :
  well_formed v = true -> v <> VUndef -> is_json (json_view v) = true.
Proof.
  induction v as [| |b|z| |s|i items IH|i props IH] using jsval_ind;
    intros Hwf Hdef; try reflexivity; try contradiction.
  - simpl in *. rewrite forallb_forall in Hwf. apply forallb_forall.
    intros y Hy. apply in_map_iff in Hy as (x & <- & Hx).
    rewrite Forall_forall in IH. apply list_elem_of_In in Hx.
    destruct x; try reflexivity;
      apply (IH _ Hx); try discriminate; apply Hwf, list_elem_of_In, Hx.
  - rewrite json_view_obj. simpl in Hwf |- *.
    apply andb_true_iff in Hwf as [Hnodup Hwf].
    rewrite (nodup_keys_omap keep_defined props keep_defined_key Hnodup). simpl.
    rewrite forallb_forall in Hwf. apply forallb_forall.
    intros kv' Hkv'. apply list_elem_of_In, list_elem_of_omap in Hkv' as (kv & Hkv & Hkeep).
    rewrite Forall_forall in IH. specialize (IH kv Hkv).
    apply list_elem_of_In in Hkv. specialize (Hwf kv Hkv).
    unfold keep_defined in Hkeep.
    destruct (snd kv) eqn:E; try discriminate; injection Hkeep as <-; simpl;
      apply IH; try discriminate; exact Hwf.
Qed.

(** [JSON.parse] gives back the view of what [JSON.stringify] printed. *)
Theorem JSON_parse_stringify (space : nat) (v : jsval) :
  well_formed v = true -> v <> VUndef ->
  exists txt : string,
    JSON_stringify space v = Some txt /\ JSON_parse txt = Some (json_view v).
Proof.
  intros Hwf Hdef.
  destruct (parses_back_all (json_view v) (is_json_view v Hwf Hdef) (Nat.min 10 space) 0%nat)
    as (txt & Hser & _ & Hparse).
  exists txt. split.
  - unfold JSON_stringify. rewrite <- serialize_json_view. exact Hser.
  - unfold JSON_parse.
    rewrite <- (str_app_nil_r txt) at 2.
    rewrite Hparse by (try reflexivity; lia). reflexivity.
Qed.

(** ** Field-wise equality *)

Lemma has_prop_existsb (k : string) (props : list (string * jsval)) :
  has_prop k props = existsb (String.eqb k) (map fst props).
Proof.
  induction props as [|[k' x] props IH]; [reflexivity|].
  simpl. rewrite IH, String.eqb_sym. reflexivity.
Qed.

Lemma get_prop_In (k : string) (props : list (string * jsval)) :
  has_prop k props = true -> In (k, get_prop k props) props.
Proof.
  induction props as [|[k' x] props IH]; simpl; [discriminate|].
  destruct (String.eqb k' k) eqn:E.
  - apply String.eqb_eq in E. subst k'. intros _. left. reflexivity.
  - simpl. intros H. right. apply IH, H.
Qed.

Lemma get_prop_keep_defined (kv : string * jsval) (props : list (string * jsval)) :
  nodup_keys (map fst props) = true ->
  In kv props ->
  get_prop (fst kv) (omap keep_defined props) =
  match snd kv with
  | VUndef => VUndef
  | _ => json_view (snd kv)
  end.
Proof.
  induction props as [|kv0 props IH]; [contradiction|].
  simpl map. simpl nodup_keys. intros Hnodup Hin.
  apply andb_true_iff in Hnodup as [Hfresh Hnodup]. apply negb_true_iff in Hfresh.
  destruct Hin as [->|Hin].
  - cbn [omap list_omap]. unfold keep_defined at 1.
    assert (Habsent : get_prop (fst kv) (omap keep_defined props) = VUndef).
    { apply get_prop_absent. rewrite has_prop_existsb.
      apply existsb_keys_omap; [apply keep_defined_key | exact Hfresh]. }
    destruct (snd kv); try exact Habsent; simpl; rewrite String.eqb_refl; reflexivity.
  - assert (Hne : String.eqb (fst kv0) (fst kv) = false).
    { apply String.eqb_neq. intros E. rewrite E in Hfresh.
      assert (existsb (String.eqb (fst kv)) (map fst props) = true) as Hyes.
      { apply existsb_eqb_In, in_map, Hin. }
      rewrite Hyes in Hfresh. discriminate. }
    cbn [omap list_omap]. destruct (keep_defined kv0) as [kv0'|] eqn:E.
    + apply keep_defined_key in E. destruct kv0' as [k0 x0]. simpl in E. subst k0.
      simpl. rewrite Hne. apply IH; assumption.
    + apply IH; assumption.
Qed.

Lemma same_value_arr (i j : N) (x y : jsval) (xs ys : list jsval) :
  same_value (VArr i (x :: xs)) (VArr j (y :: ys))
  = same_value x y && same_value (VArr i xs) (VArr j ys).
Proof. reflexivity. Qed.

Lemma same_value_obj (i j : N) (ps qs : list (string * jsval)) :
  same_value (VObj i ps) (VObj j qs)
  = forallb (fun kv => same_value (snd kv) (get_prop (fst kv) qs)) ps
    && forallb (fun kv => has_prop (fst kv) ps
                          || match snd kv with VUndef => true | _ => false end) qs.
Proof. reflexivity. Qed.

(** A value that is well formed and exact equals its view field by field. *)
Lemma same_value_json_view (v : jsval) :
  well_formed v = true -> json_exact v = true -> same_value v (json_view v) = true.
Proof.
  induction v as [| |b|z| |s|i items IH|i props IH] using jsval_ind;
    intros Hwf Hexact; try reflexivity; try discriminate.
  - destruct b; reflexivity.
  - simpl. apply Z.eqb_refl.
  - simpl. apply String.eqb_refl.
  - rewrite json_view_arr. simpl in Hwf, Hexact.
    induction IH as [|x items Hx _ IHitems]; [reflexivity|].
    simpl in Hwf, Hexact.
    apply andb_true_iff in Hwf as [Hwx Hwf].
    apply andb_true_iff in Hexact as [Hex Hexact].
    rewrite map_cons, same_value_arr, (IHitems Hwf Hexact), andb_true_r.
    destruct x; try discriminate; apply Hx; assumption.
  - rewrite json_view_obj, same_value_obj. simpl in Hwf, Hexact.
    apply andb_true_iff in Hwf as [Hnodup Hwf].
    rewrite forallb_forall in Hwf. rewrite forallb_forall in Hexact.
    rewrite Forall_forall in IH.
    apply andb_true_iff. split; apply forallb_forall.
    + intros kv Hkv. rewrite (get_prop_keep_defined kv props Hnodup Hkv).
      specialize (Hwf kv Hkv). specialize (Hexact kv Hkv).
      apply list_elem_of_In in Hkv. specialize (IH kv Hkv Hwf Hexact).
      destruct (snd kv); try exact IH; reflexivity.
    + intros kv' Hkv'.
      apply list_elem_of_In, list_elem_of_omap in Hkv' as (kv & Hkv & Hkeep).
      apply keep_defined_key in Hkeep. rewrite Hkeep.
      apply orb_true_iff. left. apply has_prop_In, in_map, list_elem_of_In, Hkv.
Qed.

(** What [same_value] says of two objects: every key reads the same value
    on both sides. *)
Lemma same_value_reads (i j : N) (ps qs : list (string * jsval)) (k : string) :
  same_value (VObj i ps) (VObj j qs) = true ->
  same_value (get_prop k ps) (get_prop k qs) = true.
Proof.
  rewrite same_value_obj. intros H. apply andb_true_iff in H as [Hps Hqs].
  rewrite forallb_forall in Hps. rewrite forallb_forall in Hqs.
  destruct (has_prop k ps) eqn:Ek.
  - apply (Hps (k, get_prop k ps)), get_prop_In, Ek.
  - rewrite (get_prop_absent k ps Ek).
    destruct (has_prop k qs) eqn:Eq.
    + specialize (Hqs (k, get_prop k qs) (get_prop_In k qs Eq)). simpl in Hqs.
      rewrite Ek in Hqs. simpl in Hqs.
      destruct (get_prop k qs); try discriminate; reflexivity.
    + rewrite (get_prop_absent k qs Eq). reflexivity.
Qed.

Lemma same_value_primitive (a b : jsval) :
  same_value a b = true ->
  match a with
  | VArr _ _ | VObj _ _ => True
  | _ => b = a
  end.
Proof.
  destruct a, b; simpl; intros H; try discriminate; try exact I; try reflexivity.
  - apply Bool.eqb_prop in H. subst. reflexivity.
  - apply Z.eqb_eq in H. subst. reflexivity.
  - apply String.eqb_eq in H. subst. reflexivity.
Qed.

(** ** C8 *)

Lemma entry_value_ok (e : LogEntry.t) :
  entry_ok e = true ->
  well_formed (entry_value e) = true /\ json_exact (entry_value e) = true.
Proof.
  unfold entry_ok, payload_ok. intros H.
  apply andb_true_iff in H as [Hd Hc].
  apply andb_true_iff in Hd as [Hdw Hde]. apply andb_true_iff in Hc as [Hcw Hce].
  destruct e as [ts lv co ac me da pf er cx]. simpl in *.
  destruct pf as [[[d|] [m|]]|], er as [[n m' [s|]]|];
    simpl; rewrite ?Hdw, ?Hde, ?Hcw, ?Hce; split; reflexivity.
Qed.

Lemma logs_value_ok (logs : list LogEntry.t) :
  forallb entry_ok logs = true ->
  well_formed (logs_value logs) = true /\ json_exact (logs_value logs) = true.
Proof.
  unfold logs_value. induction logs as [|e logs IH]; [split; reflexivity|].
  simpl forallb. intros H. apply andb_true_iff in H as [He Hlogs].
  destruct (entry_value_ok e He) as [Hw Hx].
  destruct (IH Hlogs) as [Hws Hxs].
  split.
  - change (well_formed (entry_value e) && well_formed (VArr lit (map entry_value logs)) = true).
    rewrite Hw, Hws. reflexivity.
  - change ((match entry_value e with VUndef => false | _ => json_exact (entry_value e) end)
            && json_exact (VArr lit (map entry_value logs)) = true).
    rewrite Hxs, andb_true_r. unfold entry_value at 1. exact Hx.
Qed.

Lemma exportLogs_text (st : State) :
  JSON_stringify 2 (logs_value (logBuffer st)) = Some (exportLogs st).
Proof. reflexivity. Qed.

(** C8 (counterexample).  The buffer holds an entry whose payload is
    [NaN]; in the array parsed from [exportLogs] the payload of that entry
    is [null], so the two arrays differ in a field value. *)
Lemma exported_NaN_comes_back_null :
  (LogEntry.data <$> last (getLogs nan_logger)) = Some VNaN
  /\ (JSON_parse (exportLogs nan_logger)
        ≫= fun parsed => last (match parsed with VArr _ items => items | _ => [] end)
        ≫= fun item => Some (get item "data"))
     = Some VNull
  /\ (same_value (logs_value (getLogs nan_logger)) <$> JSON_parse (exportLogs nan_logger))
     = Some false.
Proof. vm_compute. repeat split. Qed.

(** What the parsed form of one entry reads under each key of
    [LogEntry]. *)
Lemma parsed_entry_reads_the_same (e : LogEntry.t) :
  entry_ok e = true ->
  let parsed := json_view (entry_value e) in
  get parsed "timestamp" = VStr (LogEntry.timestamp e)
  /\ get parsed "level" = VStr (LogEntry.level e)
  /\ get parsed "component" = VStr (LogEntry.component e)
  /\ get parsed "action" = VStr (LogEntry.action e)
  /\ get parsed "message" = VStr (LogEntry.message e)
  /\ same_value (LogEntry.data e) (get parsed "data") = true
  /\ same_value (LogEntry.context e) (get parsed "context") = true
  /\ same_value (get (entry_value e) "performance") (get parsed "performance") = true
  /\ same_value (get (entry_value e) "error") (get parsed "error") = true.
Proof.
  intros Hok parsed.
  destruct (entry_value_ok e Hok) as [Hwf Hexact].
  pose proof (same_value_json_view _ Hwf Hexact) as Hsame.
  assert (Hread : forall k,
            same_value (get (entry_value e) k) (get parsed k) = true).
  { intros k. subst parsed. unfold entry_value in *.
    exact (same_value_reads _ _ _ _ k Hsame). }
  split; [exact (same_value_primitive _ _ (Hread "timestamp"))|].
  split; [exact (same_value_primitive _ _ (Hread "level"))|].
  split; [exact (same_value_primitive _ _ (Hread "component"))|].
  split; [exact (same_value_primitive _ _ (Hread "action"))|].
  split; [exact (same_value_primitive _ _ (Hread "message"))|].
  split; [exact (Hread "data")|].
  split; [exact (Hread "context")|].
  split; [exact (Hread "performance") | exact (Hread "error")].
Qed.

(** C8 (amended).  When the [data] and [context] payloads of the buffered
    entries are well formed and lose nothing in JSON (no [NaN], no
    [undefined] array element), the text returned by [exportLogs] parses,
    and the parsed array equals the array returned by [getLogs] entry by
    entry and field by field, a missing key reading as [undefined].  The
    parsed array holds, in the order of the buffer, the JSON view of each
    entry. *)
Theorem export_parse_round_trip (st : State) :
  forallb entry_ok (logBuffer st) = true ->
  let parsed := json_view (logs_value (getLogs st)) in
  JSON_parse (exportLogs st) = Some parsed
  /\ same_value (logs_value (getLogs st)) parsed = true
  /\ parsed = VArr lit (map (fun e => json_view (entry_value e)) (getLogs st)).
Proof.
  intros Hok parsed. subst parsed. unfold getLogs.
  destruct (logs_value_ok _ Hok) as [Hwf Hexact].
  split; [|split].
  - destruct (JSON_parse_stringify 2 (logs_value (logBuffer st)) Hwf ltac:(discriminate))
      as (txt & Htxt & Hparse).
    rewrite exportLogs_text in Htxt. injection Htxt as <-. exact Hparse.
  - apply same_value_json_view; assumption.
  - unfold logs_value. rewrite json_view_arr, map_map. reflexivity.
Qed.

Lemma export_parse_round_trip_witness :
  forallb entry_ok (logBuffer tracked_logger) = true
  /\ length (getLogs tracked_logger) = 2%nat
  /\ JSON_parse (exportLogs tracked_logger)
     = Some (json_view (logs_value (getLogs tracked_logger)))
  /\ (same_value (logs_value (getLogs tracked_logger))
        <$> JSON_parse (exportLogs tracked_logger)) = Some true.
Proof.
  pose proof (export_parse_round_trip tracked_logger eq_refl) as (Hparse & Hsame & _).
  cbv zeta in *.
  split; [vm_compute; reflexivity|]. split; [vm_compute; reflexivity|].
  split; [exact Hparse|]. rewrite Hparse. exact (f_equal Some Hsame).
Defined.

(** * Further properties of the logger *)

(** ** The level filter is monotone *)

(** X1.  Whatever the configuration (its level may be any string), a level
    that is admitted admits every more severe level with it; and raising
    the configured level from one of the five names to a less severe one
    never drops a level that was admitted. *)
Theorem shouldLog_is_monotone (st : State) :
  (forall l1 l2 : Level,
     rank l1 <= rank l2 ->
     shouldLog st (level_name l2) = true ->
     shouldLog st (level_name l1) = true)
  /\ (forall c1 c2 l : Level,
       rank c1 <= rank c2 ->
       shouldLog (set_config (with_level (level_name c1) (config st)) st) (level_name l)
       = true ->
       shouldLog (set_config (with_level (level_name c2) (config st)) st) (level_name l)
       = true).
Proof.
  split.
  - intros l1 l2 Hrank H. unfold shouldLog in *.
    destruct (DebugConfig.enabled (config st)); [|discriminate].
    simpl in *. rewrite rank_indexOf in *.
    apply Z.leb_le in H. apply Z.leb_le. lia.
  - intros c1 c2 l Hc. unfold shouldLog. simpl.
    destruct (DebugConfig.enabled (config st)); [|discriminate].
    simpl. rewrite !rank_indexOf. intros H1.
    apply Z.leb_le in H1. apply Z.leb_le. lia.
Qed.

(** On the default logger, whose level is [debug]: [warn] is admitted
    with [info]; and at level [error], where [info] is not admitted,
    moving the level to [info] admits what [warn] admitted. *)
Lemma shouldLog_is_monotone_witness :
  shouldLog default_logger (level_name INFO) = true
  /\ shouldLog default_logger (level_name WARN) = true
  /\ shouldLog (set_config (with_level (level_name ERROR) (config default_logger))
                  default_logger) (level_name INFO) = false
  /\ shouldLog (set_config (with_level (level_name INFO) (config default_logger))
                  default_logger) (level_name WARN) = true.
Proof.
  split; [reflexivity|]. split.
  - exact (proj1 (shouldLog_is_monotone default_logger) WARN INFO
             ltac:(simpl; lia) eq_refl).
  - split; [reflexivity|].
    exact (proj2 (shouldLog_is_monotone default_logger) WARN INFO WARN
             ltac:(simpl; lia) eq_refl).
Defined.

(** ** What one call can do to the state *)

Lemma console_leveled l clk co ac me da cx st :
  console (leveled l clk co ac me da cx st) =
  if shouldLog st (level_name l) && DebugConfig.logToConsole (config st)
  then console st
       ++ console_calls
            (formatLogEntry st (createLogEntry st clk (level_name l) co ac me da cx))
            (createLogEntry st clk (level_name l) co ac me da cx)
  else console st.
Proof. rewrite leveled_outputLog, console_outputLog, level_createLogEntry. reflexivity. Qed.

Lemma buffer_step_leveled l clk co ac me da cx st st0 :
  logBuffer st = logBuffer st0 ->
  logBuffer (leveled l clk co ac me da cx st) = logBuffer st0
  \/ exists e, logBuffer (leveled l clk co ac me da cx st) = push_bounded e (logBuffer st0).
Proof.
  intros <-. rewrite logBuffer_leveled.
  destruct (shouldLog st (level_name l)); [right; eauto | left; reflexivity].
Qed.

Lemma length_push_bounded_step (e : LogEntry.t) (buffer : list LogEntry.t) :
  (length (push_bounded e buffer) <= S (length buffer))%nat.
Proof.
  unfold push_bounded. destruct (_ <? _)%nat.
  - destruct buffer as [|x buffer]; simpl; [lia|]. rewrite length_app. simpl. lia.
  - rewrite length_app. simpl. lia.
Qed.

Lemma length_step_leveled l clk co ac me da cx st :
  (length (logBuffer (leveled l clk co ac me da cx st)) <= S (length (logBuffer st)))%nat.
Proof.
  rewrite logBuffer_leveled. destruct (shouldLog st (level_name l)); [|lia].
  apply length_push_bounded_step.
Qed.

(** X2.  A public call other than [clearLogs] leaves the buffer as it was or
    pushes exactly one entry onto it (evicting the oldest one when the
    bound is exceeded): entries already in the buffer are never rewritten
    or reordered, and no call logs twice. *)
Theorem each_call_pushes_at_most_one_entry (c : Call) (st : State) :
  is_clearLogs c = false ->
  logBuffer (run c st) = logBuffer st
  \/ exists e : LogEntry.t, logBuffer (run c st) = push_bounded e (logBuffer st).
Proof.
  intros Hc. destruct c; simpl in *; try discriminate; try (left; reflexivity).
  - apply (buffer_step_leveled ERROR); reflexivity.
  - apply (buffer_step_leveled WARN); reflexivity.
  - apply (buffer_step_leveled INFO); reflexivity.
  - apply (buffer_step_leveled DEBUG); reflexivity.
  - apply (buffer_step_leveled TRACE); reflexivity.
  - apply (buffer_step_leveled DEBUG); reflexivity.
  - unfold startTimer. destruct (_ || _); simpl; [left; reflexivity|].
    apply (buffer_step_leveled TRACE); reflexivity.
  - unfold endTimer. destruct (_ || _); [left; reflexivity|].
    destruct (performanceMetrics st !! timerId).
    + simpl. apply (buffer_step_leveled INFO); reflexivity.
    + apply (buffer_step_leveled WARN); reflexivity.
  - unfold trackError. apply (buffer_step_leveled ERROR); reflexivity.
  - apply (buffer_step_leveled INFO); reflexivity.
  - unfold trackAPIResponse. apply (buffer_step_leveled INFO); reflexivity.
  - unfold trackStateChange. apply (buffer_step_leveled DEBUG); reflexivity.
  - unfold updateConfig. apply (buffer_step_leveled INFO); reflexivity.
Qed.

Lemma each_call_pushes_at_most_one_entry_witness :
  is_clearLogs (CallEndTimer 5 clock0 "nobody" VUndef) = false
  /\ length (logBuffer (run (CallEndTimer 5 clock0 "nobody" VUndef) default_logger)) = 2%nat
  /\ (logBuffer (run (CallEndTimer 5 clock0 "nobody" VUndef) default_logger)
        = logBuffer default_logger
      \/ exists e, logBuffer (run (CallEndTimer 5 clock0 "nobody" VUndef) default_logger)
                   = push_bounded e (logBuffer default_logger)).
Proof.
  split; [reflexivity|]. split; [reflexivity|].
  exact (each_call_pushes_at_most_one_entry
           (CallEndTimer 5 clock0 "nobody" VUndef) default_logger eq_refl).
Defined.

(** X3.  The configuration changes under [updateConfig] only: every other
    public call, timers and [clearLogs] included, returns a state with the
    configuration it was given. *)
Theorem only_updateConfig_changes_config (c : Call) (st : State) :
  is_updateConfig c = false -> config (run c st) = config st.
Proof.
  intros Hc. destruct c; simpl in *; try discriminate; try reflexivity.
  - apply (config_leveled ERROR).
  - apply (config_leveled WARN).
  - apply (config_leveled INFO).
  - apply (config_leveled DEBUG).
  - apply (config_leveled TRACE).
  - apply (config_leveled DEBUG).
  - unfold startTimer. destruct (_ || _); simpl; [reflexivity|].
    rewrite (config_leveled TRACE). reflexivity.
  - unfold endTimer. destruct (_ || _); [reflexivity|].
    destruct (performanceMetrics st !! timerId).
    + simpl. rewrite (config_leveled INFO). reflexivity.
    + apply (config_leveled WARN).
  - unfold trackError. apply (config_leveled ERROR).
  - rewrite (config_leveled INFO). reflexivity.
  - unfold trackAPIResponse. apply (config_leveled INFO).
  - unfold trackStateChange. apply (config_leveled DEBUG).
  - unfold clearLogs. rewrite (config_leveled INFO). reflexivity.
Qed.

Lemma only_updateConfig_changes_config_witness :
  is_updateConfig (CallClearLogs clock0) = false
  /\ config (run (CallClearLogs clock0) warn_logger) = config warn_logger.
Proof.
  split; [reflexivity|].
  exact (only_updateConfig_changes_config (CallClearLogs clock0) warn_logger eq_refl).
Defined.

(** X4.  The timer map changes under the timer calls only, and then in
    one place: [startTimer] leaves it alone or binds the identifier it
    returns, [endTimer] leaves it alone or removes the identifier it was
    given; ending an unknown identifier leaves it alone. *)
Theorem timer_map_changes_in_one_place (c : Call) (st : State) :
  (is_timer_call c = false -> performanceMetrics (run c st) = performanceMetrics st)
  /\ (forall date_now random36 start clk operation metadata,
        c = CallStartTimer date_now random36 start clk operation metadata ->
        let id := snd (startTimer date_now random36 start clk operation metadata st) in
        performanceMetrics (run c st) = performanceMetrics st
        \/ performanceMetrics (run c st)
           = <[id := PerformanceMetric.mk operation start None None metadata]>
               (performanceMetrics st))
  /\ (forall end_time clk timerId additionalData,
        c = CallEndTimer end_time clk timerId additionalData ->
        (performanceMetrics (run c st) = performanceMetrics st
         \/ performanceMetrics (run c st) = delete timerId (performanceMetrics st))
        /\ (performanceMetrics st !! timerId = None ->
            performanceMetrics (run c st) = performanceMetrics st)).
Proof.
  split; [|split].
  - intros Hc. destruct c; simpl in *; try discriminate; try reflexivity.
    + apply (performanceMetrics_leveled ERROR).
    + apply (performanceMetrics_leveled WARN).
    + apply (performanceMetrics_leveled INFO).
    + apply (performanceMetrics_leveled DEBUG).
    + apply (performanceMetrics_leveled TRACE).
    + apply (performanceMetrics_leveled DEBUG).
    + unfold trackError. apply (performanceMetrics_leveled ERROR).
    + rewrite (performanceMetrics_leveled INFO). reflexivity.
    + unfold trackAPIResponse. apply (performanceMetrics_leveled INFO).
    + unfold trackStateChange. apply (performanceMetrics_leveled DEBUG).
    + unfold updateConfig. rewrite (performanceMetrics_leveled INFO). reflexivity.
    + unfold clearLogs. rewrite (performanceMetrics_leveled INFO). reflexivity.
  - intros dn rnd start clk op md -> id. subst id. simpl run.
    unfold startTimer. destruct (_ || _); simpl; [left; reflexivity|].
    right. rewrite (performanceMetrics_leveled TRACE). reflexivity.
  - intros et clk id ad ->. simpl run. unfold endTimer.
    destruct (_ || _); [split; [left|]; reflexivity|].
    destruct (performanceMetrics st !! id) as [metric|] eqn:E.
    + split; [|discriminate]. right. simpl.
      rewrite (performanceMetrics_leveled INFO). simpl. apply delete_insert_eq.
    + split; [left|intros _]; apply (performanceMetrics_leveled WARN).
Qed.

(** ** The console transcript *)

Lemma consoleMethod_cases (level : string) :
  consoleMethod level = "error" \/ consoleMethod level = "warn"
  \/ consoleMethod level = "info" \/ consoleMethod level = "log".
Proof.
  unfold consoleMethod.
  destruct (String.eqb level "error"); [tauto|].
  destruct (String.eqb level "warn"); [tauto|].
  destruct (String.eqb level "info"); tauto.
Qed.

Lemma one_block_console_calls (formatted : string) (entry : LogEntry.t) :
  one_block (console_calls formatted entry) = true.
Proof.
  unfold console_calls, one_block, count_method.
  destruct (consoleMethod_cases (LogEntry.level entry)) as [-> | [-> | [-> | ->]]];
    destruct (truthy (LogEntry.data entry)), (LogEntry.error entry),
      (LogEntry.performance entry), (truthy (LogEntry.context entry));
    reflexivity.
Qed.

Lemma console_step_leveled l clk co ac me da cx st st0 :
  console st = console st0 ->
  exists out,
    console (leveled l clk co ac me da cx st) = console st0 ++ out
    /\ one_block out = true
    /\ (DebugConfig.logToConsole (config st) = false -> out = []).
Proof.
  intros <-. rewrite console_leveled.
  destruct (shouldLog st (level_name l)); simpl.
  - destruct (DebugConfig.logToConsole (config st)).
    + eexists. split; [reflexivity|]. split; [apply one_block_console_calls | discriminate].
    + exists []. rewrite List.app_nil_r. auto.
  - exists []. rewrite List.app_nil_r. auto.
Qed.

Lemma console_step (c : Call) (st : State) :
  exists out,
    console (run c st) = console st ++ out
    /\ one_block out = true
    /\ (DebugConfig.logToConsole (config (run c st)) = false -> out = []).
Proof.
  assert (Hnone : exists out, console st = console st ++ out /\ one_block out = true
                   /\ (DebugConfig.logToConsole (config st) = false -> out = [])).
  { exists []. rewrite List.app_nil_r. auto. }
  destruct c; simpl run; try exact Hnone.
  - rewrite (config_leveled ERROR). apply (console_step_leveled ERROR); reflexivity.
  - rewrite (config_leveled WARN). apply (console_step_leveled WARN); reflexivity.
  - rewrite (config_leveled INFO). apply (console_step_leveled INFO); reflexivity.
  - rewrite (config_leveled DEBUG). apply (console_step_leveled DEBUG); reflexivity.
  - rewrite (config_leveled TRACE). apply (console_step_leveled TRACE); reflexivity.
  - rewrite (config_leveled DEBUG). apply (console_step_leveled DEBUG); reflexivity.
  - unfold startTimer. destruct (_ || _); simpl; [exact Hnone|].
    rewrite (config_leveled TRACE). apply (console_step_leveled TRACE); reflexivity.
  - unfold endTimer. destruct (_ || _); [exact Hnone|].
    destruct (performanceMetrics st !! timerId).
    + simpl. rewrite (config_leveled INFO). apply (console_step_leveled INFO); reflexivity.
    + rewrite (config_leveled WARN). apply (console_step_leveled WARN); reflexivity.
  - unfold trackError. rewrite (config_leveled ERROR).
    apply (console_step_leveled ERROR); reflexivity.
  - rewrite (config_leveled INFO). apply (console_step_leveled INFO); reflexivity.
  - unfold trackAPIResponse. rewrite (config_leveled INFO).
    apply (console_step_leveled INFO); reflexivity.
  - unfold trackStateChange. rewrite (config_leveled DEBUG).
    apply (console_step_leveled DEBUG); reflexivity.
  - unfold updateConfig. rewrite (config_leveled INFO).
    apply (console_step_leveled INFO); reflexivity.
  - unfold clearLogs. rewrite (config_leveled INFO).
    apply (console_step_leveled INFO); reflexivity.
Qed.

(** X5.  With [logToConsole] off in the configuration a call ends with
    ([updateConfig] may just have switched it off), the call writes
    nothing to the console, whatever it does to the buffer. *)
Theorem logToConsole_off_silences_console (c : Call) (st : State) :
  DebugConfig.logToConsole (config (run c st)) = false ->
  console (run c st) = console st.
Proof.
  intros H. destruct (console_step c st) as (out & -> & _ & Hout).
  rewrite (Hout H). apply List.app_nil_r.
Qed.

Lemma logToConsole_off_silences_console_witness :
  DebugConfig.logToConsole
    (config (run (CallUpdateConfig clock0 console_off) default_logger)) = false
  /\ length (logBuffer (run (CallUpdateConfig clock0 console_off) default_logger)) = 2%nat
  /\ console (run (CallUpdateConfig clock0 console_off) default_logger)
     = console default_logger.
Proof.
  split; [reflexivity|]. split; [reflexivity|].
  exact (logToConsole_off_silences_console
           (CallUpdateConfig clock0 console_off) default_logger eq_refl).
Defined.

(** X6.  Every public call only appends to the console transcript, and
    what it appends is at most one entry's output: at most seven calls,
    at most one [console.group], and every group opened is closed by a
    [console.groupEnd]. *)
Theorem console_grows_by_one_closed_block (c : Call) (st : State) :
  exists out : list ConsoleCall,
    console (run c st) = console st ++ out
    /\ (length out <= 7)%nat
    /\ (count_method "group" out <= 1)%nat
    /\ count_method "group" out = count_method "groupEnd" out.
Proof.
  destruct (console_step c st) as (out & E & Hblock & _).
  exists out. split; [exact E|].
  unfold one_block in Hblock.
  apply andb_true_iff in Hblock as [Hblock H3]. apply andb_true_iff in Hblock as [H1 H2].
  apply Nat.leb_le in H1. apply Nat.leb_le in H2. apply Nat.eqb_eq in H3. auto.
Qed.

(** ** Error, request and response tracking *)

Lemma stacks_off_run (c : Call) (st : State) :
  DebugConfig.includeStackTraces (config st) = false ->
  keeps_stacks_off c = true ->
  DebugConfig.includeStackTraces (config (run c st)) = false.
Proof.
  intros Hoff Hc. destruct c; simpl in *; try exact Hoff.
  - rewrite (config_leveled ERROR). exact Hoff.
  - rewrite (config_leveled WARN). exact Hoff.
  - rewrite (config_leveled INFO). exact Hoff.
  - rewrite (config_leveled DEBUG). exact Hoff.
  - rewrite (config_leveled TRACE). exact Hoff.
  - rewrite (config_leveled DEBUG). exact Hoff.
  - unfold startTimer. destruct (_ || _); simpl; [exact Hoff|].
    rewrite (config_leveled TRACE). exact Hoff.
  - unfold endTimer. destruct (_ || _); [exact Hoff|].
    destruct (performanceMetrics st !! timerId).
    + simpl. rewrite (config_leveled INFO). exact Hoff.
    + rewrite (config_leveled WARN). exact Hoff.
  - unfold trackError. rewrite (config_leveled ERROR). exact Hoff.
  - rewrite (config_leveled INFO). exact Hoff.
  - unfold trackAPIResponse. rewrite (config_leveled INFO). exact Hoff.
  - unfold trackStateChange. rewrite (config_leveled DEBUG). exact Hoff.
  - unfold updateConfig. rewrite (config_leveled INFO). simpl. rewrite Hoff.
    destruct (PartialConfig.includeStackTraces newConfig) as [[|]|];
      [discriminate Hc | reflexivity | reflexivity].
  - unfold clearLogs. rewrite (config_leveled INFO). exact Hoff.
Qed.

(** X7.  As long as [includeStackTraces] is off and no [updateConfig]
    switches it on, the stacks of tracked errors have no influence on
    the logger: erasing the stack of every [trackError] call of a
    sequence of public calls leaves the same final state, buffer and
    console alike. *)
Theorem stacks_stay_out_of_the_log (calls : list Call) (st : State) :
  DebugConfig.includeStackTraces (config st) = false ->
  forallb keeps_stacks_off calls = true ->
  run_all (map without_stack calls) st = run_all calls st.
Proof.
  unfold run_all. revert st. induction calls as [|c calls IH]; intros st Hoff Hall;
    [reflexivity|].
  simpl in Hall. apply andb_true_iff in Hall as [Hc Hcalls]. simpl.
  assert (Hsame : run (without_stack c) st = run c st).
  { destruct c; try reflexivity. simpl. unfold trackError. rewrite Hoff. reflexivity. }
  rewrite Hsame. apply IH; [|exact Hcalls]. apply stacks_off_run; assumption.
Qed.

Lemma stacks_stay_out_of_the_log_witness :
  DebugConfig.includeStackTraces (config stackless_logger) = false
  /\ forallb keeps_stacks_off failing_calls = true
  /\ length (logBuffer (run_all failing_calls stackless_logger)) = 4%nat
  /\ run_all (map without_stack failing_calls) stackless_logger
     = run_all failing_calls stackless_logger.
Proof.
  split; [reflexivity|]. split; [reflexivity|]. split; [reflexivity|].
  exact (stacks_stay_out_of_the_log failing_calls stackless_logger eq_refl eq_refl).
Defined.

Lemma context_createLogEntry st clk lv co ac me da cx :
  LogEntry.context (createLogEntry st clk lv co ac me da cx) = cx.
Proof. unfold createLogEntry. destruct (DebugConfig.includePerformance _); reflexivity. Qed.

Lemma get_prop_spread (key : string) (a b : list (string * jsval)) :
  nodup_keys (map fst b) = true ->
  get_prop key (spread a b) = if has_prop key b then get_prop key b else get_prop key a.
Proof.
  unfold spread. revert a. induction b as [|[k v] b IH]; intros a Hnodup; [reflexivity|].
  simpl in Hnodup. apply andb_true_iff in Hnodup as [Hk Hb]. apply negb_true_iff in Hk.
  simpl. rewrite (IH _ Hb), get_prop_set_prop.
  destruct (String.eqb k key) eqn:E; simpl.
  - apply String.eqb_eq in E. subst key.
    rewrite has_prop_existsb, Hk. reflexivity.
  - reflexivity.
Qed.

(** X8.  [trackAPIRequest] returns the identifier [req_<ms>_<random>]
    whether or not anything is logged; a disabled logger is left as it
    was.  The entry it emits is an [info] entry whose context carries
    that identifier under [requestId], replacing a [requestId] of the
    caller's context, and every other key of the caller's context as it
    was given. *)
Theorem trackAPIRequest_stamps_its_identifier (date_now : Z) (random36 : string)
    (clk : Clock) (method url : string) (data context : jsval) (st : State) :
  let id := "req_" +:+ pretty date_now +:+ "_" +:+ random36 in
  let out := trackAPIRequest date_now random36 clk method url data context st in
  snd out = id
  /\ id <> EmptyString
  /\ (DebugConfig.enabled (config st) = false -> fst out = st)
  /\ exists e : LogEntry.t,
       fst out = outputLog e st
       /\ LogEntry.level e = "info"
       /\ get (LogEntry.data e) "requestId" = VStr id
       /\ get (LogEntry.context e) "requestId" = VStr id
       /\ forall key, key <> "requestId" ->
            get (LogEntry.context e) key = get context key.
Proof.
  intros id out. subst out. unfold trackAPIRequest. cbv zeta. fold id. simpl fst. simpl snd.
  split; [reflexivity|]. split; [discriminate|]. split.
  - intros H. apply (leveled_reject INFO). unfold shouldLog. rewrite H. reflexivity.
  - eexists. split; [apply (leveled_outputLog INFO)|].
    split; [apply level_createLogEntry|].
    rewrite data_createLogEntry, context_createLogEntry.
    split; [reflexivity|]. unfold get at 1 2, spread. cbn [own_props fold_left fst snd].
    split.
    + rewrite get_prop_set_prop. reflexivity.
    + intros key Hkey. rewrite get_prop_set_prop.
      destruct (String.eqb "requestId" key) eqn:E; [|reflexivity].
      apply String.eqb_eq in E. congruence.
Qed.

(** X9.  [trackAPIResponse] reports the duration as [<d>.00ms] when one
    is given and is not zero; a duration of zero is reported like a
    missing one, as [undefined].  The status is reported as given and
    the context carries the request identifier. *)
Theorem trackAPIResponse_drops_zero_duration (clk : Clock) (requestId : string)
    (status : Z) (data : jsval) (duration : option Z) (context : jsval) (st : State) :
  exists e : LogEntry.t,
    trackAPIResponse clk requestId status data duration context st = outputLog e st
    /\ LogEntry.level e = "info"
    /\ get (LogEntry.data e) "status" = VNum status
    /\ get (LogEntry.context e) "requestId" = VStr requestId
    /\ get (LogEntry.data e) "duration" =
         match duration with
         | None | Some 0 => VUndef
         | Some d => VStr (toFixed2 d +:+ "ms")
         end.
Proof.
  unfold trackAPIResponse. eexists. split; [apply (leveled_outputLog INFO)|].
  split; [apply level_createLogEntry|].
  rewrite data_createLogEntry.
  split; [reflexivity|]. split.
  - rewrite context_createLogEntry. unfold get, spread. cbn [own_props fold_left fst snd].
    rewrite get_prop_set_prop. reflexivity.
  - unfold get. simpl. destruct duration as [[|d|d]|]; reflexivity.
Qed.

(** ** Timers, further *)

(** X10.  The keys of [additionalData] override the report of [endTimer]:
    a key that [additionalData] has is reported with its value there,
    [duration], [operation] and [metadata] included; every other key reads
    as in the report the timer gives by itself. *)
Theorem endTimer_additionalData_overrides_report (end_time : Z) (clk : Clock)
    (timerId : string) (additionalData : jsval) (st : State)
    (metric : PerformanceMetric.t) :
  timers_on st = true ->
  String.eqb timerId EmptyString = false ->
  performanceMetrics st !! timerId = Some metric ->
  nodup_keys (Object_keys additionalData) = true ->
  let report :=
    createLogEntry st clk "info" "performance" "timer_end"
      ("Completed: " +:+ PerformanceMetric.operation metric)
      (VObj lit (spread (timer_report metric end_time) (own_props additionalData)))
      VUndef in
  logBuffer (endTimer end_time clk timerId additionalData st) =
    (if shouldLog st "info" then push_bounded report (logBuffer st) else logBuffer st)
  /\ forall key,
       get (LogEntry.data report) key =
       if has_prop key (own_props additionalData)
       then get additionalData key
       else get_prop key (timer_report metric end_time).
Proof.
  intros H Hid Hsome Hnodup report. unfold timers_on in H.
  apply andb_true_iff in H as [He Hp]. split.
  - unfold endTimer. rewrite He, Hp. simpl negb. rewrite Hid, Hsome. simpl negb.
    cbv iota. cbv zeta. simpl logBuffer. rewrite (logBuffer_leveled INFO). reflexivity.
  - intros key. subst report. rewrite data_createLogEntry. unfold get at 1.
    cbn [own_props]. apply get_prop_spread. exact Hnodup.
Qed.

Lemma endTimer_additionalData_overrides_report_witness :
  let extra := VObj 4 [("duration", VStr "n/a"); ("rows", VNum 12)] in
  let ended := endTimer 1735689600005 clock0 "load_1735689600000_k3j9x2m1q" extra
                 timing_logger in
  timers_on timing_logger = true
  /\ (get_prop "duration" <$> (own_props <$> (LogEntry.data <$> last (logBuffer ended))))
     = Some (VStr "n/a")
  /\ (get_prop "operation" <$> (own_props <$> (LogEntry.data <$> last (logBuffer ended))))
     = Some (VStr "load")
  /\ exists report,
       logBuffer ended = push_bounded report (logBuffer timing_logger)
       /\ get (LogEntry.data report) "duration" = VStr "n/a"
       /\ get (LogEntry.data report) "rows" = VNum 12
       /\ get (LogEntry.data report) "operation" = VStr "load".
Proof.
  intros extra ended.
  pose proof (endTimer_additionalData_overrides_report 1735689600005 clock0
                "load_1735689600000_k3j9x2m1q" extra timing_logger
                (PerformanceMetric.mk "load" 1735689600000 None None VUndef)
                eq_refl eq_refl eq_refl eq_refl) as [Hbuf Hread].
  split; [reflexivity|]. split; [vm_compute; reflexivity|]. split; [vm_compute; reflexivity|].
  eexists. split; [exact Hbuf|].
  split; [exact (Hread "duration")|]. split; [exact (Hread "rows") | exact (Hread "operation")].
Defined.

(** X11.  Timer identifiers are not checked for collisions: a second
    [startTimer] for the same operation in the same millisecond with the
    same random suffix returns the same identifier and overwrites the
    first timer, so the map holds one timer, started at the second
    reading. *)
Theorem startTimer_collision_overwrites (date_now : Z) (random36 : string)
    (operation : string) (start1 start2 : Z) (clk1 clk2 : Clock)
    (metadata1 metadata2 : jsval) (st : State) :
  timers_on st = true ->
  let first := startTimer date_now random36 start1 clk1 operation metadata1 st in
  let second := startTimer date_now random36 start2 clk2 operation metadata2 (fst first) in
  snd second = snd first
  /\ performanceMetrics (fst second)
     = <[snd first := PerformanceMetric.mk operation start2 None None metadata2]>
         (performanceMetrics st).
Proof.
  intros H first second. subst second first.
  rewrite (startTimer_on _ _ start1 _ _ _ st H). cbn [fst snd].
  rewrite startTimer_on.
  - cbn [fst snd]. split; [reflexivity|].
    rewrite !(performanceMetrics_leveled TRACE). simpl. apply insert_insert_eq.
  - unfold timers_on. rewrite (config_leveled TRACE). exact H.
Qed.

Lemma startTimer_collision_overwrites_witness :
  let first := startTimer 1735689600000 "k3j9x2m1q" 100 clock0 "load" VUndef default_logger in
  let second := startTimer 1735689600000 "k3j9x2m1q" 250 clock0 "load" VNull (fst first) in
  timers_on default_logger = true
  /\ snd second = snd first
  /\ performanceMetrics (fst second)
     = <[snd first := PerformanceMetric.mk "load" 250 None None VNull]>
         (performanceMetrics default_logger).
Proof.
  intros first second. split; [reflexivity|].
  exact (startTimer_collision_overwrites 1735689600000 "k3j9x2m1q" "load" 100 250
           clock0 clock0 VUndef VNull default_logger eq_refl).
Defined.

(** ** Construction, further *)

Lemma config_constructor (h : Host) (data_iso : string) (clk : Clock)
    (partial : PartialConfig.t) (out : list ConsoleCall) :
  config (constructor h data_iso clk partial out) = resolved_config h partial.
Proof.
  unfold constructor, initializeDebugMode. cbv zeta.
  destruct (DebugConfig.enabled _); [|reflexivity].
  rewrite (config_leveled DEBUG). reflexivity.
Qed.

(** X12.  A new logger has the configuration resolved from the defaults,
    the constructor argument, the environment and local storage, in
    that order; it has no timers; and its buffer holds the one
    [debug_init] entry, whose payload shows that configuration, exactly
    when that configuration admits [debug], and is empty otherwise. *)
Theorem constructor_logs_its_configuration (h : Host) (data_iso : string) (clk : Clock)
    (partial : PartialConfig.t) (out : list ConsoleCall) :
  let st := constructor h data_iso clk partial out in
  config st = resolved_config h partial
  /\ performanceMetrics st = ∅
  /\ logBuffer st
     = (if shouldLog st "debug" then [init_entry h data_iso clk partial] else [])
  /\ get (LogEntry.data (init_entry h data_iso clk partial)) "config"
     = config_value (config st).
Proof.
  intros st. subst st. split; [apply config_constructor|].
  split; [|split].
  - unfold constructor, initializeDebugMode. cbv zeta.
    destruct (DebugConfig.enabled _); [|reflexivity].
    rewrite (performanceMetrics_leveled DEBUG). reflexivity.
  - unfold shouldLog at 1. rewrite config_constructor.
    unfold constructor, initializeDebugMode. cbv zeta.
    cbn [config set_config]. fold (resolved_config h partial).
    destruct (DebugConfig.enabled (resolved_config h partial)) eqn:He; [|reflexivity].
    rewrite (logBuffer_leveled DEBUG). unfold shouldLog at 1.
    cbn [config set_config level_name]. fold (resolved_config h partial). rewrite He.
    cbn [andb]. destruct (_ <=? _); reflexivity.
  - unfold init_entry. rewrite data_createLogEntry, config_constructor. reflexivity.
Qed.

(** X13.  On a host with [DIANOIA_DEBUG=false] and no browser window the
    constructor returns a disabled logger that has logged nothing and
    written nothing; every other setting is the constructor argument's
    over the defaults, so that [DIANOIA_DEBUG_LEVEL] is not read. *)
Theorem DIANOIA_DEBUG_false_disables_quietly (h : Host) (env : gmap string string)
    (data_iso : string) (clk : Clock) (partial : PartialConfig.t)
    (out : list ConsoleCall) :
  process_env h = Some env ->
  env !! "DIANOIA_DEBUG" = Some "false" ->
  window_defined h = false ->
  constructor h data_iso clk partial out
  = mkState (with_enabled false (merge_config defaultConfig partial)) ∅ [] out.
Proof.
  intros Henv Hfalse Hwin.
  unfold constructor, initializeDebugMode. cbv zeta. cbn [config set_config].
  unfold config_from_storage, getStorage, isBrowserEnv. rewrite Hwin.
  unfold config_from_env. rewrite Henv. rewrite bool_decide_eq_true_2 by exact Hfalse.
  reflexivity.
Qed.

Lemma DIANOIA_DEBUG_false_disables_quietly_witness :
  DebugConfig.level (config (constructor silenced_host "t" clock0 PartialConfig.empty []))
  = "debug"
  /\ constructor silenced_host "t" clock0 PartialConfig.empty []
     = mkState (with_enabled false (merge_config defaultConfig PartialConfig.empty)) ∅ [] [].
Proof.
  split; [reflexivity|].
  exact (DIANOIA_DEBUG_false_disables_quietly silenced_host
           {[ "DIANOIA_DEBUG" := "false"; "DIANOIA_DEBUG_LEVEL" := "trace" ]}
           "t" clock0 PartialConfig.empty [] eq_refl eq_refl eq_refl).
Defined.

(** X14.  Local storage has the last word in a browser.  A stored
    [dianoia_debug_enabled] of [true] enables the logger even when the
    constructor argument or the environment disabled it, and [false]
    disables it; a stored [dianoia_debug_level] is taken when it is one
    of the five level names and ignored otherwise. *)
Theorem localStorage_has_the_last_word (h : Host) (storage : gmap string string)
    (data_iso : string) (clk : Clock) (partial : PartialConfig.t)
    (out : list ConsoleCall) :
  getStorage h = Some storage ->
  let before := config_from_env h (merge_config defaultConfig partial) in
  let after := config (constructor h data_iso clk partial out) in
  (storage !! "dianoia_debug_enabled" = Some "true" -> DebugConfig.enabled after = true)
  /\ (storage !! "dianoia_debug_enabled" = Some "false" -> DebugConfig.enabled after = false)
  /\ (forall l, storage !! "dianoia_debug_level" = Some l ->
        DebugConfig.level after
        = if existsb (String.eqb l) levels then l else DebugConfig.level before)
  /\ (storage !! "dianoia_debug_level" = None ->
        DebugConfig.level after = DebugConfig.level before).
Proof.
  intros Hst before after. subst after. rewrite config_constructor.
  unfold resolved_config. fold before. unfold config_from_storage. rewrite Hst. cbv zeta.
  set (c1 := if bool_decide (storage !! "dianoia_debug_enabled" = Some "false") then _ else _).
  assert (Hlevel : DebugConfig.level c1 = DebugConfig.level before).
  { subst c1. repeat case_bool_decide; reflexivity. }
  assert (Hen : forall c, DebugConfig.enabled
                  (if string_truthy (storage !! "dianoia_debug_level")
                      && existsb (String.eqb (default EmptyString
                                                (storage !! "dianoia_debug_level"))) levels
                   then with_level (default EmptyString (storage !! "dianoia_debug_level")) c
                   else c) = DebugConfig.enabled c).
  { intros c. destruct (_ && _); reflexivity. }
  split; [|split; [|split]].
  - intros E. rewrite Hen. subst c1. rewrite E.
    rewrite bool_decide_eq_false_2 by discriminate.
    rewrite bool_decide_eq_true_2 by reflexivity. reflexivity.
  - intros E. rewrite Hen. subst c1. rewrite E.
    rewrite bool_decide_eq_true_2 by reflexivity. reflexivity.
  - intros l E. rewrite E. change (default EmptyString (Some l)) with l.
    destruct (existsb (String.eqb l) levels) eqn:Hl.
    + assert (Ht : string_truthy (Some l) = true).
      { apply existsb_eqb_In in Hl. simpl in Hl.
        decompose [or] Hl; subst; try reflexivity; contradiction. }
      rewrite Ht. reflexivity.
    + rewrite andb_false_r. exact Hlevel.
  - intros E. rewrite E. cbn [string_truthy andb]. exact Hlevel.
Qed.

Lemma localStorage_has_the_last_word_witness :
  let after :=
    config (constructor browser_host "t" clock0
              (PartialConfig.mk (Some false) (Some "warn") None None None None None None) []) in
  DebugConfig.enabled after = true /\ DebugConfig.level after = "warn".
Proof.
  intros after.
  pose proof (localStorage_has_the_last_word browser_host
                {[ "dianoia_debug_enabled" := "true"; "dianoia_debug_level" := "verbose" ]}
                "t" clock0
                (PartialConfig.mk (Some false) (Some "warn") None None None None None None) []
                eq_refl) as (Hon & _ & Hlevel & _).
  split; [exact (Hon eq_refl) | exact (Hlevel "verbose" eq_refl)].
Defined.

(** ** Export, further *)

Lemma entry_value_well_formed (e : LogEntry.t) :
  payloads_well_formed e = true -> well_formed (entry_value e) = true.
Proof.
  unfold payloads_well_formed. intros H. apply andb_true_iff in H as [Hd Hc].
  destruct e as [ts lv co ac me da pf er cx]. simpl in *.
  destruct pf as [[[d|] [m|]]|], er as [[n m' [s|]]|];
    simpl; rewrite ?Hd, ?Hc; reflexivity.
Qed.

Lemma logs_value_well_formed (logs : list LogEntry.t) :
  forallb payloads_well_formed logs = true -> well_formed (logs_value logs) = true.
Proof.
  unfold logs_value. induction logs as [|e logs IH]; [reflexivity|].
  simpl forallb. intros H. apply andb_true_iff in H as [He Hlogs].
  change (well_formed (entry_value e) && well_formed (VArr lit (map entry_value logs)) = true).
  rewrite (entry_value_well_formed e He), (IH Hlogs). reflexivity.
Qed.

Lemma nodup_keys_entry_value (e : LogEntry.t) :
  nodup_keys (Object_keys (entry_value e)) = true.
Proof.
  destruct e as [ts lv co ac me da pf er cx]. destruct pf, er; reflexivity.
Qed.

Lemma parsed_entry_identity (e : LogEntry.t) :
  let parsed := json_view (entry_value e) in
  get parsed "timestamp" = VStr (LogEntry.timestamp e)
  /\ get parsed "level" = VStr (LogEntry.level e)
  /\ get parsed "component" = VStr (LogEntry.component e)
  /\ get parsed "action" = VStr (LogEntry.action e)
  /\ get parsed "message" = VStr (LogEntry.message e).
Proof.
  intros parsed. subst parsed.
  pose proof (nodup_keys_entry_value e) as Hnodup.
  unfold entry_value in *. rewrite json_view_obj. unfold get. cbn [own_props].
  unfold Object_keys in Hnodup. cbn [own_props] in Hnodup.
  destruct e as [ts lv co ac me da pf er cx]. cbn [LogEntry.timestamp LogEntry.level
    LogEntry.component LogEntry.action LogEntry.message LogEntry.data LogEntry.context] in *.
  split; [|split; [|split; [|split]]];
    match goal with
    | |- get_prop ?k _ = ?v => apply (get_prop_keep_defined (k, v) _ Hnodup); simpl; tauto
    end.
Qed.

(** X15.  The text of [exportLogs] always parses, also when payloads hold
    [NaN] or [undefined]: to an array with one object per buffered entry,
    in buffer order, whose [timestamp], [level], [component], [action]
    and [message] are those of the entry.  Exporting is stable: the
    parsed array serializes to the exported text again. *)
Theorem exportLogs_parses_and_is_stable (st : State) :
  forallb payloads_well_formed (logBuffer st) = true ->
  exists parsed : list jsval,
    JSON_parse (exportLogs st) = Some (VArr lit parsed)
    /\ length parsed = length (logBuffer st)
    /\ JSON_stringify 2 (VArr lit parsed) = Some (exportLogs st)
    /\ forall (i : nat) (e : LogEntry.t),
         logBuffer st !! i = Some e ->
         exists p : jsval,
           parsed !! i = Some p
           /\ get p "timestamp" = VStr (LogEntry.timestamp e)
           /\ get p "level" = VStr (LogEntry.level e)
           /\ get p "component" = VStr (LogEntry.component e)
           /\ get p "action" = VStr (LogEntry.action e)
           /\ get p "message" = VStr (LogEntry.message e).
Proof.
  intros Hwf. apply logs_value_well_formed in Hwf.
  exists (map (fun e => json_view (entry_value e)) (logBuffer st)).
  assert (Hview : json_view (logs_value (logBuffer st))
                  = VArr lit (map (fun e => json_view (entry_value e)) (logBuffer st))).
  { unfold logs_value. rewrite json_view_arr, map_map. reflexivity. }
  split; [|split; [|split]].
  - destruct (JSON_parse_stringify 2 (logs_value (logBuffer st)) Hwf ltac:(discriminate))
      as (txt & Htxt & Hparse).
    rewrite exportLogs_text in Htxt. injection Htxt as <-. rewrite <- Hview. exact Hparse.
  - apply length_map.
  - rewrite <- Hview, <- exportLogs_text. unfold JSON_stringify. apply serialize_json_view.
  - intros i e Hi. exists (json_view (entry_value e)). split.
    + change (map (fun e0 => json_view (entry_value e0)) (logBuffer st))
        with ((fun e0 => json_view (entry_value e0)) <$> logBuffer st).
      rewrite list_lookup_fmap, Hi. reflexivity.
    + apply parsed_entry_identity.
Qed.

Lemma exportLogs_parses_and_is_stable_witness :
  forallb payloads_well_formed (logBuffer nan_logger) = true
  /\ (LogEntry.data <$> last (logBuffer nan_logger)) = Some VNaN
  /\ exists parsed : list jsval,
       JSON_parse (exportLogs nan_logger) = Some (VArr lit parsed)
       /\ length parsed = 2%nat
       /\ JSON_stringify 2 (VArr lit parsed) = Some (exportLogs nan_logger).
Proof.
  split; [vm_compute; reflexivity|]. split; [reflexivity|].
  destruct (exportLogs_parses_and_is_stable nan_logger eq_refl)
    as (parsed & Hparse & Hlen & Hstable & _).
  exists parsed. split; [exact Hparse|]. split; [exact Hlen | exact Hstable].
Defined.

(** ** State changes, further *)

Lemma strict_eq_sym (a b : jsval) : strict_eq a b = strict_eq b a.
Proof.
  destruct a, b; simpl; try reflexivity.
  - destruct b, b0; reflexivity.
  - apply Z.eqb_sym.
  - apply String.eqb_sym.
  - apply N.eqb_sym.
  - apply N.eqb_sym.
Qed.

Lemma strict_neq_self (v : jsval) : strict_neq v v = is_nan v.
Proof.
  unfold strict_neq. destruct v; simpl; try reflexivity.
  - destruct b; reflexivity.
  - rewrite Z.eqb_refl. reflexivity.
  - rewrite String.eqb_refl. reflexivity.
  - rewrite N.eqb_refl. reflexivity.
  - rewrite N.eqb_refl. reflexivity.
Qed.

Lemma own_props_falsy (v : jsval) : truthy v = false -> own_props v = [].
Proof.
  destruct v; simpl; try reflexivity; try discriminate.
  destruct s; [reflexivity | discriminate].
Qed.

(** The keys of the diff of two values of any kind. *)
Lemma has_prop_getStateChanges proto (a b : jsval) (key : string) :
  has_prop key (getStateChanges proto a b)
  = truthy a && truthy b
    && (has_prop key (own_props a) || has_prop key (own_props b))
    && differs proto a b key
    && negb (String.eqb key "__proto__").
Proof.
  destruct (truthy a) eqn:Ha; [destruct (truthy b) eqn:Hb|].
  - rewrite getStateChanges_truthy by assumption.
    rewrite has_prop_diff_loop. unfold Object_keys. rewrite existsb_union_keys. reflexivity.
  - unfold getStateChanges. rewrite Ha, Hb. reflexivity.
  - unfold getStateChanges. rewrite Ha. reflexivity.
Qed.

Lemma get_prop_getStateChanges proto (a b : jsval) (key : string) :
  get_prop key (getStateChanges proto a b)
  = if has_prop key (getStateChanges proto a b)
    then VObj lit [("from", read proto a key); ("to", read proto b key)]
    else VUndef.
Proof.
  rewrite has_prop_getStateChanges.
  destruct (truthy a) eqn:Ha; [destruct (truthy b) eqn:Hb|].
  - rewrite getStateChanges_truthy by assumption.
    rewrite get_prop_diff_loop. unfold Object_keys. rewrite existsb_union_keys. reflexivity.
  - unfold getStateChanges. rewrite Ha, Hb. reflexivity.
  - unfold getStateChanges. rewrite Ha. reflexivity.
Qed.

Lemma no_props_nil (props : list (string * jsval)) :
  (forall key, has_prop key props = false) -> props = [].
Proof.
  destruct props as [|[k v] props]; [reflexivity|].
  intros H. specialize (H k). simpl in H. rewrite String.eqb_refl in H. discriminate.
Qed.

(** X16.  Comparing a state with itself reports exactly the properties
    whose value is [NaN], which is the one value that is not strictly
    equal to itself (a property named [__proto__] apart, which is never
    reported); a state without such a property has no changes, also
    when it holds nested objects.  The prototype chain plays no part:
    every key compared is a key of the state. *)
Theorem self_diff_reports_only_NaN (proto : jsval -> string -> jsval) (state : jsval) :
  (forall key,
     has_prop key (getStateChanges proto state state)
     = has_prop key (own_props state) && is_nan (get state key)
       && negb (String.eqb key "__proto__"))
  /\ (forallb (fun kv => negb (is_nan (snd kv))) (own_props state) = true ->
      getStateChanges proto state state = []).
Proof.
  assert (Hkeys : forall key,
            has_prop key (getStateChanges proto state state)
            = has_prop key (own_props state) && is_nan (get state key)
              && negb (String.eqb key "__proto__")).
  { intros key. rewrite has_prop_getStateChanges, orb_diag, andb_diag.
    unfold differs, read.
    destruct (has_prop key (own_props state)) eqn:Hk.
    - rewrite strict_neq_self. destruct (truthy state) eqn:Ht; [reflexivity|].
      rewrite (own_props_falsy _ Ht) in Hk. discriminate.
    - rewrite andb_false_r. reflexivity. }
  split; [exact Hkeys|].
  intros Hnone. apply no_props_nil. intros key. rewrite Hkeys.
  destruct (has_prop key (own_props state)) eqn:Hk; [|reflexivity].
  apply get_prop_In in Hk. rewrite forallb_forall in Hnone.
  specialize (Hnone _ Hk). simpl in Hnone. unfold get.
  apply negb_true_iff in Hnone. rewrite Hnone. reflexivity.
Qed.

(** X17.  The diff is symmetric: swapping the old and the new state
    reports the same keys, with [from] and [to] exchanged. *)
Theorem state_changes_are_symmetric (proto : jsval -> string -> jsval)
    (oldState newState : jsval) (key : string) :
  has_prop key (getStateChanges proto newState oldState)
  = has_prop key (getStateChanges proto oldState newState)
  /\ get (get_prop key (getStateChanges proto newState oldState)) "from"
     = get (get_prop key (getStateChanges proto oldState newState)) "to"
  /\ get (get_prop key (getStateChanges proto newState oldState)) "to"
     = get (get_prop key (getStateChanges proto oldState newState)) "from".
Proof.
  assert (Hkeys : has_prop key (getStateChanges proto newState oldState)
                  = has_prop key (getStateChanges proto oldState newState)).
  { rewrite !has_prop_getStateChanges. unfold differs, strict_neq.
    rewrite (strict_eq_sym (read proto newState key)).
    rewrite (andb_comm (truthy newState)), (orb_comm (has_prop key (own_props newState))).
    reflexivity. }
  split; [exact Hkeys|].
  rewrite !get_prop_getStateChanges, Hkeys.
  destruct (has_prop key (getStateChanges proto oldState newState)); split; reflexivity.
Qed.

(** ** What no call does *)

Lemma forallb_push_bounded (f : LogEntry.t -> bool) (e : LogEntry.t)
    (buffer : list LogEntry.t) :
  forallb f buffer = true -> f e = true -> forallb f (push_bounded e buffer) = true.
Proof.
  intros Hb He. unfold push_bounded.
  assert (Hall : forallb f (buffer ++ [e]) = true).
  { rewrite forallb_app, Hb. simpl. rewrite He. reflexivity. }
  destruct (_ <? _)%nat; [|exact Hall].
  destruct (buffer ++ [e]) as [|x rest]; [reflexivity|].
  simpl in Hall. apply andb_true_iff in Hall as [_ Hrest]. exact Hrest.
Qed.

Lemma plain_createLogEntry st clk lv co ac me da cx :
  plain_entry (createLogEntry st clk lv co ac me da cx) = true.
Proof. unfold createLogEntry. destruct (DebugConfig.includePerformance _); reflexivity. Qed.

Lemma no_error_line_console_calls (formatted : string) (e : LogEntry.t) :
  plain_entry e = true ->
  forallb (fun c => negb (is_error_line c)) (console_calls formatted e) = true.
Proof.
  unfold plain_entry. intros H. apply andb_true_iff in H as [Herr _].
  destruct (LogEntry.error e) eqn:E; [discriminate|].
  unfold console_calls. rewrite E.
  destruct (truthy (LogEntry.data e)), (LogEntry.performance e),
    (truthy (LogEntry.context e)); reflexivity.
Qed.

Lemma tidy_leveled l clk co ac me da cx st :
  forallb plain_entry (logBuffer st) = true ->
  forallb (fun c => negb (is_error_line c)) (console st) = true ->
  tidy (leveled l clk co ac me da cx st) = true.
Proof.
  intros Hb Hc. unfold tidy. rewrite logBuffer_leveled, console_leveled.
  destruct (shouldLog st (level_name l)); simpl.
  - rewrite forallb_push_bounded by (try exact Hb; apply plain_createLogEntry).
    destruct (DebugConfig.logToConsole (config st)); [|exact Hc].
    rewrite forallb_app, Hc. apply no_error_line_console_calls, plain_createLogEntry.
  - rewrite Hb, Hc. reflexivity.
Qed.

Lemma tidy_run (c : Call) (st : State) : tidy st = true -> tidy (run c st) = true.
Proof.
  intros H. pose proof H as H'. unfold tidy in H'. apply andb_true_iff in H' as [Hb Hc].
  destruct c; simpl run; try exact H.
  - apply (tidy_leveled ERROR); assumption.
  - apply (tidy_leveled WARN); assumption.
  - apply (tidy_leveled INFO); assumption.
  - apply (tidy_leveled DEBUG); assumption.
  - apply (tidy_leveled TRACE); assumption.
  - apply (tidy_leveled DEBUG); assumption.
  - unfold startTimer. destruct (_ || _); simpl; [exact H|].
    apply (tidy_leveled TRACE); assumption.
  - unfold endTimer. destruct (_ || _); [exact H|].
    destruct (performanceMetrics st !! timerId).
    + match goal with
      | |- tidy (set_performanceMetrics ?m ?s) = true =>
          change (tidy (set_performanceMetrics m s)) with (tidy s)
      end.
      apply (tidy_leveled INFO); assumption.
    + apply (tidy_leveled WARN); assumption.
  - unfold trackError. apply (tidy_leveled ERROR); assumption.
  - apply (tidy_leveled INFO); assumption.
  - unfold trackAPIResponse. apply (tidy_leveled INFO); assumption.
  - unfold trackStateChange. apply (tidy_leveled DEBUG); assumption.
  - unfold updateConfig. apply (tidy_leveled INFO); assumption.
  - unfold clearLogs. apply (tidy_leveled INFO); [reflexivity | assumption].
Qed.

(** X26.  No entry in the buffer ever has an [error] field, and a
    [performance] field holds a [duration] only: this is so after
    construction and stays so under every sequence of public calls,
    [trackError] included, which puts the error in [data].  The
    [Error:] line of the console details is therefore never printed. *)
Theorem no_entry_carries_an_error_field (h : Host) (data_iso : string) (clk : Clock)
    (partial : PartialConfig.t) (calls : list Call) :
  let st := run_all calls (constructor h data_iso clk partial []) in
  forallb plain_entry (logBuffer st) = true
  /\ forallb (fun c => negb (is_error_line c)) (console st) = true
  /\ forallb (fun e => negb (has_prop "error" (own_props (json_view (entry_value e)))))
       (logBuffer st) = true.
Proof.
  intros st. subst st.
  assert (H0 : tidy (constructor h data_iso clk partial []) = true).
  { unfold constructor, initializeDebugMode. cbv zeta.
    destruct (DebugConfig.enabled _); [|reflexivity].
    apply (tidy_leveled DEBUG); reflexivity. }
  assert (H : tidy (run_all calls (constructor h data_iso clk partial [])) = true).
  { revert H0. generalize (constructor h data_iso clk partial []).
    unfold run_all. induction calls as [|c calls IH]; intros s Hs; [exact Hs|].
    simpl. apply IH, tidy_run, Hs. }
  unfold tidy in H. apply andb_true_iff in H as [Hb Hc].
  split; [exact Hb|]. split; [exact Hc|].
  rewrite forallb_forall in *. intros e He. specialize (Hb e He).
  unfold plain_entry in Hb. apply andb_true_iff in Hb as [Herr _].
  destruct e as [ts lv co ac me da pf er cx]. simpl in Herr.
  destruct er; [discriminate|].
  unfold entry_value. rewrite json_view_obj. cbn [own_props].
  rewrite has_prop_existsb.
  apply negb_true_iff, existsb_keys_omap; [apply keep_defined_key|].
  destruct pf; reflexivity.
Qed.

(** * The frontend logger *)

Section SimpleLoggerProperties.

Context {num : Type} `{Number num}.

Implicit Types (st : SimpleLogger.State num) (c : SimpleLogger.LogCall).

Lemma simple_run_log c st :
  SimpleLogger.run c st =
  SimpleLogger.log (SimpleLogger.timestamp (SimpleLogger.entry_of c))
    (SimpleLogger.level (SimpleLogger.entry_of c))
    (SimpleLogger.category (SimpleLogger.entry_of c))
    (SimpleLogger.action (SimpleLogger.entry_of c))
    (SimpleLogger.message (SimpleLogger.entry_of c))
    (SimpleLogger.data (SimpleLogger.entry_of c)) st.
Proof. destruct c; reflexivity. Qed.

Lemma simple_log_enabled now lv ca ac me da st :
  SimpleLogger.enabled (SimpleLogger.config st) = true ->
  SimpleLogger.logs (SimpleLogger.log now lv ca ac me da st)
  = let pushed := SimpleLogger.logs st ++ [SimpleLogger.mkLog now lv ca ac me da] in
    if Z.of_nat (length pushed) >? SimpleLogger.maxLogs (SimpleLogger.config st)
    then slice (- SimpleLogger.maxLogs (SimpleLogger.config st)) pushed
    else pushed.
Proof. intros He. unfold SimpleLogger.log. rewrite He. reflexivity. Qed.

Lemma simple_run_logs c st :
  SimpleLogger.enabled (SimpleLogger.config st) = true ->
  SimpleLogger.logs (SimpleLogger.run c st)
  = let pushed := SimpleLogger.logs st ++ [SimpleLogger.entry_of c] in
    if Z.of_nat (length pushed) >? SimpleLogger.maxLogs (SimpleLogger.config st)
    then slice (- SimpleLogger.maxLogs (SimpleLogger.config st)) pushed
    else pushed.
Proof.
  intros He. rewrite simple_run_log, simple_log_enabled by exact He.
  destruct (SimpleLogger.entry_of c); reflexivity.
Qed.

Lemma simple_run_disabled c st :
  SimpleLogger.enabled (SimpleLogger.config st) = false -> SimpleLogger.run c st = st.
Proof. intros He. rewrite simple_run_log. unfold SimpleLogger.log. rewrite He. reflexivity. Qed.

Lemma simple_keeps_newest c st :
  SimpleLogger.enabled (SimpleLogger.config st) = true ->
  1 <= SimpleLogger.maxLogs (SimpleLogger.config st) ->
  SimpleLogger.logs (SimpleLogger.run c st)
  = drop (length (SimpleLogger.logs st ++ [SimpleLogger.entry_of c])
          - Z.to_nat (SimpleLogger.maxLogs (SimpleLogger.config st)))
      (SimpleLogger.logs st ++ [SimpleLogger.entry_of c]).
Proof.
  intros He Hmax. rewrite simple_run_logs by exact He. cbv zeta.
  set (pushed := SimpleLogger.logs st ++ [SimpleLogger.entry_of c]).
  set (m := SimpleLogger.maxLogs (SimpleLogger.config st)) in *.
  destruct (Z.of_nat (length pushed) >? m) eqn:E.
  - apply Z.gtb_lt in E. unfold slice.
    replace (- m <? 0) with true by (symmetry; apply Z.ltb_lt; lia).
    f_equal. lia.
  - assert (Z.of_nat (length pushed) <= m) by (rewrite Z.gtb_ltb in E; apply Z.ltb_ge in E; lia).
    replace (length pushed - Z.to_nat m)%nat with 0%nat by lia. reflexivity.
Qed.

(** X18.  The frontend logger has no level filter: [logLevel] is never
    consulted, so that changing it changes neither the buffer nor the
    console output of a logging call.  What decides is [enabled] alone:
    a disabled logger is left as it was, and an enabled one with a
    positive [maxLogs] ends with the entry of the call as the newest of
    its buffer, [trace] under any [logLevel] included. *)
Theorem frontend_logger_has_no_level_filter c st (l : string) :
  SimpleLogger.logs (SimpleLogger.run c (SimpleLogger.with_logLevel l st))
  = SimpleLogger.logs (SimpleLogger.run c st)
  /\ SimpleLogger.console (SimpleLogger.run c (SimpleLogger.with_logLevel l st))
     = SimpleLogger.console (SimpleLogger.run c st)
  /\ (SimpleLogger.enabled (SimpleLogger.config st) = false -> SimpleLogger.run c st = st)
  /\ (SimpleLogger.enabled (SimpleLogger.config st) = true ->
      1 <= SimpleLogger.maxLogs (SimpleLogger.config st) ->
      last (SimpleLogger.logs (SimpleLogger.run c st)) = Some (SimpleLogger.entry_of c)).
Proof.
  split; [|split; [|split]].
  - rewrite !simple_run_log. unfold SimpleLogger.log. simpl.
    destruct (SimpleLogger.enabled (SimpleLogger.config st)); reflexivity.
  - rewrite !simple_run_log. unfold SimpleLogger.log. simpl.
    destruct (SimpleLogger.enabled (SimpleLogger.config st)); reflexivity.
  - apply simple_run_disabled.
  - intros He Hmax. rewrite simple_keeps_newest by assumption.
    rewrite drop_app_le by (rewrite length_app; simpl; lia).
    apply last_snoc.
Qed.

(** X19.  With a positive [maxLogs], a logging call on an enabled
    frontend logger keeps the newest [maxLogs] entries of the buffer
    with the new entry pushed: the buffer afterwards is that suffix,
    whatever its length was before, so that a [maxLogs] lowered by
    [updateConfig] takes effect at the next logging call. *)
Theorem frontend_logger_keeps_the_newest c st :
  SimpleLogger.enabled (SimpleLogger.config st) = true ->
  1 <= SimpleLogger.maxLogs (SimpleLogger.config st) ->
  let pushed := SimpleLogger.logs st ++ [SimpleLogger.entry_of c] in
  let limit := Z.to_nat (SimpleLogger.maxLogs (SimpleLogger.config st)) in
  SimpleLogger.logs (SimpleLogger.run c st) = drop (length pushed - limit) pushed
  /\ length (SimpleLogger.logs (SimpleLogger.run c st)) = Nat.min (length pushed) limit
  /\ (length (SimpleLogger.logs st) < limit ->
      SimpleLogger.logs (SimpleLogger.run c st) = pushed)%nat.
Proof.
  intros He Hmax pushed limit.
  pose proof (simple_keeps_newest c st He Hmax) as E. fold pushed in E. fold limit in E.
  split; [exact E|]. split.
  - rewrite E, length_drop. lia.
  - intros Hlt. rewrite E. subst pushed. rewrite length_app. simpl.
    replace (length (SimpleLogger.logs st) + 1 - limit)%nat with 0%nat by lia. reflexivity.
Qed.

(** X20.  A [maxLogs] of zero does not empty the buffer, it removes the
    bound: [slice(-0)] keeps everything, so every logging call makes the
    buffer one entry longer.  A negative [maxLogs] of [-n] drops the [n]
    oldest entries at every logging call. *)
Theorem frontend_logger_maxLogs_not_positive c st :
  SimpleLogger.enabled (SimpleLogger.config st) = true ->
  SimpleLogger.maxLogs (SimpleLogger.config st) <= 0 ->
  SimpleLogger.logs (SimpleLogger.run c st)
  = drop (Z.to_nat (- SimpleLogger.maxLogs (SimpleLogger.config st)))
      (SimpleLogger.logs st ++ [SimpleLogger.entry_of c])
  /\ (SimpleLogger.maxLogs (SimpleLogger.config st) = 0 ->
      SimpleLogger.logs (SimpleLogger.run c st)
      = SimpleLogger.logs st ++ [SimpleLogger.entry_of c]).
Proof.
  intros He Hmax.
  assert (E : SimpleLogger.logs (SimpleLogger.run c st)
              = drop (Z.to_nat (- SimpleLogger.maxLogs (SimpleLogger.config st)))
                  (SimpleLogger.logs st ++ [SimpleLogger.entry_of c])).
  { rewrite simple_run_logs by exact He. cbv zeta.
    set (pushed := SimpleLogger.logs st ++ [SimpleLogger.entry_of c]).
    set (m := SimpleLogger.maxLogs (SimpleLogger.config st)) in *.
    assert (Hlen : (1 <= length pushed)%nat)
      by (subst pushed; rewrite length_app; simpl; lia).
    replace (Z.of_nat (length pushed) >? m) with true by (symmetry; apply Z.gtb_lt; lia).
    unfold slice. replace (- m <? 0) with false by (symmetry; apply Z.ltb_ge; lia).
    destruct (Z.le_gt_cases (- m) (Z.of_nat (length pushed))) as [Hle | Hgt].
    - rewrite Z.min_l by exact Hle. reflexivity.
    - rewrite Z.min_r by lia. rewrite Nat2Z.id.
      rewrite !drop_ge by lia. reflexivity. }
  split; [exact E|].
  intros H0. rewrite E, H0. reflexivity.
Qed.

(** X21.  The frontend timers: [endTimer] on a name that was started
    returns the difference of the two readings and removes the timer;
    except that a timer started at a reading of zero counts as missing,
    returns [0] and stays in the map.  An unknown name returns [0] and
    changes nothing.  Timers do not look at [enabled]. *)
Theorem frontend_timer_round_trip (now1 now2 : num) (name : string) st :
  let started := SimpleLogger.startTimer now1 name st in
  SimpleLogger.endTimer now2 name started
  = (if num_truthy now1
     then (SimpleLogger.mkState (SimpleLogger.logs st) (SimpleLogger.config st)
             (delete name (SimpleLogger.timers st)) (SimpleLogger.console st),
           num_sub now2 now1)
     else (started, num_zero))
  /\ (SimpleLogger.timers st !! name = None ->
      SimpleLogger.endTimer now2 name st = (st, num_zero)).
Proof.
  intros started. split.
  - subst started. unfold SimpleLogger.endTimer, SimpleLogger.startTimer. simpl.
    rewrite lookup_insert_eq. destruct (num_truthy now1); [|reflexivity].
    rewrite delete_insert_eq. reflexivity.
  - intros Hnone. unfold SimpleLogger.endTimer. rewrite Hnone. reflexivity.
Qed.

Lemma simple_log_value_well_formed (l : SimpleLogger.DebugLog) :
  well_formed (SimpleLogger.data l) = true ->
  well_formed (SimpleLogger.log_value l) = true.
Proof. intros Hd. destruct l. simpl in *. rewrite Hd. reflexivity. Qed.

(** X22.  The text of the frontend [exportLogs] parses back: to an array
    with one object per buffered entry, in buffer order, whose
    [timestamp], [level], [category], [action] and [message] are those
    of the entry, and whose [data] is the JSON view of the entry's
    payload, or is missing when the payload is [undefined]. *)
Theorem frontend_export_parses_back st :
  forallb (fun l => well_formed (SimpleLogger.data l)) (SimpleLogger.logs st) = true ->
  exists parsed : list jsval,
    JSON_parse (SimpleLogger.exportLogs st) = Some (VArr lit parsed)
    /\ length parsed = length (SimpleLogger.logs st)
    /\ forall (i : nat) (l : SimpleLogger.DebugLog),
         SimpleLogger.logs st !! i = Some l ->
         exists p : jsval,
           parsed !! i = Some p
           /\ get p "timestamp" = VStr (SimpleLogger.timestamp l)
           /\ get p "level" = VStr (SimpleLogger.level l)
           /\ get p "category" = VStr (SimpleLogger.category l)
           /\ get p "action" = VStr (SimpleLogger.action l)
           /\ get p "message" = VStr (SimpleLogger.message l)
           /\ get p "data" = match SimpleLogger.data l with
                             | VUndef => VUndef
                             | d => json_view d
                             end.
Proof.
  intros Hwf.
  set (v := VArr lit (map SimpleLogger.log_value (SimpleLogger.logs st))).
  assert (Hv : well_formed v = true).
  { subst v. induction (SimpleLogger.logs st) as [|l ls IH]; [reflexivity|].
    simpl in Hwf. apply andb_true_iff in Hwf as [Hl Hls].
    change (well_formed (SimpleLogger.log_value l)
            && well_formed (VArr lit (map SimpleLogger.log_value ls)) = true).
    rewrite (simple_log_value_well_formed l Hl), (IH Hls). reflexivity. }
  exists (map (fun l => json_view (SimpleLogger.log_value l)) (SimpleLogger.logs st)).
  split; [|split].
  - destruct (JSON_parse_stringify 2 v Hv ltac:(discriminate)) as (txt & Htxt & Hparse).
    unfold SimpleLogger.exportLogs. fold v. rewrite Htxt. simpl default.
    rewrite Hparse. subst v. rewrite json_view_arr, map_map. reflexivity.
  - apply length_map.
  - intros i l Hi. exists (json_view (SimpleLogger.log_value l)). split.
    + change (map (fun l0 => json_view (SimpleLogger.log_value l0)) (SimpleLogger.logs st))
        with ((fun l0 => json_view (SimpleLogger.log_value l0)) <$> SimpleLogger.logs st).
      rewrite list_lookup_fmap, Hi. reflexivity.
    + destruct l as [ts lv ca ac me da]. unfold SimpleLogger.log_value.
      rewrite json_view_obj. unfold get. cbn [own_props SimpleLogger.timestamp
        SimpleLogger.level SimpleLogger.category SimpleLogger.action SimpleLogger.message
        SimpleLogger.data].
      split; [|split; [|split; [|split; [|split]]]];
        match goal with
        | |- get_prop ?k (omap keep_defined ?ps) = _ =>
            etransitivity;
            [ apply (get_prop_keep_defined (k, get_prop k ps) ps eq_refl); simpl; tauto
            | simpl; try reflexivity; destruct da; reflexivity ]
        end.
Qed.

End SimpleLoggerProperties.

Lemma frontend_logger_keeps_the_newest_witness :
  SimpleLogger.enabled (SimpleLogger.config cramped_frontend) = true
  /\ 1 <= SimpleLogger.maxLogs (SimpleLogger.config cramped_frontend)
  /\ length (SimpleLogger.logs cramped_frontend) = 3%nat
  /\ SimpleLogger.logs (SimpleLogger.run sample_trace cramped_frontend)
     = drop 2 (SimpleLogger.logs cramped_frontend ++ [SimpleLogger.entry_of sample_trace])
  /\ length (SimpleLogger.logs (SimpleLogger.run sample_trace cramped_frontend)) = 2%nat.
Proof.
  pose proof (frontend_logger_keeps_the_newest sample_trace cramped_frontend
                eq_refl ltac:(simpl; lia)) as (Hlogs & Hlen & _).
  split; [reflexivity|]. split; [simpl; lia|]. split; [reflexivity|].
  split; [exact Hlogs | exact Hlen].
Defined.

Lemma frontend_logger_maxLogs_not_positive_witness :
  SimpleLogger.enabled (SimpleLogger.config unbounded_frontend) = true
  /\ SimpleLogger.maxLogs (SimpleLogger.config unbounded_frontend) <= 0
  /\ SimpleLogger.logs (SimpleLogger.run sample_trace unbounded_frontend)
     = SimpleLogger.logs unbounded_frontend ++ [SimpleLogger.entry_of sample_trace].
Proof.
  split; [reflexivity|]. split; [simpl; lia|].
  exact (proj2 (frontend_logger_maxLogs_not_positive sample_trace unbounded_frontend
                  eq_refl ltac:(simpl; lia)) eq_refl).
Defined.

Lemma frontend_export_parses_back_witness :
  forallb (fun l => well_formed (SimpleLogger.data l))
    (SimpleLogger.logs cramped_frontend) = true
  /\ exists parsed : list jsval,
       JSON_parse (SimpleLogger.exportLogs cramped_frontend) = Some (VArr lit parsed)
       /\ length parsed = 3%nat.
Proof.
  split; [reflexivity|].
  destruct (frontend_export_parses_back cramped_frontend eq_refl)
    as (parsed & Hparse & Hlen & _).
  exists parsed. split; [exact Hparse | exact Hlen].
Defined.

(** * The LLM service *)

(** X23.  [setSessionKey] never logs the key: what it leaves in the
    logger depends on the key only through whether it is empty, so two
    configurations that differ in a non-empty key leave the same buffer
    and the same console transcript. *)
Theorem setSessionKey_logs_no_key (clk1 clk2 : Clock) (sessionId : string)
    (config : LLMService.LLMConfig) (key1 key2 : string) (w : LLMService.World) :
  truthy (VStr key1) = truthy (VStr key2) ->
  LLMService.debug (LLMService.setSessionKey clk1 clk2 sessionId (with_apiKey key1 config) w)
  = LLMService.debug (LLMService.setSessionKey clk1 clk2 sessionId (with_apiKey key2 config) w).
Proof.
  intros Hk. unfold LLMService.setSessionKey. cbv zeta. cbn [LLMService.debug].
  cbn [with_apiKey LLMService.apiKey LLMService.provider LLMService.model].
  rewrite Hk, !map_size_insert. reflexivity.
Qed.

Lemma setSessionKey_logs_no_key_witness :
  truthy (VStr "sk-secret") = truthy (VStr "sk-other")
  /\ length (logBuffer (LLMService.debug
               (LLMService.setSessionKey clock0 clock0 "s1"
                  (with_apiKey "sk-secret" sample_session) empty_service))) = 2%nat
  /\ LLMService.debug
       (LLMService.setSessionKey clock0 clock0 "s1"
          (with_apiKey "sk-secret" sample_session) empty_service)
     = LLMService.debug
         (LLMService.setSessionKey clock0 clock0 "s1"
            (with_apiKey "sk-other" sample_session) empty_service).
Proof.
  split; [reflexivity|]. split; [reflexivity|].
  exact (setSessionKey_logs_no_key clock0 clock0 "s1" sample_session
           "sk-secret" "sk-other" empty_service eq_refl).
Defined.

(** X24.  A session key that was set is the one returned: [getSessionKey]
    after [setSessionKey] for the same session returns the configuration
    just stored, replacing an earlier one; for another session it
    returns what was stored before, or [null]; and it changes no key. *)
Theorem session_key_round_trip (clk1 clk2 clk3 : Clock) (sessionId other : string)
    (config : LLMService.LLMConfig) (w : LLMService.World) :
  let stored := LLMService.setSessionKey clk1 clk2 sessionId config w in
  snd (LLMService.getSessionKey clk3 sessionId stored) = Some config
  /\ (other <> sessionId ->
      snd (LLMService.getSessionKey clk3 other stored) = LLMService.sessionKeys w !! other)
  /\ LLMService.sessionKeys (fst (LLMService.getSessionKey clk3 other stored))
     = <[sessionId := config]> (LLMService.sessionKeys w)
  /\ size (LLMService.sessionKeys stored)
     = (if is_some (LLMService.sessionKeys w !! sessionId)
        then size (LLMService.sessionKeys w)
        else S (size (LLMService.sessionKeys w))).
Proof.
  intros stored. subst stored. unfold LLMService.getSessionKey, LLMService.setSessionKey.
  cbn [snd fst LLMService.sessionKeys]. split; [|split; [|split]].
  - apply lookup_insert_eq.
  - intros Hne. apply lookup_insert_ne. congruence.
  - reflexivity.
  - rewrite map_size_insert. destruct (LLMService.sessionKeys w !! sessionId); reflexivity.
Qed.

(** X25.  [getPromptTemplate] returns a prompt exactly for the actions
    [supports], [refutes] and [unpacks]; the prompt holds the claim
    verbatim between double quotes.  For any other action it throws
    [Unknown action: <action>], after logging at level [error].  In
    both cases it makes two logger calls, so the buffer grows by at
    most two entries. *)
Theorem getPromptTemplate_knows_three_actions (clk1 clk2 : Clock) (stack : option string)
    (action claim : string) (st : State) :
  let out := LLMService.getPromptTemplate clk1 clk2 stack action claim st in
  is_normal (snd out) = existsb (String.eqb action) ["supports"; "refutes"; "unpacks"]
  /\ (forall prompt, snd out = Normal prompt ->
        exists task closing,
          prompt = LLMService.baseInstruction +:+ nl +:+ nl +:+ task +:+ nl
                     +:+ String dquote claim +:+ String dquote EmptyString
                     +:+ nl +:+ nl +:+ closing)
  /\ (forall e, snd out = Throw e ->
        e = mkError "Error" ("Unknown action: " +:+ action) stack
        /\ exists first,
             fst out = leveled ERROR clk2 "llm_service" "unknown_action"
                         "Unknown action provided" (VObj lit [("action", VStr action)])
                         VUndef first)
  /\ (length (logBuffer (fst out)) <= length (logBuffer st) + 2)%nat.
Proof.
  intros out. subst out. unfold LLMService.getPromptTemplate. cbv zeta.
  set (st1 := trace clk1 _ _ _ _ _ st).
  assert (H1 : (length (logBuffer st1) <= S (length (logBuffer st)))%nat)
    by apply (length_step_leveled TRACE).
  assert (H2 : forall l co ac me da cx,
             (length (logBuffer (leveled l clk2 co ac me da cx st1))
              <= length (logBuffer st) + 2)%nat).
  { intros. pose proof (length_step_leveled l clk2 co ac me da cx st1). lia. }
  cbn [existsb].
  destruct (String.eqb action "supports");
    [|destruct (String.eqb action "refutes"); [|destruct (String.eqb action "unpacks")]];
    cbn [fst snd is_normal orb].
  1-3: split; [reflexivity|]; split;
         [intros prompt E; injection E as <-; eexists _, _; reflexivity|];
       split; [intros e E; discriminate | apply (H2 TRACE)].
  split; [reflexivity|]. split; [intros prompt E; discriminate|].
  split; [|apply (H2 ERROR)].
  intros e E. injection E as <-. split; [reflexivity|]. exists st1. reflexivity.
Qed.

(** * The graph store *)

Section StoreProperties.

Context {num : Type}.
Variable engine_TypeError : jsval -> string -> JsError.
Variable engine_SyntaxError : string -> JsError.

Implicit Types (w : Store.World num) (a : Store.Action).

Ltac completion_step :=
  cbn [mbind mret Completion_bind Completion_ret Store.finish fst snd
         Store.state Store.localStorage Store.debug Store.with_debug
         Store.nodes Store.edges Store.with_nodes Store.with_edges Store.persist] in *.

Ltac completion_cases :=
  repeat (completion_step;
          match goal with
          | |- context [mbind _ ?c] => destruct c
          | |- context [match ?c with Normal _ => _ | Throw _ => _ end] => destruct c
          end);
  completion_step.

Lemma persist_state (o : option JsError) now text message data w :
  Store.state (Store.persist o now text message data w) = Store.state w.
Proof. destruct o; reflexivity. Qed.

Lemma persist_storage (o : option JsError) now text message data w :
  Store.localStorage (Store.persist o now text message data w)
  = match o with
    | None => <[Store.storage_key := text]> (Store.localStorage w)
    | Some _ => Store.localStorage w
    end.
Proof. destruct o; reflexivity. Qed.

(** X27.  The actions on the graph change the store and the storage
    together.  An action that throws leaves the store and the storage
    as they were.  An action that returns after a successful
    [setItem] leaves in storage the text of the graph now in the store.
    When [setItem] throws, the action ends as it would have (the error
    is caught) with the same new store, and storage keeps what it
    had: the stored graph is then stale. *)
Theorem store_and_storage_change_together (t1 t2 t3 : string) (err : JsError) a w :
  let saved := Store.run engine_TypeError t1 t2 t3 None a w in
  let failed := Store.run engine_TypeError t1 t2 t3 (Some err) a w in
  (snd saved = None -> Store.in_sync (fst saved))
  /\ (snd saved <> None ->
      Store.state (fst saved) = Store.state w
      /\ Store.localStorage (fst saved) = Store.localStorage w)
  /\ snd failed = snd saved
  /\ Store.state (fst failed) = Store.state (fst saved)
  /\ Store.localStorage (fst failed) = Store.localStorage w.
Proof.
  intros saved failed. subst saved failed. unfold Store.in_sync.
  destruct a; cbn [Store.run];
    unfold Store.addNode, Store.addEdge, Store.updateNodeLabel, Store.setNodes,
      Store.setEdges, Store.saveToLocalStorage;
    completion_cases;
    repeat split; try reflexivity; try congruence; try (intros; discriminate);
    try (intros _; apply lookup_insert_eq).
Qed.

Lemma graph_text_parses (nodes edges : jsval) :
  well_formed nodes = true -> well_formed edges = true ->
  JSON_parse (Store.graph_text nodes edges)
  = Some (json_view (VObj lit [("nodes", nodes); ("edges", edges)]))
  /\ truthy (VStr (Store.graph_text nodes edges)) = true.
Proof.
  intros Hn He.
  assert (Hwf : well_formed (VObj lit [("nodes", nodes); ("edges", edges)]) = true).
  { simpl. rewrite Hn, He. reflexivity. }
  destruct (JSON_parse_stringify 0 _ Hwf ltac:(discriminate)) as (txt & Htxt & Hparse).
  unfold Store.graph_text. rewrite Htxt. cbn [default]. split; [exact Hparse|].
  destruct txt; [discriminate Hparse | reflexivity].
Qed.

Lemma graph_text_json_view (nodes edges : jsval) :
  nodes <> VUndef -> edges <> VUndef ->
  Store.graph_text (json_view nodes) (json_view edges) = Store.graph_text nodes edges.
Proof.
  intros Hn He. unfold Store.graph_text, JSON_stringify.
  rewrite <- (serialize_json_view (VObj lit [("nodes", nodes); ("edges", edges)])).
  rewrite json_view_obj. f_equal. f_equal. f_equal.
  unfold keep_defined. simpl.
  destruct nodes, edges; try congruence; reflexivity.
Qed.

(** X28.  Reloading restores the graph.  When storage holds the text of
    the graph in the store (as it does after every action that saved),
    and nodes and edges are arrays, [loadFromLocalStorage] returns
    without throwing and sets nodes and edges to their JSON views,
    leaving the selection, the loading flag and the storage alone; the
    loaded arrays are equal field by field to the ones saved when
    those lose nothing in JSON, and storage still holds the text of
    the graph in the store. *)
Theorem load_restores_the_saved_graph (t1 t2 : string) (i j : N) (ns es : list jsval) w :
  Store.in_sync w ->
  Store.nodes (Store.state w) = VArr i ns ->
  Store.edges (Store.state w) = VArr j es ->
  well_formed (VArr i ns) = true ->
  well_formed (VArr j es) = true ->
  let out := Store.loadFromLocalStorage engine_TypeError engine_SyntaxError t1 t2 w in
  snd out = None
  /\ Store.nodes (Store.state (fst out)) = json_view (VArr i ns)
  /\ Store.edges (Store.state (fst out)) = json_view (VArr j es)
  /\ Store.selectedNode (Store.state (fst out)) = Store.selectedNode (Store.state w)
  /\ Store.isLoading (Store.state (fst out)) = Store.isLoading (Store.state w)
  /\ Store.localStorage (fst out) = Store.localStorage w
  /\ Store.in_sync (fst out)
  /\ (json_exact (VArr i ns) = true ->
      same_value (VArr i ns) (Store.nodes (Store.state (fst out))) = true)
  /\ (json_exact (VArr j es) = true ->
      same_value (VArr j es) (Store.edges (Store.state (fst out))) = true).
Proof.
  intros Hsync Hn He Hwn Hwe out.
  destruct (graph_text_parses _ _ Hwn Hwe) as [Hparse Htruthy].
  unfold Store.in_sync in Hsync. rewrite Hn, He in Hsync.
  assert (Hout : out = (Store.mkWorld
                          (Store.with_edges (json_view (VArr j es))
                             (Store.with_nodes (json_view (VArr i ns)) (Store.state w)))
                          (Store.localStorage w)
                          (SimpleLogger.info t2 "store" "load_success"
                             "Successfully loaded from localStorage"
                             (VObj lit [("nodesCount", VNum (Z.of_nat (length ns)));
                                        ("edgesCount", VNum (Z.of_nat (length es)))])
                             (SimpleLogger.info t1 "store" "load_from_storage"
                                "Loading state from localStorage" VUndef (Store.debug w))),
                        None)).
  { subst out. unfold Store.loadFromLocalStorage. cbv zeta.
    cbn [Store.localStorage Store.with_debug]. rewrite Hsync, Htruthy.
    unfold Store.parse. rewrite Hparse. rewrite !json_view_arr, json_view_obj.
    cbn -[SimpleLogger.info]. rewrite !length_map. reflexivity. }
  rewrite Hout. cbn [fst snd Store.state Store.nodes Store.edges Store.with_edges
                       Store.with_nodes Store.selectedNode Store.isLoading
                       Store.localStorage].
  do 6 (split; [reflexivity|]). split; [|split].
  - unfold Store.in_sync.
    cbn [Store.localStorage Store.state Store.nodes Store.edges Store.with_edges
           Store.with_nodes].
    rewrite graph_text_json_view by discriminate. exact Hsync.
  - intros Hx. apply same_value_json_view; assumption.
  - intros Hx. apply same_value_json_view; assumption.
Qed.

Lemma member_length_truthy (v : jsval) :
  truthy v = true -> exists c, Store.member engine_TypeError v "length" = Normal c.
Proof. destruct v; try discriminate; intros _; eexists; reflexivity. Qed.

Lemma member_defined (v : jsval) (key : string) :
  v <> VNull -> v <> VUndef -> String.eqb key "length" = false ->
  Store.member engine_TypeError v key = Normal (get v key).
Proof.
  intros Hn Hu Hk. destruct v; try congruence; try reflexivity; simpl; rewrite Hk; reflexivity.
Qed.

Lemma truthy_or_empty (v : jsval) : truthy (Store.or_empty v) = true.
Proof. unfold Store.or_empty. destruct (truthy v) eqn:E; [exact E | reflexivity]. Qed.

(** X29.  [loadFromLocalStorage] never throws, never writes to storage
    and never touches the selection or the loading flag.  Without a
    stored text, or with an empty one, the graph stays as it is.  A
    stored [null] is caught as a [TypeError], reported on the console,
    and the graph stays as it is.  Any other stored value replaces
    the graph by what it holds under [nodes] and [edges], a missing or
    falsy one becoming the empty array: a stored [{}] empties the
    graph. *)
Theorem loadFromLocalStorage_never_throws (t1 t2 : string) w :
  let out := Store.loadFromLocalStorage engine_TypeError engine_SyntaxError t1 t2 w in
  snd out = None
  /\ Store.localStorage (fst out) = Store.localStorage w
  /\ Store.selectedNode (Store.state (fst out)) = Store.selectedNode (Store.state w)
  /\ Store.isLoading (Store.state (fst out)) = Store.isLoading (Store.state w)
  /\ (Store.localStorage w !! Store.storage_key = None
      \/ Store.localStorage w !! Store.storage_key = Some EmptyString ->
      Store.state (fst out) = Store.state w)
  /\ (forall saved,
        Store.localStorage w !! Store.storage_key = Some saved ->
        JSON_parse saved = Some VNull ->
        Store.state (fst out) = Store.state w
        /\ last (SimpleLogger.console (Store.debug (fst out)))
           = Some (Console "error"
                     [ VStr "Error loading from localStorage:";
                       Store.thrown_value (engine_TypeError VNull "nodes") ]))
  /\ (forall saved v,
        Store.localStorage w !! Store.storage_key = Some saved ->
        JSON_parse saved = Some v ->
        v <> VNull -> v <> VUndef ->
        Store.nodes (Store.state (fst out)) = Store.or_empty (get v "nodes")
        /\ Store.edges (Store.state (fst out)) = Store.or_empty (get v "edges")).
Proof.
  intros out. subst out. unfold Store.loadFromLocalStorage. cbv zeta.
  cbn [Store.localStorage Store.with_debug Store.state Store.debug].
  assert (Hne : forall saved v, JSON_parse saved = Some v -> truthy (VStr saved) = true).
  { intros saved v Hp. destruct saved; [discriminate Hp | reflexivity]. }
  split; [|split; [|split; [|split; [|split; [|split]]]]].
  - destruct (Store.localStorage w !! Store.storage_key) as [saved|]; [|reflexivity].
    destruct (truthy (VStr saved)); [|reflexivity].
    match goal with |- context [match ?c with Normal _ => _ | Throw _ => _ end] =>
      destruct c as [[[[? ?] ?] ?]|?] end; reflexivity.
  - destruct (Store.localStorage w !! Store.storage_key) as [saved|]; [|reflexivity].
    destruct (truthy (VStr saved)); [|reflexivity].
    match goal with |- context [match ?c with Normal _ => _ | Throw _ => _ end] =>
      destruct c as [[[[? ?] ?] ?]|?] end; reflexivity.
  - destruct (Store.localStorage w !! Store.storage_key) as [saved|]; [|reflexivity].
    destruct (truthy (VStr saved)); [|reflexivity].
    match goal with |- context [match ?c with Normal _ => _ | Throw _ => _ end] =>
      destruct c as [[[[? ?] ?] ?]|?] end; reflexivity.
  - destruct (Store.localStorage w !! Store.storage_key) as [saved|]; [|reflexivity].
    destruct (truthy (VStr saved)); [|reflexivity].
    match goal with |- context [match ?c with Normal _ => _ | Throw _ => _ end] =>
      destruct c as [[[[? ?] ?] ?]|?] end; reflexivity.
  - intros [-> | ->]; reflexivity.
  - intros saved Hs Hp. rewrite Hs, (Hne _ _ Hp). unfold Store.parse. rewrite Hp.
    cbn [mbind Completion_bind Store.member fst snd Store.state Store.debug].
    split; [reflexivity|]. unfold Store.console_error. cbn [SimpleLogger.console].
    apply last_snoc.
  - intros saved v Hs Hp Hnull Hundef. rewrite Hs, (Hne _ _ Hp). unfold Store.parse.
    rewrite Hp. cbn [mbind Completion_bind].
    rewrite !member_defined by (assumption || reflexivity).
    cbn [mbind Completion_bind].
    destruct (member_length_truthy _ (truthy_or_empty (get v "nodes"))) as [c1 ->].
    cbn [mbind Completion_bind].
    destruct (member_length_truthy _ (truthy_or_empty (get v "edges"))) as [c2 ->].
    split; reflexivity.
Qed.

Lemma member_node (n : jsval) (key : string) :
  is_node n = true -> Store.member engine_TypeError n key = Normal (get n key).
Proof. destruct n; try discriminate. reflexivity. Qed.

Lemma member_node_data (n : jsval) (key : string) :
  is_node n = true ->
  exists c, Store.member engine_TypeError (get n "data") key = Normal c.
Proof.
  destruct n; try discriminate. unfold is_node, get. cbn [own_props].
  destruct (get_prop "data" props); try discriminate. intros _. eexists. reflexivity.
Qed.

Lemma find_by_id_nodes (nodeId : string) (ns : list jsval) :
  forallb is_node ns = true ->
  exists old,
    Store.find_by_id engine_TypeError nodeId ns = Normal old
    /\ (old = VUndef \/ is_node old = true).
Proof.
  induction ns as [|n ns IH]; intros Hall.
  - exists VUndef. split; [reflexivity | left; reflexivity].
  - simpl in Hall. apply andb_true_iff in Hall as [Hn Hns].
    cbn [Store.find_by_id]. rewrite (member_node n "id" Hn). cbn [mbind Completion_bind].
    destruct (strict_eq (get n "id") (VStr nodeId)).
    + exists n. split; [reflexivity | right; exact Hn].
    + apply IH, Hns.
Qed.

Lemma map_relabel_nodes (nodeId label : string) (ns : list jsval) :
  forallb is_node ns = true ->
  Store.map_relabel engine_TypeError nodeId label ns
  = Normal (map (fun n =>
                   if has_id nodeId n
                   then VObj lit
                          (set_prop "data"
                             (VObj lit (set_prop "label" (VStr label)
                                          (own_props (get n "data"))))
                             (own_props n))
                   else n) ns).
Proof.
  induction ns as [|n ns IH]; intros Hall; [reflexivity|].
  simpl in Hall. apply andb_true_iff in Hall as [Hn Hns].
  cbn [Store.map_relabel map]. rewrite (member_node n "id" Hn). cbn [mbind Completion_bind].
  unfold has_id. unfold Store.relabel. rewrite (member_node n "data" Hn).
  rewrite (IH Hns). destruct (strict_eq (get n "id") (VStr nodeId)); reflexivity.
Qed.

(** X30.  On a store whose nodes are objects with a [data] object,
    [updateNodeLabel] returns without throwing and changes nothing but
    labels: the node array keeps its length, every node keeps its [id]
    and its place, a node with another [id] is kept as it is, and a
    node with the given [id] gets the new label while every other
    [data] key and every other key of the node reads as before.  The
    edges, the selection and the loading flag are untouched. *)
Theorem updateNodeLabel_changes_labels_only (t1 t2 t3 : string) (o : option JsError)
    (nodeId label : string) (i : N) (ns : list jsval) w :
  Store.nodes (Store.state w) = VArr i ns ->
  forallb is_node ns = true ->
  let out := Store.updateNodeLabel engine_TypeError t1 t2 t3 o nodeId label w in
  snd out = None
  /\ Store.edges (Store.state (fst out)) = Store.edges (Store.state w)
  /\ Store.selectedNode (Store.state (fst out)) = Store.selectedNode (Store.state w)
  /\ Store.isLoading (Store.state (fst out)) = Store.isLoading (Store.state w)
  /\ exists ns' : list jsval,
       Store.nodes (Store.state (fst out)) = VArr lit ns'
       /\ length ns' = length ns
       /\ forall (k : nat) (n : jsval),
            ns !! k = Some n ->
            exists n' : jsval,
              ns' !! k = Some n'
              /\ get n' "id" = get n "id"
              /\ (has_id nodeId n = false -> n' = n)
              /\ (has_id nodeId n = true ->
                  get (get n' "data") "label" = VStr label
                  /\ (forall key, key <> "label" ->
                        get (get n' "data") key = get (get n "data") key)
                  /\ (forall key, key <> "data" -> get n' key = get n key)).
Proof.
  intros Hn Hall out. subst out. unfold Store.updateNodeLabel. rewrite Hn.
  cbn [mbind Completion_bind Store.member String.eqb Ascii.eqb Bool.eqb].
  cbn [Store.with_debug Store.state Store.nodes Store.finish]. rewrite Hn.
  cbn [Store.array_items mbind Completion_bind].
  destruct (find_by_id_nodes nodeId ns Hall) as (old & -> & Hold).
  cbn [mbind Completion_bind]. rewrite (map_relabel_nodes nodeId label ns Hall).
  cbn [mbind Completion_bind].
  assert (Hlabel : exists c,
            (match old with
             | VUndef | VNull => Normal VUndef
             | _ => Store.member engine_TypeError old "data"
                    ≫= fun data => Store.member engine_TypeError data "label"
             end) = Normal c).
  { destruct Hold as [-> | Hold]; [eexists; reflexivity|].
    destruct (member_node_data old "label" Hold) as [c Hc].
    rewrite (member_node old "data" Hold). cbn [mbind Completion_bind].
    exists c. destruct old; try discriminate. exact Hc. }
  destruct Hlabel as [c ->]. cbn [mbind Completion_bind Store.finish fst snd].
  rewrite persist_state.
  cbn [Store.state Store.with_debug Store.with_nodes Store.nodes Store.edges
         Store.selectedNode Store.isLoading].
  do 4 (split; [reflexivity|]).
  eexists. split; [reflexivity|]. split; [apply length_map|].
  intros k n Hk.
  match goal with
  | |- context [map ?f ns] =>
      exists (f n); split;
      [change (map f ns) with (f <$> ns); rewrite list_lookup_fmap, Hk; reflexivity|]
  end.
  cbv beta. destruct (has_id nodeId n) eqn:Hid.
  - set (d' := VObj lit (set_prop "label" (VStr label) (own_props (get n "data")))).
    set (n' := VObj lit (set_prop "data" d' (own_props n))).
    assert (Hd : get n' "data" = d').
    { unfold n', get. cbn [own_props]. rewrite get_prop_set_prop. reflexivity. }
    split.
    { unfold n', get. cbn [own_props]. rewrite get_prop_set_prop. reflexivity. }
    split; [discriminate|]. intros _. rewrite Hd. split; [|split].
    + unfold d', get. cbn [own_props]. rewrite get_prop_set_prop, String.eqb_refl.
      reflexivity.
    + intros key Hkey. unfold d'. unfold get at 1. cbn [own_props].
      rewrite get_prop_set_prop.
      destruct (String.eqb "label" key) eqn:E; [|reflexivity].
      apply String.eqb_eq in E. congruence.
    + intros key Hkey. unfold n', get. cbn [own_props]. rewrite get_prop_set_prop.
      destruct (String.eqb "data" key) eqn:E; [|reflexivity].
      apply String.eqb_eq in E. congruence.
  - split; [reflexivity|]. split; [reflexivity | discriminate].
Qed.

End StoreProperties.

Lemma load_restores_the_saved_graph_witness :
  let out :=
    Store.loadFromLocalStorage no_TypeError no_SyntaxError "2025-01-01T00:00:03.000Z"
      "2025-01-01T00:00:04.000Z" saved_world in
  Store.in_sync saved_world
  /\ well_formed (Store.nodes (Store.state saved_world)) = true
  /\ snd out = None
  /\ Store.nodes (Store.state (fst out)) = json_view (Store.nodes (Store.state saved_world))
  /\ same_value (Store.nodes (Store.state saved_world)) (Store.nodes (Store.state (fst out)))
     = true.
Proof.
  intros out.
  assert (Hsync : Store.in_sync saved_world) by (vm_compute; reflexivity).
  pose proof (load_restores_the_saved_graph no_TypeError no_SyntaxError
                "2025-01-01T00:00:03.000Z" "2025-01-01T00:00:04.000Z" 20 24
                sample_nodes []
                saved_world Hsync eq_refl eq_refl eq_refl eq_refl)
    as (Hret & Hnodes & _ & _ & _ & _ & _ & Hsame & _).
  split; [exact Hsync|]. split; [reflexivity|]. split; [exact Hret|].
  split; [exact Hnodes | exact (Hsame eq_refl)].
Defined.

Lemma updateNodeLabel_changes_labels_only_witness :
  let out :=
    Store.updateNodeLabel no_TypeError "2025-01-01T00:00:01.000Z"
      "2025-01-01T00:00:02.000Z" "2025-01-01T00:00:03.000Z" None "n1"
      "Socrates is mortal" sample_world in
  forallb is_node sample_nodes = true
  /\ snd out = None
  /\ exists ns' : list jsval,
       Store.nodes (Store.state (fst out)) = VArr lit ns' /\ length ns' = 2%nat.
Proof.
  intros out.
  pose proof (updateNodeLabel_changes_labels_only no_TypeError
                "2025-01-01T00:00:01.000Z" "2025-01-01T00:00:02.000Z"
                "2025-01-01T00:00:03.000Z" None "n1" "Socrates is mortal" 20
                sample_nodes
                sample_world eq_refl eq_refl)
    as (Hret & _ & _ & _ & ns' & Hnodes & Hlen & _).
  split; [reflexivity|]. split; [exact Hret|].
  exists ns'. split; [exact Hnodes | exact Hlen].
Defined.
